(** * The AutoHotkey debug adapter: breakpoints, continuation, handles

    The development follows the TypeScript sources:
    - the class [AhkDebugSession]: breakpoint registry, handle tables,
      continuation handling, advanced breakpoints, log points;
    - [util/evaluator/library.ts]: the primitive function library.

    JavaScript strings are modelled as [string], one [ascii] per code unit
    in the range U+0000..U+00FF.  JavaScript numbers that the adapter only
    uses as counters, line numbers and handles are modelled as [N]; this
    is exact below 2^53, the range in which a double holds every natural
    number.  The replies of the DBGp session, of the expression
    evaluators and of the path conversion of the base class are inputs of
    the model; a failing command is modelled where the code catches the
    failure ([stack_get], [breakpoint_set], [breakpoint_get], [safeEval]).
    The callbacks of one [Promise.all] resume in the order in which their
    commands were sent, the session answering in order. *)

From Stdlib Require Import NArith Ascii String List Bool Lia.
From Stdlib Require Import Decimal DecimalFacts DecimalN DecimalString.
From stdpp Require Import gmap strings list fin_maps.

Open Scope string_scope.
Open Scope N_scope.

(* ===================================================================== *)
(** ** JavaScript primitives *)
(* ===================================================================== *)

Module JS.

(** [String.prototype.toLowerCase] on the code units U+0000..U+00FF:
    A-Z and the Latin-1 capitals (U+00C0..U+00DE except the
    multiplication sign U+00D7) move up by 32. *)
Definition lower_char (c : ascii) : ascii :=
  let n := N_of_ascii c in
  if ((65 <=? n) && (n <=? 90)) || ((192 <=? n) && (n <=? 222) && negb (n =? 215))
  then ascii_of_N (n + 32)
  else c.

Fixpoint toLowerCase (s : string) : string :=
  match s with
  | EmptyString => EmptyString
  | String c s' => String (lower_char c) (toLowerCase s')
  end.

(** [String.prototype.startsWith]. *)
Definition startsWith (s p : string) : bool := String.prefix p s.

(** Truthiness of a [string | undefined] value: defined and non-empty. *)
Definition truthy (v : option string) : bool :=
  match v with
  | Some (String _ _) => true
  | _ => false
  end.

(** Template-literal rendering of a natural number: decimal digits
    without leading zeros. *)
Definition String_of_N (n : N) : string :=
  NilEmpty.string_of_uint (N.to_uint n).

End JS.

(* ===================================================================== *)
(** ** The primitive function library ([util/evaluator/library.ts]) *)
(* ===================================================================== *)

Module Library.

Section Values.

(** The carrier of JavaScript numbers and of DBGp object properties is
    immaterial to the [typeof] tests below. *)
Variables (number objectProperty : Type).

(** [EvaluatedValue]: what the expression evaluator hands to a library
    function; the cases are those the library tells apart with [typeof]
    and [instanceof]. *)
Inductive EvaluatedValue : Type :=
| VUndefined
| VString (s : string)
| VNumber (n : number)
| VObject (o : objectProperty).

(** JavaScript's [typeof] on such a value. *)
Definition typeof (v : EvaluatedValue) : string :=
  match v with
  | VUndefined => "undefined"
  | VString _ => "string"
  | VNumber _ => "number"
  | VObject _ => "object"
  end.

(** [isSet], [isString], [isNumber]: the session and stack frame
    arguments are unused, the promise is resolved at once. *)
Definition isSet (value : EvaluatedValue) : bool :=
  String.eqb (typeof value) "undefined".

Definition isString (value : EvaluatedValue) : bool :=
  String.eqb (typeof value) "string".

Definition isNumber (value : EvaluatedValue) : bool :=
  String.eqb (typeof value) "number".

Definition LibraryFunc : Type := EvaluatedValue -> bool.

(** The calls of [set] on [library_for_v1] and on [library_for_v2] for
    [isSet], [isString] and [isNumber], in source order: the name and the
    function registered under it. *)
Definition library_for_v1 : list (string * LibraryFunc) :=
  [("IsSet", isSet); ("IsUndefined", isSet);
   ("IsString", isString); ("IsNumber", isNumber)].

Definition library_for_v2 : list (string * LibraryFunc) :=
  [("IsSet", isSet); ("IsUndefined", isSet);
   ("IsString", isString); ("IsNumber", isNumber)].

(** The functions registered under [name]. *)
Definition registered (name : string) (library : list (string * LibraryFunc))
    : list LibraryFunc :=
  map snd (List.filter (fun entry => String.eqb (fst entry) name) library).

End Values.

Arguments VUndefined {number objectProperty}.
Arguments VString {number objectProperty} s.
Arguments VNumber {number objectProperty} n.
Arguments VObject {number objectProperty} o.

End Library.

(* ===================================================================== *)
(** ** Hit conditions ([checkAdvancedBreakpoint], the [hitCondition] part) *)
(* ===================================================================== *)

Module HitCondition.

(** [\d] and [\s] of a [u]-flagged regular expression, on the code units
    U+0000..U+00FF: the digits 0-9; TAB, LF, VT, FF, CR, SPACE and
    NO-BREAK SPACE. *)
Definition is_digit (c : ascii) : bool :=
  let n := N_of_ascii c in (48 <=? n) && (n <=? 57).

Definition is_space (c : ascii) : bool :=
  let n := N_of_ascii c in
  ((9 <=? n) && (n <=? 13)) || (n =? 32) || (n =? 160).

Fixpoint all_digits (s : string) : bool :=
  match s with
  | EmptyString => true
  | String c s' => is_digit c && all_digits s'
  end.

Fixpoint skip_spaces (s : string) : string :=
  match s with
  | EmptyString => EmptyString
  | String c s' => if is_space c then skip_spaces s' else s
  end.

Fixpoint strip_prefix (p s : string) : option string :=
  match p with
  | EmptyString => Some s
  | String a p' =>
      match s with
      | EmptyString => None
      | String b s' => if Ascii.eqb a b then strip_prefix p' s' else None
      end
  end.

(** The tail [\s*(?<number>\d+)$] of the pattern: the greedy run of
    white space, then one or more digits up to the end of the input. *)
Definition match_number (s : string) : option string :=
  match skip_spaces s with
  | EmptyString => None
  | String c d => if all_digits (String c d) then Some (String c d) else None
  end.

(** The alternatives of the [operator] group, in pattern order. *)
Definition operators : list string :=
  ["<="; "<"; ">="; ">"; "=="; "="; "%"].

(** Backtracking over the alternatives: the first operator after which
    the tail of the pattern matches. *)
Fixpoint try_operators (ops : list string) (s : string)
    : option (option string * string) :=
  match ops with
  | [] => None
  | op :: ops' =>
      match strip_prefix op s with
      | Some rest =>
          match match_number rest with
          | Some number => Some (Some op, number)
          | None => try_operators ops' s
          end
      | None => try_operators ops' s
      end
  end.

(** [hitCondition.match(/^(?<operator><=|<|>=|>|==|=|%)?\s*(?<number>\d+)$/u)]:
    the groups [operator] ([None] when the optional group did not
    take part) and [number]; [None] when the pattern does not match. *)
Definition hit_match (hitCondition : string) : option (option string * string) :=
  match try_operators operators hitCondition with
  | Some groups => Some groups
  | None =>
      match match_number hitCondition with
      | Some number => Some (None, number)
      | None => None
      end
  end.

(** The normalised operator: [>=] when omitted, [==] for [=]. *)
Definition normalise_operator (operator : option string) : string :=
  match operator with
  | None => ">="
  | Some op => if String.eqb op "=" then "==" else op
  end.

(** The code handed to [safeEval]. *)
Definition hit_code (counter : N) (operator : option string) (number : string)
    : string :=
  let _operator := normalise_operator operator in
  if String.eqb _operator "%"
  then "(" ++ JS.String_of_N counter ++ " % " ++ number ++ " === 0)"
  else JS.String_of_N counter ++ " " ++ _operator ++ " " ++ number.

Section Eval.

(** [safeEval]: [None] stands for a thrown exception. *)
Variable safeEval : string -> option bool.

(** [hitConditionResult] after the [if (hitCondition) { ... }] block:
    it stays [false] unless the pattern matches and the evaluation
    returns. *)
Definition hitConditionResult (counter : N) (hitCondition : option string)
    : bool :=
  match hitCondition with
  | Some (String c h) =>
      match hit_match (String c h) with
      | Some (operator, number) =>
          match safeEval (hit_code counter operator number) with
          | Some result => result
          | None => false
          end
      | None => false
      end
  | _ => false
  end.

End Eval.

(** *** The evaluation of the generated code

    [safe-eval] runs the code in a fresh V8 context, in sloppy mode.  The
    model covers the two shapes [hit_code] builds. *)

Definition is_octal_digit (c : ascii) : bool :=
  let n := N_of_ascii c in (48 <=? n) && (n <=? 55).

Fixpoint all_octal (s : string) : bool :=
  match s with
  | EmptyString => true
  | String c s' => is_octal_digit c && all_octal s'
  end.

Fixpoint octal_value (acc : N) (s : string) : N :=
  match s with
  | EmptyString => acc
  | String c s' => octal_value (8 * acc + (N_of_ascii c - 48)) s'
  end.

(** A numeric literal made of digits: a leading [0] followed by octal
    digits only is a legacy octal literal, everything else is decimal. *)
Definition numeric_literal (s : string) : option N :=
  match s with
  | EmptyString => None
  | String c s' =>
      if Ascii.eqb c "0" && negb (String.eqb s' "") && all_octal s'
      then Some (octal_value 0 s')
      else option_map N.of_uint (NilEmpty.uint_of_string s)
  end.

Fixpoint no_space (s : string) : bool :=
  match s with
  | EmptyString => true
  | String c s' => negb (Ascii.eqb c " ") && no_space s'
  end.

(** Tokens separated by single spaces. *)
Fixpoint split_space (s : string) : list string :=
  match s with
  | EmptyString => [EmptyString]
  | String c s' =>
      if Ascii.eqb c " " then EmptyString :: split_space s'
      else match split_space s' with
           | [] => [String c EmptyString]
           | t :: ts => String c t :: ts
           end
  end.

Definition compare_op (op : string) (a b : N) : option bool :=
  if String.eqb op "<=" then Some (a <=? b)
  else if String.eqb op "<" then Some (a <? b)
  else if String.eqb op ">=" then Some (b <=? a)
  else if String.eqb op ">" then Some (b <? a)
  else if String.eqb op "==" then Some (a =? b)
  else None.

(** [a % b === 0]: the remainder by zero is NaN, which is not [0]. *)
Definition remainder_is_zero (a b : N) : bool :=
  if b =? 0 then false else (a mod b) =? 0.

(** The code is read token by token: [a op b] is a comparison of two
    literals, [(a % b === 0)] a test of the remainder; anything else is
    refused as a syntax error. *)
Definition safeEval_js (code : string) : option bool :=
  match split_space code with
  | [a; op; b] =>
      match numeric_literal a, numeric_literal b with
      | Some x, Some y => compare_op op x y
      | _, _ => None
      end
  | [a; op; b; eq; z] =>
      match a with
      | String paren a' =>
          if Ascii.eqb paren "(" && String.eqb op "%" && String.eqb eq "==="
             && String.eqb z "0)"
          then
            match numeric_literal a', numeric_literal b with
            | Some x, Some y => Some (remainder_is_zero x y)
            | _, _ => None
            end
          else None
      | EmptyString => None
      end
  | _ => None
  end.

End HitCondition.

(* ===================================================================== *)
(** ** Log messages ([evalLogMessage]) *)
(* ===================================================================== *)

Module LogMessage.

Definition LF : string := String "010"%char EmptyString.

(** [.] without the [s] flag refuses the line terminators (LF and CR on
    the code units U+0000..U+00FF). *)
Definition is_line_terminator (c : ascii) : bool :=
  Ascii.eqb c "010"%char || Ascii.eqb c "013"%char.

(** The look-behind [(?<!\\)]: the code unit before the current position,
    if any, is not a backslash. *)
Definition escaped (prev : option ascii) : bool :=
  match prev with
  | Some c => Ascii.eqb c "\"%char
  | None => false
  end.

(** [(?<expression>.+?)(?<!\\)\}] from the code unit after an opening
    brace: the lazy quantifier takes one code unit, then extends one code
    unit at a time until an unescaped closing brace follows.  [taken]
    tells whether the group already holds a code unit and [prev] is the
    code unit before [s].  The result is the group and the input after the
    closing brace. *)
Fixpoint lazy_body (taken : bool) (prev : ascii) (s : string)
    : option (string * string) :=
  match s with
  | EmptyString => None
  | String c s' =>
      if taken && Ascii.eqb c "}"%char && negb (Ascii.eqb prev "\"%char)
      then Some (EmptyString, s')
      else if is_line_terminator c then None
      else match lazy_body true c s' with
           | Some (e, a) => Some (String c e, a)
           | None => None
           end
  end.

(** One execution of [/(?<!\\)\{(?<expression>.+?)(?<!\\)\}/] on the
    input [s] preceded by the code unit [prev]: the leftmost match, as the
    input before it, the group [expression] and the input after it.  (The
    flags [u] and [i] change nothing for braces and backslashes.) *)
Fixpoint exec (prev : option ascii) (s : string)
    : option (string * string * string) :=
  match s with
  | EmptyString => None
  | String c s' =>
      match (if Ascii.eqb c "{"%char && negb (escaped prev)
             then lazy_body false c s' else None) with
      | Some (e, a) => Some (EmptyString, e, a)
      | None =>
          match exec (Some c) s' with
          | Some (b, e, a) => Some (String c b, e, a)
          | None => None
          end
      end
  end.

(** [Array.from(logMessage.matchAll(regex), (x) => x[1])]: the groups of
    the successive matches; every match ends in a closing brace, which is
    the code unit before the rest of the input. *)
Fixpoint matchAll_from (fuel : nat) (prev : option ascii) (s : string)
    : list string :=
  match fuel with
  | O => []
  | S fuel' =>
      match exec prev s with
      | None => []
      | Some (_, e, a) => e :: matchAll_from fuel' (Some "}"%char) a
      end
  end.

Definition matchAll (s : string) : list string :=
  matchAll_from (String.length s) None s.

(** *** [String.prototype.replace] with a non-global regular expression *)

Section Substitution.

(** The matched text, the input before and after it and the only
    capture, which is also the named group [expression]. *)
Variables (matched before after capture : string).

Fixpoint has_gt (s : string) : bool :=
  match s with
  | EmptyString => false
  | String c s' => Ascii.eqb c ">"%char || has_gt s'
  end.

Inductive subst_mode : Type :=
| Plain
| GroupName (name : string).

(** [GetSubstitution] of ECMAScript for one capture: [$$], [$&], [$`],
    [$'], [$1], [$01] and [$<name>] are replacement patterns, any other
    dollar sign stands for itself. *)
Fixpoint getSubstitution (mode : subst_mode) (template : string) : string :=
  match mode, template with
  | _, EmptyString => EmptyString
  | GroupName name, String c t =>
      if Ascii.eqb c ">"%char
      then (if String.eqb name "expression" then capture else EmptyString)
             ++ getSubstitution Plain t
      else getSubstitution (GroupName (name ++ String c EmptyString)) t
  | Plain, String c t =>
      if negb (Ascii.eqb c "$"%char) then String c (getSubstitution Plain t)
      else
        match t with
        | EmptyString => String c EmptyString
        | String x t' =>
            if Ascii.eqb x "$"%char then String "$"%char (getSubstitution Plain t')
            else if Ascii.eqb x "&"%char then matched ++ getSubstitution Plain t'
            else if Ascii.eqb x "`"%char then before ++ getSubstitution Plain t'
            else if Ascii.eqb x "'"%char then after ++ getSubstitution Plain t'
            else if Ascii.eqb x "<"%char then
              if has_gt t' then getSubstitution (GroupName EmptyString) t'
              else String c (getSubstitution Plain t)
            else if Ascii.eqb x "0"%char then
              match t' with
              | String y t'' =>
                  if Ascii.eqb y "1"%char then capture ++ getSubstitution Plain t''
                  else String c (getSubstitution Plain t)
              | EmptyString => String c (getSubstitution Plain t)
              end
            else if Ascii.eqb x "1"%char then capture ++ getSubstitution Plain t'
            else String c (getSubstitution Plain t)
        end
  end.

End Substitution.

(** [evaled.replace(new RegExp(regex.source, 'ui'), replacement)]: the
    first match, if any, gives way to the expanded replacement. *)
Definition replace (s replacement : string) : string :=
  match exec None s with
  | None => s
  | Some (b, e, a) =>
      b ++ getSubstitution (String "{"%char e ++ "}") b a e Plain replacement ++ a
  end.

Section Rendering.

(** [session.fetchPrimitiveProperty]: the value of a primitive property
    or [null]. *)
Variable fetchPrimitiveProperty : string -> option string.

(** One callback of the [map]: a truthy value replaces the first match
    left in [evaled]. *)
Definition substitute (evaled propertyName : string) : string :=
  match fetchPrimitiveProperty propertyName with
  | Some (String c v) => replace evaled (String c v)
  | _ => evaled
  end.

(** [evalLogMessage]: the callbacks run in the order of the matches (the
    session answers its commands in order). *)
Definition evalLogMessage (logMessage : string) : string :=
  fold_left substitute (matchAll logMessage) logMessage ++ LF.

(** The rendering as the specification words it: every segment between
    unescaped braces gives way to the value fetched for its expression
    (nothing when there is none), the text around the segments stays. *)
Fixpoint render_from (fuel : nat) (prev : option ascii) (template : string)
    : string :=
  match fuel with
  | O => template
  | S fuel' =>
      match exec prev template with
      | None => template
      | Some (b, e, a) =>
          b ++ match fetchPrimitiveProperty e with
               | Some v => v
               | None => EmptyString
               end ++ render_from fuel' (Some "}"%char) a
      end
  end.

Definition render (template : string) : string :=
  render_from (String.length template) None template.

End Rendering.

(** The code unit before the input that follows [s], when [prev] is the
    code unit before [s]. *)
Fixpoint prev_after (prev : option ascii) (s : string) : option ascii :=
  match s with
  | EmptyString => prev
  | String c s' => prev_after (Some c) s'
  end.

(** A match found after the prefix [d] of the input. *)
Definition shift (d : string) (m : option (string * string * string))
    : option (string * string * string) :=
  match m with
  | Some (b, e, a) => Some (d ++ b, e, a)
  | None => None
  end.

Fixpoint absent (x : ascii) (s : string) : bool :=
  match s with
  | EmptyString => true
  | String c s' => negb (Ascii.eqb c x) && absent x s'
  end.

(** A value that the replacement leaves as it is and that neither opens
    a segment nor escapes the code unit after it: not empty, no opening
    brace, no dollar sign, no backslash at its end. *)
Definition plain (v : string) : bool :=
  negb (String.eqb v EmptyString) && absent "{"%char v && absent "$"%char v
  && negb (escaped (prev_after None v)).

End LogMessage.

(* ===================================================================== *)
(** ** The records of the DBGp session *)
(* ===================================================================== *)

Module Dbgp.

(** Modelled from the spec: the classes of [dbgpSession], which is not
    among the sources.  A stack frame is [{fileUri, line, name}]. *)
Record StackFrame : Type := {
  sf_fileUri : string;
  sf_line : N;
  sf_name : string;
}.

(** Modelled from the spec: a context is a named variable scope at a
    stack frame. *)
Record Context : Type := {
  ctx_id : N;
  ctx_name : string;
}.

(** Modelled from the spec: a property with the fields the variable
    projection reads; an [ObjectProperty] is one of type ["object"]. *)
Record Property : Type := {
  p_name : string;
  p_type : string;
  p_displayValue : string;
  p_isIndex : bool;
  p_index : option N;
  p_isArray : bool;
  p_maxIndex : option N;
}.

(** Modelled from the spec: [AdvancedData { condition: string?,
    hitCondition: string?, logMessage: string?, counter: integer }]. *)
Record AdvancedData : Type := {
  counter : N;
  condition : option string;
  hitCondition : option string;
  logMessage : option string;
}.

(** Modelled from the spec: a breakpoint record has a file URI, a line
    number and optional advanced data. *)
Record Breakpoint : Type := {
  fileUri : string;
  line : N;
  advancedData : option AdvancedData;
}.

(** Modelled from the spec: run and step commands return
    [{status, commandName}]. *)
Record ContinuationResponse : Type := {
  status : string;
  commandName : string;
}.

(** What the debuggee shows at one pause: the response to the continuation
    command that led there, the reply to [stack_get] ([None] when the
    command fails), and the answers of the condition evaluator and of
    [fetchPrimitiveProperty] in that state. *)
Record Pause : Type := {
  response : ContinuationResponse;
  stack : option (list StackFrame);
  evalCondition : string -> bool;
  fetchPrimitiveProperty : string -> option string;
}.

End Dbgp.

(* ===================================================================== *)
(** ** The debug session ([AhkDebugSession]) *)
(* ===================================================================== *)

Module Adapter.

Import Dbgp.

Record LaunchRequestArguments : Type := {
  stopOnEntry : option bool;
  maxChildren : N;
  useAdvancedBreakpoint : bool;
}.

(** The fields of the class that the handlers below read and write. *)
Record Session : Type := {
  config : LaunchRequestArguments;
  contexts : gmap N Context;
  stackFrameIdCounter : N;
  stackFrames : gmap N StackFrame;
  variableReferenceCounter : N;
  objectProperties : gmap N Property;
  breakpoints : gmap string Breakpoint;
}.

(** The state after the constructor and [launchRequest]. *)
Definition initial (args : LaunchRequestArguments) : Session :=
  {| config := args;
     contexts := ∅;
     stackFrameIdCounter := 1;
     stackFrames := ∅;
     variableReferenceCounter := 1;
     objectProperties := ∅;
     breakpoints := ∅ |}.

Definition set_breakpoints (reg : gmap string Breakpoint) (s : Session) : Session :=
  {| config := config s;
     contexts := contexts s;
     stackFrameIdCounter := stackFrameIdCounter s;
     stackFrames := stackFrames s;
     variableReferenceCounter := variableReferenceCounter s;
     objectProperties := objectProperties s;
     breakpoints := reg |}.

Inductive Event : Type :=
| StoppedEvent (reason : string)
| TerminatedEvent (reason : string)
| OutputEvent (output : string) (category : string).

Inductive Command : Type :=
| FeatureSet (name : string) (value : N)
| Run
| StepInto
| StepOver
| StepOut
| StackGet.

(** What a handler does, in order: events and responses sent to the IDE,
    commands sent to the debuggee. *)
Inductive Action : Type :=
| SendEvent (e : Event)
| SendResponse
| SendCommand (c : Command).

(** How the promise of a handler ends: resolved, rejected by an uncaught
    exception, or pending for ever because the debuggee never answers the
    last command. *)
Inductive Settled : Type :=
| Resolved
| Rejected
| Pending.

Record Outcome : Type := {
  session : Session;
  actions : list Action;
  settled : Settled;
}.

Definition resolved (s : Session) (acts : list Action) : Outcome :=
  {| session := s; actions := acts; settled := Resolved |}.

(** The actions [acts] happen before those of [o]. *)
Definition after (acts : list Action) (o : Outcome) : Outcome :=
  {| session := session o; actions := acts ++ actions o; settled := settled o |}.

(** The key of the registry: [`${filePath}${line}`]. *)
Definition key (filePath : string) (line : N) : string :=
  filePath ++ JS.String_of_N line.

(** *** Handles: stack frames, scopes and variables *)

Record DapStackFrame : Type := {
  frame_id : N;
  frame_source_path : string;
  frame_name : string;
  frame_line : N;
  frame_column : N;
}.

Record DapScope : Type := {
  scope_name : string;
  scope_variablesReference : N;
}.

Record VariablesArguments : Type := {
  variablesReference : N;
  filter : option string;
  start : option N;
  count : option N;
}.

Record DapVariable : Type := {
  v_name : string;
  v_type : string;
  v_value : string;
  v_variablesReference : N;
  v_indexedVariables : option N;
  v_namedVariables : option N;
}.

(** The callback of [stackTraceRequest]: [id = this.stackFrameIdCounter++]
    and [this.stackFrames.set(id, stackFrame)].  (The name of the source,
    the base name of the client path, is left out of the frame.) *)
Definition add_frame (s : Session) (stackFrame : StackFrame)
    : Session * DapStackFrame :=
  let id := stackFrameIdCounter s in
  ({| config := config s;
      contexts := contexts s;
      stackFrameIdCounter := id + 1;
      stackFrames := <[id := stackFrame]> (stackFrames s);
      variableReferenceCounter := variableReferenceCounter s;
      objectProperties := objectProperties s;
      breakpoints := breakpoints s |},
   {| frame_id := id;
      frame_source_path := sf_fileUri stackFrame;
      frame_name := sf_name stackFrame;
      frame_line := sf_line stackFrame;
      frame_column := 1 |}).

(** [stackTraceRequest] on the reply [frames] to [stack_get]. *)
Fixpoint stackTraceRequest (frames : list StackFrame) (s : Session)
    : Session * list DapStackFrame :=
  match frames with
  | [] => (s, [])
  | stackFrame :: rest =>
      let '(s1, f) := add_frame s stackFrame in
      let '(s2, fs) := stackTraceRequest rest s1 in
      (s2, f :: fs)
  end.

(** The callback of [scopesRequest]. *)
Definition add_scope (s : Session) (context : Context) : Session * DapScope :=
  let variableReference := variableReferenceCounter s in
  ({| config := config s;
      contexts := <[variableReference := context]> (contexts s);
      stackFrameIdCounter := stackFrameIdCounter s;
      stackFrames := stackFrames s;
      variableReferenceCounter := variableReference + 1;
      objectProperties := objectProperties s;
      breakpoints := breakpoints s |},
   {| scope_name := ctx_name context;
      scope_variablesReference := variableReference |}).

Fixpoint add_scopes (contexts : list Context) (s : Session)
    : Session * list DapScope :=
  match contexts with
  | [] => (s, [])
  | context :: rest =>
      let '(s1, sc) := add_scope s context in
      let '(s2, scs) := add_scopes rest s1 in
      (s2, sc :: scs)
  end.

(** [scopesRequest]: [None] is the error thrown for an unknown frame id;
    [contextNames] is the reply to [context_names] for a frame. *)
Definition scopesRequest (frameId : N)
    (contextNames : StackFrame -> list Context) (s : Session)
    : option (Session * list DapScope) :=
  match stackFrames s !! frameId with
  | None => None
  | Some stackFrame => Some (add_scopes (contextNames stackFrame) s)
  end.

(** The window test of the indexed filter; a missing operand makes a
    comparison with NaN, which fails. *)
Definition in_window (index start count : option N) : bool :=
  match index, start, count with
  | Some i, Some st, Some ct => (st + 1 <=? i) && (i <=? st + ct)
  | _, _, _ => false
  end.

(** Whether the loop of [variablesRequest] skips the property. *)
Definition filtered_out (args : VariablesArguments) (property : Property) : bool :=
  match filter args with
  | Some (String c f) =>
      if String.eqb (String c f) "named" && p_isIndex property then true
      else if String.eqb (String c f) "indexed"
      then if negb (p_isIndex property) then true
           else negb (in_window (p_index property) (start args) (count args))
      else false
  | _ => false
  end.

(** The body of the loop for a property that is not skipped. *)
Definition add_variable (s : Session) (property : Property) : Session * DapVariable :=
  let name :=
    if p_isIndex property
    then match p_index property with
         | Some i => JS.String_of_N i
         | None => "undefined"
         end
    else p_name property in
  if String.eqb (p_type property) "object"
  then
    let variablesReference := variableReferenceCounter s in
    let paged :=
      p_isArray property &&
      match p_maxIndex property with Some m => 100 <? m | None => false end in
    ({| config := config s;
        contexts := contexts s;
        stackFrameIdCounter := stackFrameIdCounter s;
        stackFrames := stackFrames s;
        variableReferenceCounter := variablesReference + 1;
        objectProperties := <[variablesReference := property]> (objectProperties s);
        breakpoints := breakpoints s |},
     {| v_name := name;
        v_type := p_type property;
        v_value := p_displayValue property;
        v_variablesReference := variablesReference;
        v_indexedVariables := if paged then p_maxIndex property else None;
        v_namedVariables := if paged then Some 1 else None |})
  else
    (s, {| v_name := name;
           v_type := p_type property;
           v_value := p_displayValue property;
           v_variablesReference := 0;
           v_indexedVariables := None;
           v_namedVariables := None |}).

Fixpoint add_variables (args : VariablesArguments) (properties : list Property)
    (s : Session) : Session * list DapVariable :=
  match properties with
  | [] => (s, [])
  | property :: rest =>
      if filtered_out args property then add_variables args rest s
      else
        let '(s1, v) := add_variable s property in
        let '(s2, vs) := add_variables args rest s1 in
        (s2, v :: vs)
  end.

(** [variablesRequest]: [contextGet] and [propertyGet] are the replies to
    [context_get] and to [property_get] (the children of the property). *)
Definition variablesRequest (args : VariablesArguments)
    (contextGet : Context -> list Property)
    (propertyGet : Property -> list Property) (s : Session)
    : Session * list DapVariable :=
  let properties :=
    match contexts s !! variablesReference args with
    | Some context => contextGet context
    | None =>
        match objectProperties s !! variablesReference args with
        | Some objectProperty => propertyGet objectProperty
        | None => []
        end
    end in
  add_variables args properties s.

Section Handlers.

(** [convertClientPathToDebugger] and [convertDebuggerPathToClient] of the
    base class, and [safeEval]. *)
Variables (convertClientPathToDebugger convertDebuggerPathToClient : string -> string).
Variable safeEval : string -> option bool.

(** *** Breakpoints *)

Record SourceBreakpoint : Type := {
  sb_line : N;
  sb_condition : option string;
  sb_hitCondition : option string;
  sb_logMessage : option string;
}.

(** The reply to [breakpoint_set] followed by [breakpoint_get] for one
    requested breakpoint: the message of the error of either command, or
    the id and the line the debuggee resolved. *)
Inductive SetReply : Type :=
| SetFailed (message : string)
| SetOk (id : N) (line : N).

Record SetBreakpointsArguments : Type := {
  source_path : option string;
  requested : option (list (SourceBreakpoint * SetReply));
}.

(** One entry of the response body. *)
Record DapBreakpoint : Type := {
  dap_id : option N;
  dap_line : option N;
  dap_verified : bool;
  dap_message : option string;
}.

(** The test of the filter of the clearing pass: the breakpoint the
    debuggee lists belongs to the file of the request. *)
Definition same_file (filePath : string) (dbgpBreakpoint : Breakpoint) : bool :=
  let _fileUri := convertDebuggerPathToClient (fileUri dbgpBreakpoint) in
  String.eqb (JS.toLowerCase filePath) (JS.toLowerCase _fileUri).

(** The filter of the clearing pass: a breakpoint the debuggee lists for
    this file loses its record. *)
Definition clear_one (filePath : string) (reg : gmap string Breakpoint)
    (dbgpBreakpoint : Breakpoint) : gmap string Breakpoint :=
  if same_file filePath dbgpBreakpoint
  then delete (key (JS.toLowerCase filePath) (line dbgpBreakpoint)) reg
  else reg.

Definition clear_file (filePath : string) (listed : list Breakpoint)
    (reg : gmap string Breakpoint) : gmap string Breakpoint :=
  fold_left (clear_one filePath) listed reg.

(** The record a requested breakpoint leaves for the resolved [line],
    with the key it is stored under.  [found] is the record under
    [`${filePath}${line}`]: when it carries advanced data it is updated
    in place, its counter untouched; otherwise a new record with the
    counter 0 goes under the lower-cased key. *)
Definition upsert (filePath : string) (line : N) (found : option Breakpoint)
    (vscodeBreakpoint : SourceBreakpoint) : string * Breakpoint :=
  let created :=
    (key (JS.toLowerCase filePath) line,
     {| fileUri := convertClientPathToDebugger filePath;
        line := line;
        advancedData :=
          Some {| counter := 0;
                  condition := sb_condition vscodeBreakpoint;
                  hitCondition := sb_hitCondition vscodeBreakpoint;
                  logMessage := sb_logMessage vscodeBreakpoint |} |}) in
  match found with
  | Some dbgpBreakpoint =>
      match advancedData dbgpBreakpoint with
      | Some data =>
          (key filePath line,
           {| fileUri := fileUri dbgpBreakpoint;
              line := Dbgp.line dbgpBreakpoint;
              advancedData :=
                Some {| counter := counter data;
                        condition := sb_condition vscodeBreakpoint;
                        hitCondition := sb_hitCondition vscodeBreakpoint;
                        logMessage := sb_logMessage vscodeBreakpoint |} |})
      | None => created
      end
  | None => created
  end.

(** The counter a record found in the registry carries, 0 when there is
    no record or no advanced data. *)
Definition counter_found (found : option Breakpoint) : N :=
  match found with
  | Some dbgpBreakpoint =>
      match advancedData dbgpBreakpoint with
      | Some data => counter data
      | None => 0
      end
  | None => 0
  end.

(** The callback of the setting pass. *)
Definition set_one (filePath : string) (reg : gmap string Breakpoint)
    (vscodeBreakpoint : SourceBreakpoint) (reply : SetReply)
    : gmap string Breakpoint * DapBreakpoint :=
  match reply with
  | SetFailed message =>
      (reg, {| dap_id := None; dap_line := None; dap_verified := false;
               dap_message := Some message |})
  | SetOk id line =>
      let '(k, record) :=
        upsert filePath line (reg !! key filePath line) vscodeBreakpoint in
      (<[k := record]> reg,
       {| dap_id := Some id; dap_line := Some line; dap_verified := true;
          dap_message := None |})
  end.

(** The callbacks resume in the order of the requests, as the session
    answers its commands in order. *)
Fixpoint set_all (filePath : string) (reg : gmap string Breakpoint)
    (requests : list (SourceBreakpoint * SetReply))
    : gmap string Breakpoint * list DapBreakpoint :=
  match requests with
  | [] => (reg, [])
  | (vscodeBreakpoint, reply) :: rest =>
      let '(reg1, b) := set_one filePath reg vscodeBreakpoint reply in
      let '(reg2, bs) := set_all filePath reg1 rest in
      (reg2, b :: bs)
  end.

(** [setBreakPointsRequest]: [listed] is the reply to [breakpoint_list].
    The result is the session once every callback has run, with the
    response body they fill.  (While a continuation command is in
    flight the response is sent without waiting for the callbacks; the
    registry ends up the same.) *)
Definition setBreakPointsRequest (args : SetBreakpointsArguments)
    (listed : list Breakpoint) (s : Session) : Session * list DapBreakpoint :=
  let filePath := match source_path args with Some p => p | None => "" end in
  let cleared := clear_file filePath listed (breakpoints s) in
  match requested args with
  | Some requests =>
      let '(reg, vscodeBreakpoints) := set_all filePath cleared requests in
      (set_breakpoints reg s, vscodeBreakpoints)
  | None => (set_breakpoints cleared s, [])
  end.

(** *** Continuation *)

Inductive CurrentBreakpoint : Type :=
| Destructure_undefined
| NoBreakpoint
| Registered (k : string) (breakpoint : Breakpoint).

(** [getCurrentBreakpoint]: a failing [stack_get] gives [null]; an empty
    stack makes the destructuring of [stackFrames[0]] throw. *)
Definition getCurrentBreakpoint (s : Session) (p : Pause) : CurrentBreakpoint :=
  match stack p with
  | None => NoBreakpoint
  | Some [] => Destructure_undefined
  | Some (stackFrame :: _) =>
      let filePath := convertDebuggerPathToClient (sf_fileUri stackFrame) in
      let k := key (JS.toLowerCase filePath) (sf_line stackFrame) in
      match breakpoints s !! k with
      | Some breakpoint => Registered k breakpoint
      | None => NoBreakpoint
      end
  end.

(** [matchCondition] of [checkAdvancedBreakpoint]. *)
Definition matchCondition (condition hitCondition : option string)
    (conditionResult hitConditionResult : bool) : bool :=
  if JS.truthy condition && JS.truthy hitCondition
  then conditionResult && hitConditionResult
  else if JS.truthy condition || JS.truthy hitCondition
  then conditionResult || hitConditionResult
  else true.

Definition conditionResult (p : Pause) (condition : option string) : bool :=
  if JS.truthy condition
  then match condition with Some c => evalCondition p c | None => false end
  else false.

(** [breakpoint.advancedData.counter++]. *)
Definition increment (data : AdvancedData) : AdvancedData :=
  {| counter := counter data + 1;
     condition := condition data;
     hitCondition := hitCondition data;
     logMessage := logMessage data |}.

(** The value of [matchCondition] for the advanced data read after the
    increment. *)
Definition matches (p : Pause) (data : AdvancedData) : bool :=
  matchCondition (condition data) (hitCondition data)
    (conditionResult p (condition data))
    (HitCondition.hitConditionResult safeEval (counter data) (hitCondition data)).

(** The registry once the record under [k] holds [data]. *)
Definition with_data (s : Session) (k : string) (breakpoint : Breakpoint)
    (data : AdvancedData) : Session :=
  set_breakpoints
    (<[k := {| fileUri := fileUri breakpoint;
               line := line breakpoint;
               advancedData := Some data |}]> (breakpoints s)) s.

(** [checkAdvancedBreakpoint] for the record registered under [k].  The
    counter is incremented in place.  [resume] stands for the last two
    lines: what follows the run command, that is [checkContinuationStatus]
    on its response. *)
Definition checkAdvancedBreakpoint (resume : Session -> Outcome)
    (s : Session) (p : Pause) (k : string) (breakpoint : Breakpoint) : Outcome :=
  match advancedData breakpoint with
  | None => resolved s []
  | Some data =>
      let data := increment data in
      let s' := with_data s k breakpoint data in
      if matches p data
      then
        match logMessage data with
        | None => resolved s' [SendEvent (StoppedEvent "conditional breakpoint")]
        | Some message =>
            let log := LogMessage.evalLogMessage (fetchPrimitiveProperty p) message in
            after [SendEvent (OutputEvent log "log"); SendCommand Run] (resume s')
        end
      else after [SendCommand Run] (resume s')
  end.

(** [stopReason] of [checkContinuationStatus]. *)
Definition stopReason (p : Pause) : string :=
  if JS.startsWith (commandName (response p)) "step" then "step" else "breakpoint".

(** [checkContinuationStatus] on the response of the pause [p];
    [upcoming] holds the pauses the debuggee will reach on the next run
    commands, and nothing more is heard of it once they are used up. *)
Fixpoint checkContinuationStatus (upcoming : list Pause) (s : Session)
    (p : Pause) (checkExtraBreakpoint : bool) : Outcome :=
  if String.eqb (status (response p)) "stopped"
  then resolved s [SendEvent (TerminatedEvent "Debug exited")]
  else if String.eqb (status (response p)) "break"
  then
    if checkExtraBreakpoint
    then
      match getCurrentBreakpoint s p with
      | Destructure_undefined =>
          {| session := s; actions := [SendCommand StackGet]; settled := Rejected |}
      | Registered k breakpoint =>
          after [SendCommand StackGet]
            (checkAdvancedBreakpoint
               (fun s' =>
                  match upcoming with
                  | [] => {| session := s'; actions := []; settled := Pending |}
                  | p' :: upcoming' => checkContinuationStatus upcoming' s' p' true
                  end)
               s p k breakpoint)
      | NoBreakpoint =>
          resolved s [SendCommand StackGet; SendEvent (StoppedEvent (stopReason p))]
      end
    else resolved s [SendEvent (StoppedEvent (stopReason p))]
  else resolved s [].

(** A continuation command: the debuggee answers it with its next pause,
    if it has one. *)
Definition continuation (c : Command) (debuggee : list Pause) (s : Session)
    (k : list Pause -> Pause -> Outcome) : Outcome :=
  match debuggee with
  | [] => {| session := s; actions := [SendCommand c]; settled := Pending |}
  | p :: upcoming => after [SendCommand c] (k upcoming p)
  end.

Definition truthy_flag (b : option bool) : bool :=
  match b with Some true => true | _ => false end.

(** [configurationDoneRequest]. *)
Definition configurationDoneRequest (debuggee : list Pause) (s : Session)
    : Outcome :=
  after [SendCommand (FeatureSet "max_children" (maxChildren (config s)))]
    (continuation
       (if truthy_flag (stopOnEntry (config s)) then StepInto else Run)
       debuggee s
       (fun upcoming p =>
          if useAdvancedBreakpoint (config s)
          then checkContinuationStatus upcoming s p
                 (negb (truthy_flag (stopOnEntry (config s))))
          else checkContinuationStatus upcoming s p false)).

(** [continueRequest], [nextRequest], [stepInRequest], [stepOutRequest]. *)
Definition continueRequest (debuggee : list Pause) (s : Session) : Outcome :=
  continuation Run debuggee s
    (fun upcoming p =>
       after [SendResponse] (checkContinuationStatus upcoming s p true)).

Definition nextRequest (debuggee : list Pause) (s : Session) : Outcome :=
  continuation StepOver debuggee s
    (fun upcoming p =>
       after [SendResponse] (checkContinuationStatus upcoming s p false)).

Definition stepInRequest (debuggee : list Pause) (s : Session) : Outcome :=
  continuation StepInto debuggee s
    (fun upcoming p =>
       after [SendResponse] (checkContinuationStatus upcoming s p false)).

Definition stepOutRequest (debuggee : list Pause) (s : Session) : Outcome :=
  continuation StepOut debuggee s
    (fun upcoming p =>
       after [SendResponse] (checkContinuationStatus upcoming s p false)).

(** The last requested breakpoint that the debuggee resolved to [line]. *)
Fixpoint last_resolved (line : N) (requests : list (SourceBreakpoint * SetReply))
    : option SourceBreakpoint :=
  match requests with
  | [] => None
  | (vscodeBreakpoint, reply) :: rest =>
      match last_resolved line rest with
      | Some b => Some b
      | None =>
          match reply with
          | SetOk _ l => if l =? line then Some vscodeBreakpoint else None
          | SetFailed _ => None
          end
      end
  end.

(** The requests of the IDE that touch the session, with the replies of
    the debuggee they meet. *)
Inductive Request : Type :=
| ReqSetBreakpoints (args : SetBreakpointsArguments) (listed : list Breakpoint)
| ReqConfigurationDone (debuggee : list Pause)
| ReqContinue (debuggee : list Pause)
| ReqNext (debuggee : list Pause)
| ReqStepIn (debuggee : list Pause)
| ReqStepOut (debuggee : list Pause)
| ReqStackTrace (frames : list StackFrame)
| ReqScopes (frameId : N) (contextNames : StackFrame -> list Context)
| ReqVariables (args : VariablesArguments) (contextGet : Context -> list Property)
    (propertyGet : Property -> list Property).

(** The session after a request has been handled. *)
Definition handle (r : Request) (s : Session) : Session :=
  match r with
  | ReqSetBreakpoints args listed => fst (setBreakPointsRequest args listed s)
  | ReqConfigurationDone debuggee => session (configurationDoneRequest debuggee s)
  | ReqContinue debuggee => session (continueRequest debuggee s)
  | ReqNext debuggee => session (nextRequest debuggee s)
  | ReqStepIn debuggee => session (stepInRequest debuggee s)
  | ReqStepOut debuggee => session (stepOutRequest debuggee s)
  | ReqStackTrace frames => fst (stackTraceRequest frames s)
  | ReqScopes frameId contextNames =>
      match scopesRequest frameId contextNames s with
      | Some (s', _) => s'
      | None => s
      end
  | ReqVariables args contextGet propertyGet =>
      fst (variablesRequest args contextGet propertyGet s)
  end.

End Handlers.

(** *** The handle tables over the life of a session *)

(** Every handle stored in the table lies below the counter. *)
Definition below {A : Type} (c : N) (t : gmap N A) : Prop :=
  forall h, is_Some (t !! h) -> h < c.

(** From the counter [c] and table [t] to [c'] and [t']: the counter does
    not go down, every entry stays, and a handle that is new in [t'] was
    drawn from the counter in between. *)
Definition table_grows {A : Type} (c : N) (t : gmap N A) (c' : N) (t' : gmap N A)
    : Prop :=
  c <= c' /\
  (forall h x, t !! h = Some x -> t' !! h = Some x) /\
  (forall h, t !! h = None -> is_Some (t' !! h) -> c <= h < c').

Definition handles_below_counters (s : Session) : Prop :=
  below (stackFrameIdCounter s) (stackFrames s) /\
  below (variableReferenceCounter s) (contexts s) /\
  below (variableReferenceCounter s) (objectProperties s).

Definition grows (s s' : Session) : Prop :=
  table_grows (stackFrameIdCounter s) (stackFrames s)
              (stackFrameIdCounter s') (stackFrames s') /\
  table_grows (variableReferenceCounter s) (contexts s)
              (variableReferenceCounter s') (contexts s') /\
  table_grows (variableReferenceCounter s) (objectProperties s)
              (variableReferenceCounter s') (objectProperties s').

(** The handle tables and their counters are the same in both sessions. *)
Definition same_tables (s s' : Session) : Prop :=
  stackFrameIdCounter s' = stackFrameIdCounter s /\
  stackFrames s' = stackFrames s /\
  variableReferenceCounter s' = variableReferenceCounter s /\
  contexts s' = contexts s /\
  objectProperties s' = objectProperties s.

(** Every record of the registry carries advanced data. *)
Definition registry_advanced (s : Session) : Prop :=
  map_Forall (fun _ breakpoint => is_Some (advancedData breakpoint)) (breakpoints s).

End Adapter.

(* ===================================================================== *)
(** ** Sample sessions *)
(* ===================================================================== *)

Module Sample.

Import Dbgp Adapter.

(** A path conversion between client paths and [file:///] URIs. *)
Definition path2uri (p : string) : string := "file:///" ++ p.

Definition uri2path (u : string) : string :=
  match HitCondition.strip_prefix "file:///" u with
  | Some p => p
  | None => u
  end.

Definition demo : string := "c:\demo\demo.ahk".

Definition args_entry_advanced : LaunchRequestArguments :=
  {| stopOnEntry := Some true; maxChildren := 10000; useAdvancedBreakpoint := true |}.

Definition args_run_advanced : LaunchRequestArguments :=
  {| stopOnEntry := Some false; maxChildren := 10000; useAdvancedBreakpoint := true |}.

Definition plain_breakpoint (l : N) : SourceBreakpoint :=
  {| sb_line := l; sb_condition := None; sb_hitCondition := None;
     sb_logMessage := None |}.

Definition log_point (l : N) (message : string) : SourceBreakpoint :=
  {| sb_line := l; sb_condition := None; sb_hitCondition := None;
     sb_logMessage := Some message |}.

Definition listed_at (l : N) : Breakpoint :=
  {| fileUri := path2uri demo; line := l; advancedData := None |}.

Definition fetch_x (name : string) : option string :=
  if String.eqb name "x" then Some "42" else None.

(** A pause at line [l] of the demo script after the command [command]. *)
Definition break_at (command : string) (l : N) : Pause :=
  {| response := {| status := "break"; commandName := command |};
     stack := Some [ {| sf_fileUri := path2uri demo; sf_line := l; sf_name := "demo()" |} ];
     evalCondition := fun _ => true;
     fetchPrimitiveProperty := fetch_x |}.

Definition set_request (bs : list (SourceBreakpoint * SetReply))
    : SetBreakpointsArguments :=
  {| source_path := Some demo; requested := Some bs |}.

(** The session once the IDE has set one breakpoint on line 5. *)
Definition with_breakpoint (args : LaunchRequestArguments) (b : SourceBreakpoint)
    : Session :=
  fst (setBreakPointsRequest path2uri uri2path
         (set_request [(b, SetOk 1 5)]) [] (initial args)).

(** One continue request that breaks on line 5. *)
Definition hit (s : Session) : Session :=
  session (continueRequest uri2path HitCondition.safeEval_js [break_at "run" 5] s).

(** The session once the breakpoint of line 5 has been hit three times. *)
Definition hit_three_times : Session :=
  hit (hit (hit (with_breakpoint args_run_advanced (plain_breakpoint 5)))).

(** The record of line 5 with the given advanced data. *)
Definition record (data : AdvancedData) : Breakpoint :=
  {| fileUri := path2uri demo; line := 5; advancedData := Some data |}.

Definition data_both : AdvancedData :=
  {| counter := 3; condition := Some "x > 1"; hitCondition := Some "%3";
     logMessage := None |}.

Definition data_log : AdvancedData :=
  {| counter := 0; condition := None; hitCondition := None;
     logMessage := Some "x={x}" |}.

Definition data_malformed : AdvancedData :=
  {| counter := 0; condition := None; hitCondition := Some ">> 3";
     logMessage := None |}.

(** Nothing more is heard of the debuggee after the run command. *)
Definition silence (s : Session) : Outcome :=
  {| session := s; actions := []; settled := Pending |}.

(** The path of the demo script as an IDE may send it, with capitals. *)
Definition demo_capitals : string := "C:\Demo\demo.ahk".

(** The counter of the record of line 5 after the IDE has set the plain
    breakpoint of line 5 again for [path], the debuggee listing no
    breakpoint. *)
Definition counter_after_reset (path : string) : option N :=
  match breakpoints
          (fst (setBreakPointsRequest path2uri uri2path
                  {| source_path := Some path;
                     requested := Some [(plain_breakpoint 5, SetOk 2 5)] |}
                  [] hit_three_times)) !! key demo 5 with
  | Some b => option_map counter (advancedData b)
  | None => None
  end.

Definition frame_demo : StackFrame :=
  {| sf_fileUri := path2uri demo; sf_line := 5; sf_name := "demo()" |}.

Definition context_local : Context := {| ctx_id := 0; ctx_name := "Local" |}.

Definition property_obj : Property :=
  {| p_name := "obj"; p_type := "object"; p_displayValue := "Object";
     p_isIndex := false; p_index := None; p_isArray := false;
     p_maxIndex := None |}.

Definition scopes_of_frame (_ : StackFrame) : list Context := [context_local].

Definition variables_of_context (_ : Context) : list Property := [property_obj].

Definition children_of (_ : Property) : list Property := [].

Definition all_variables (reference : N) : VariablesArguments :=
  {| variablesReference := reference; filter := None; start := None; count := None |}.

(** A stack trace and a scopes request at a first stop, then a continue
    request that ends in a second stop, on line 7 where no breakpoint is
    registered. *)
Definition at_first_stop : Session :=
  handle path2uri uri2path HitCondition.safeEval_js
    (ReqScopes 1 scopes_of_frame)
    (handle path2uri uri2path HitCondition.safeEval_js
       (ReqStackTrace [frame_demo]) (initial args_run_advanced)).

Definition second_stop : Outcome :=
  continueRequest uri2path HitCondition.safeEval_js [break_at "run" 7] at_first_stop.

End Sample.

(* ===================================================================== *)
(** ** Sessions over time, and what the handlers are measured against *)
(* ===================================================================== *)

Module Lifetime.

Import Dbgp Adapter.

Section Reachable.

Variables (convertClientPathToDebugger convertDebuggerPathToClient : string -> string).
Variable safeEval : string -> option bool.

(** The sessions that requests can lead to from the start. *)
Inductive reachable : Session -> Prop :=
| reachable_initial (args : LaunchRequestArguments) : reachable (initial args)
| reachable_handle (r : Request) (s : Session) :
    reachable s ->
    reachable (handle convertClientPathToDebugger convertDebuggerPathToClient
                 safeEval r s).

End Reachable.

(** The counters are positive and no table holds the handle 0. *)
Definition handles_positive (s : Session) : Prop :=
  0 < stackFrameIdCounter s /\
  0 < variableReferenceCounter s /\
  stackFrames s !! 0 = None /\
  contexts s !! 0 = None /\
  objectProperties s !! 0 = None.

(** No variables reference names both a context and an object property. *)
Definition tables_disjoint (s : Session) : Prop :=
  forall h, is_Some (contexts s !! h) -> objectProperties s !! h = None.

(** Every key of the registry is in lower case. *)
Definition registry_lowercase (reg : gmap string Breakpoint) : Prop :=
  forall k b, reg !! k = Some b -> JS.toLowerCase k = k.

(** From [d] to [d']: the same advanced data but for a counter that did
    not go down. *)
Definition counted (d d' : AdvancedData) : Prop :=
  condition d' = condition d /\
  hitCondition d' = hitCondition d /\
  logMessage d' = logMessage d /\
  counter d <= counter d'.

(** From [reg] to [reg']: the same keys and the same records but for
    counters that did not go down. *)
Definition counters_only (reg reg' : gmap string Breakpoint) : Prop :=
  forall k,
    match reg !! k, reg' !! k with
    | None, None => True
    | Some b, Some b' =>
        fileUri b' = fileUri b /\ line b' = line b /\
        match advancedData b, advancedData b' with
        | None, None => True
        | Some d, Some d' => counted d d'
        | _, _ => False
        end
    | _, _ => False
    end.

(** A stopped or terminated notification. *)
Definition terminal (a : Action) : bool :=
  match a with
  | SendEvent (StoppedEvent _) => true
  | SendEvent (TerminatedEvent _) => true
  | _ => false
  end.

(** No action follows a stopped or terminated notification. *)
Fixpoint final_only (acts : list Action) : bool :=
  match acts with
  | [] => true
  | a :: rest =>
      if terminal a then match rest with [] => true | _ :: _ => false end
      else final_only rest
  end.

(** The responses among the actions. *)
Definition is_response (a : Action) : bool :=
  match a with
  | SendResponse => true
  | _ => false
  end.

Definition responses (acts : list Action) : nat :=
  length (List.filter is_response acts).

(** The name a variable is shown under. *)
Definition display_name (property : Property) : string :=
  if p_isIndex property
  then match p_index property with
       | Some i => JS.String_of_N i
       | None => "undefined"
       end
  else p_name property.

(** The properties a variables request shows, in the words of the
    protocol: all of them without a filter, the named ones under
    ["named"], and under ["indexed"] the indexed ones whose index lies in
    the window from [start + 1] to [start + count]. *)
Definition shown (args : VariablesArguments) (property : Property) : bool :=
  match filter args with
  | Some f =>
      if String.eqb f "named" then negb (p_isIndex property)
      else if String.eqb f "indexed" then
        p_isIndex property &&
        match p_index property, start args, count args with
        | Some i, Some st, Some ct => (st + 1 <=? i) && (i <=? st + ct)
        | _, _, _ => false
        end
      else true
  | None => true
  end.

(** A variable shows a property: name, type and display value. *)
Definition shows (property : Property) (v : DapVariable) : Prop :=
  v_name v = display_name property /\
  v_type v = p_type property /\
  v_value v = p_displayValue property.



End Lifetime.

(** ** Hit conditions, as a grammar and as comparisons *)

Module HitGrammar.

Import HitCondition.

Fixpoint all_space (s : string) : bool :=
  match s with
  | EmptyString => true
  | String c s' => is_space c && all_space s'
  end.

(** The text of the operator group, empty when it takes no part. *)
Definition operator_text (operator : option string) : string :=
  match operator with
  | Some op => op
  | None => EmptyString
  end.

Definition is_operator (operator : option string) : Prop :=
  match operator with
  | Some op => In op operators
  | None => True
  end.

(** What a hit condition asks of the counter [c], by operator, for the
    number [m]. *)
Definition asks (operator : option string) (c m : N) : bool :=
  match operator with
  | None => m <=? c
  | Some op =>
      if String.eqb op "<=" then c <=? m
      else if String.eqb op "<" then c <? m
      else if String.eqb op ">=" then m <=? c
      else if String.eqb op ">" then m <? c
      else if String.eqb op "==" then c =? m
      else if String.eqb op "=" then c =? m
      else if String.eqb op "%" then negb (m =? 0) && (c mod m =? 0)
      else false
  end.

End HitGrammar.

(** ** The expressions of a log message *)

Module Expressions.

Import LogMessage.

Fixpoint single_line (s : string) : bool :=
  match s with
  | EmptyString => true
  | String c s' => negb (is_line_terminator c) && single_line s'
  end.

(** What every expression handed to [fetchPrimitiveProperty] is: not
    empty, on one line, and without a backslash at its end. *)
Definition well_formed (e : string) : Prop :=
  e <> EmptyString /\ single_line e = true /\ escaped (prev_after None e) = false.

End Expressions.

(* ===================================================================== *)
(** ** [InstanceOf] of the primitive library *)
(* ===================================================================== *)

Module InstanceOf.

Import Library.

Section InstanceOf.

Variables (number objectProperty : Type).

(** The fields [fullName] and [address] of an object property, the test
    [===] on addresses, and the reply of [fetchProperty] for a name. *)
Variable fullName : objectProperty -> string.
Variables (address_type : Type) (address : objectProperty -> address_type).
Variable same_address : address_type -> address_type -> bool.
Variable fetchProperty : string -> EvaluatedValue number objectProperty.

(** [Boolean(x)] for an object [x]: every object is truthy. *)
Definition Boolean_of_object : bool := true.

(** [instanceOf].  The recursive call of the last line is not awaited:
    its value is a promise, an object, and [Boolean] of it is [true]
    whatever the promise settles to. *)
Definition instanceOf (object superClass : EvaluatedValue number objectProperty)
    : bool :=
  match object with
  | VObject o =>
      match superClass with
      | VObject sc =>
          match fetchProperty (fullName o ++ ".base") with
          | VObject baseClass =>
              if same_address (address baseClass) (address sc) then true
              else Boolean_of_object
          | _ => false
          end
      | _ => false
      end
  | _ => false
  end.

End InstanceOf.

End InstanceOf.

(* ===================================================================== *)
(** ** Further sample values *)
(* ===================================================================== *)

Module Cases.

Import Dbgp Adapter Sample.


(** The variable shown for [property_obj] after the first stop. *)
Definition shown_obj : DapVariable :=
  {| v_name := "obj"; v_type := "object"; v_value := "Object";
     v_variablesReference := 2; v_indexedVariables := None;
     v_namedVariables := None |}.

(** A second script, with a breakpoint on its line 7. *)
Definition other : string := "d:\other.ahk".

Definition with_other : Session :=
  fst (setBreakPointsRequest path2uri uri2path
         {| source_path := Some other;
            requested := Some [(plain_breakpoint 7, SetOk 3 7)] |}
         [] (initial args_run_advanced)).

Definition args_plain : LaunchRequestArguments :=
  {| stopOnEntry := Some false; maxChildren := 10000; useAdvancedBreakpoint := false |}.

(** No property resolves. *)
Definition fetch_nothing (_ : string) : option string := None.

End Cases.


(* ===================================================================== *)
(** ** Properties of the primitive library *)
(* ===================================================================== *)

(** C10: [IsSet] and [IsUndefined] are registered with one and the same
    function, in both library versions, and that function returns [true]
    exactly when its argument is [undefined]; on every string, number and
    object property it returns [false]. *)
Theorem isSet_is_isUndefined (number objectProperty : Type) :
  let isSet := Library.isSet number objectProperty in
  let v1 := Library.library_for_v1 number objectProperty in
  let v2 := Library.library_for_v2 number objectProperty in
  Library.registered number objectProperty "IsSet" v1 = [isSet] /\
  Library.registered number objectProperty "IsUndefined" v1 = [isSet] /\
  Library.registered number objectProperty "IsSet" v2 = [isSet] /\
  Library.registered number objectProperty "IsUndefined" v2 = [isSet] /\
  (forall v : Library.EvaluatedValue number objectProperty,
      isSet v = true <-> v = Library.VUndefined) /\
  (forall s, isSet (Library.VString s) = false) /\
  (forall n, isSet (Library.VNumber n) = false) /\
  (forall o, isSet (Library.VObject o) = false).
Proof.
  cbv zeta. repeat split; try reflexivity.
  - destruct v; simpl; intros H; try reflexivity; discriminate H.
  - intros ->. reflexivity.
Qed.

(* ===================================================================== *)
(** ** Properties of the advanced-breakpoint evaluation *)
(* ===================================================================== *)

Section EvaluationFacts.

Import Dbgp Adapter.

Variable safeEval : string -> option bool.

Lemma truthy_false_inv (v : option string) :
  JS.truthy v = false -> v = None \/ v = Some "".
Proof. destruct v as [[|c v]|]; simpl; intros H; auto; discriminate H. Qed.

Lemma conditionResult_absent (p : Pause) (c : option string) :
  JS.truthy c = false -> conditionResult p c = false.
Proof. unfold conditionResult. intros ->. reflexivity. Qed.

Lemma hitConditionResult_absent (n : N) (h : option string) :
  JS.truthy h = false -> HitCondition.hitConditionResult safeEval n h = false.
Proof. intros [-> | ->]%truthy_false_inv; reflexivity. Qed.

Lemma conditionResult_present (p : Pause) (c : string) :
  JS.truthy (Some c) = true -> conditionResult p (Some c) = evalCondition p c.
Proof. unfold conditionResult. intros ->. reflexivity. Qed.

(** C7: with "present" read as the test [if (condition)] reads it (defined
    and not empty), the combined result is the conjunction of the two
    results when both are present, the result of the present one when
    exactly one is, and [true] when none is. *)
Theorem combined_condition (p : Pause) (data : AdvancedData) :
  let cr := conditionResult p (condition data) in
  let hr := HitCondition.hitConditionResult safeEval (counter data) (hitCondition data) in
  (JS.truthy (condition data) = true -> JS.truthy (hitCondition data) = true ->
     matches safeEval p data = cr && hr) /\
  (JS.truthy (condition data) = true -> JS.truthy (hitCondition data) = false ->
     matches safeEval p data = cr) /\
  (JS.truthy (condition data) = false -> JS.truthy (hitCondition data) = true ->
     matches safeEval p data = hr) /\
  (JS.truthy (condition data) = false -> JS.truthy (hitCondition data) = false ->
     matches safeEval p data = true).
Proof.
  unfold matches, matchCondition. repeat split; intros Hc Hh; rewrite Hc, Hh; simpl.
  - reflexivity.
  - rewrite (hitConditionResult_absent _ _ Hh). apply orb_false_r.
  - rewrite (conditionResult_absent _ _ Hc). reflexivity.
  - reflexivity.
Qed.

(** C8: a pass over a record that holds a log message sends no stopped
    notification of its own and always ends with the run command, whose
    response is then examined; when the combined condition holds, the
    rendered message is sent as log output just before. *)
Theorem log_point_resumes (resume : Session -> Outcome) (s : Session)
    (p : Pause) (k : string) (breakpoint : Breakpoint)
    (data : AdvancedData) (message : string) :
  advancedData breakpoint = Some data ->
  logMessage data = Some message ->
  let s' := with_data s k breakpoint (increment data) in
  let log := LogMessage.evalLogMessage (fetchPrimitiveProperty p) message in
  exists own : list Action,
    checkAdvancedBreakpoint safeEval resume s p k breakpoint = after own (resume s') /\
    own = ((if matches safeEval p (increment data)
            then [SendEvent (OutputEvent log "log")] else []) ++ [SendCommand Run])%list /\
    (forall reason, ~ In (SendEvent (StoppedEvent reason)) own).
Proof.
  intros Hdata Hlog s' log.
  exists (((if matches safeEval p (increment data)
            then [SendEvent (OutputEvent log "log")] else []) ++ [SendCommand Run])%list).
  split; [|split; [reflexivity|]].
  - unfold checkAdvancedBreakpoint. rewrite Hdata. cbn zeta.
    destruct (matches safeEval p (increment data)); [|reflexivity].
    cbn [logMessage increment]. rewrite Hlog. reflexivity.
  - intros reason. destruct (matches safeEval p (increment data)); simpl;
      intros H; repeat destruct H as [H|H]; try discriminate H; exact H.
Qed.

(** C9: a hit condition that the pattern refuses, or whose evaluation
    throws, leaves [hitConditionResult] at [false]; the pass goes on to
    the run command without any event when the hit condition is not
    empty, and it settles as what follows the run command settles. *)
Theorem malformed_hit_condition (resume : Session -> Outcome) (s : Session)
    (p : Pause) (k : string) (breakpoint : Breakpoint)
    (data : AdvancedData) (h : string) :
  advancedData breakpoint = Some data ->
  hitCondition data = Some h ->
  (HitCondition.hit_match h = None \/
   exists operator number,
     HitCondition.hit_match h = Some (operator, number) /\
     safeEval (HitCondition.hit_code (counter data + 1) operator number) = None) ->
  HitCondition.hitConditionResult safeEval (counter data + 1) (Some h) = false /\
  (h <> "" ->
   checkAdvancedBreakpoint safeEval resume s p k breakpoint
   = after [SendCommand Run] (resume (with_data s k breakpoint (increment data)))) /\
  (settled (checkAdvancedBreakpoint safeEval resume s p k breakpoint) = Resolved \/
   settled (checkAdvancedBreakpoint safeEval resume s p k breakpoint)
   = settled (resume (with_data s k breakpoint (increment data)))).
Proof.
  intros Hdata Hh Hbad.
  assert (Hres : HitCondition.hitConditionResult safeEval (counter data + 1) (Some h) = false).
  { destruct h as [|c h]; [reflexivity|]. simpl.
    destruct Hbad as [-> | (operator & number & -> & ->)]; reflexivity. }
  split; [exact Hres|split].
  - intros Hne. unfold checkAdvancedBreakpoint. rewrite Hdata. cbn zeta.
    assert (Hm : matches safeEval p (increment data) = false).
    { unfold matches, matchCondition. cbn [increment condition hitCondition counter].
      rewrite Hh, Hres. destruct h as [|c h]; [congruence|].
      cbn [JS.truthy]. rewrite andb_true_r, orb_true_r, andb_false_r.
      destruct (JS.truthy (condition data)) eqn:Hc; [reflexivity|].
      rewrite (conditionResult_absent _ _ Hc). reflexivity. }
    rewrite Hm. reflexivity.
  - unfold checkAdvancedBreakpoint. rewrite Hdata. cbn zeta.
    destruct (matches safeEval p (increment data)); [|right; reflexivity].
    destruct (logMessage (increment data)); [right|left]; reflexivity.
Qed.

End EvaluationFacts.

(* ===================================================================== *)
(** ** Decimal rendering and the evaluation of hit conditions *)
(* ===================================================================== *)

Section DecimalFacts.

Import HitCondition.

Lemma string_of_uint_digits (d : Decimal.uint) :
  all_digits (NilEmpty.string_of_uint d) = true.
Proof. induction d; simpl; auto. Qed.

Lemma String_of_N_digits (n : N) : all_digits (JS.String_of_N n) = true.
Proof. apply string_of_uint_digits. Qed.

Lemma to_uint_nonnil (n : N) : N.to_uint n <> Decimal.Nil.
Proof.
  destruct n as [|q]; simpl; [discriminate|].
  apply DecimalPos.Unsigned.to_uint_nonnil.
Qed.

Lemma unorm_to_uint (n : N) : Decimal.unorm (N.to_uint n) = N.to_uint n.
Proof.
  rewrite <- (DecimalN.Unsigned.to_of (N.to_uint n)).
  now rewrite DecimalN.Unsigned.of_to.
Qed.

(** A rendering that starts with the digit zero is the rendering of zero. *)
Lemma to_uint_leading_zero (n : N) (d : Decimal.uint) :
  N.to_uint n = Decimal.D0 d -> d = Decimal.Nil.
Proof.
  intros H. pose proof (unorm_to_uint n) as Hn. rewrite H in Hn.
  unfold Decimal.unorm in Hn. simpl in Hn.
  destruct (Decimal.nzhead d) eqn:Hz.
  all: try (exfalso; apply (DecimalFacts.nzhead_nonzero d d); rewrite Hz; exact Hn).
  congruence.
Qed.

Lemma String_of_N_inj (n m : N) : JS.String_of_N n = JS.String_of_N m -> n = m.
Proof.
  unfold JS.String_of_N. intros H.
  apply DecimalN.Unsigned.to_uint_inj.
  assert (Some (N.to_uint n) = Some (N.to_uint m)) as [= E]; [|exact E].
  rewrite <- !NilEmpty.usu. now rewrite H.
Qed.

Lemma String_of_N_cons (n : N) :
  exists c s, JS.String_of_N n = String c s /\ is_digit c = true /\ all_digits s = true.
Proof.
  pose proof (String_of_N_digits n) as Hd.
  pose proof (to_uint_nonnil n) as Hn.
  unfold JS.String_of_N in *.
  destruct (N.to_uint n); try congruence; simpl in *; eauto 10.
Qed.

Lemma numeric_literal_String_of_N (n : N) :
  numeric_literal (JS.String_of_N n) = Some n.
Proof.
  unfold JS.String_of_N.
  assert (Hdec : option_map N.of_uint
            (NilEmpty.uint_of_string (NilEmpty.string_of_uint (N.to_uint n))) = Some n).
  { rewrite NilEmpty.usu. simpl. now rewrite DecimalN.Unsigned.of_to. }
  pose proof (to_uint_nonnil n) as Hn.
  destruct (N.to_uint n) as [|d|d|d|d|d|d|d|d|d|d] eqn:E; try congruence;
    try exact Hdec.
  apply to_uint_leading_zero in E as ->. exact Hdec.
Qed.

End DecimalFacts.

Section HitConditionFacts.

Import HitCondition Dbgp Adapter.

Lemma digit_not_space (c : ascii) : is_digit c = true -> Ascii.eqb c " " = false.
Proof. destruct (Ascii.eqb_spec c " ") as [->|]; [discriminate|reflexivity]. Qed.

Lemma digits_no_space (d : string) : all_digits d = true -> no_space d = true.
Proof.
  induction d as [|c d IH]; simpl; [reflexivity|].
  intros [Hc Hd]%andb_prop. rewrite (digit_not_space c Hc), (IH Hd). reflexivity.
Qed.

Lemma split_space_token (tok rest : string) :
  no_space tok = true ->
  split_space (tok ++ String " " rest) = tok :: split_space rest.
Proof.
  induction tok as [|c tok IH]; simpl; [reflexivity|].
  intros [Hc Hd]%andb_prop. apply negb_true_iff in Hc. rewrite Hc, (IH Hd). reflexivity.
Qed.

Lemma split_space_last (tok : string) :
  no_space tok = true -> split_space tok = [tok].
Proof.
  induction tok as [|c tok IH]; simpl; [reflexivity|].
  intros [Hc Hd]%andb_prop. apply negb_true_iff in Hc. rewrite Hc, (IH Hd). reflexivity.
Qed.

Lemma split_space_digits (d rest : string) :
  all_digits d = true ->
  split_space (d ++ String " " rest) = d :: split_space rest.
Proof. intros H. apply split_space_token, digits_no_space, H. Qed.

(** The code built for the operator [%] evaluates to the test of the
    remainder. *)
Lemma safeEval_js_remainder (c : N) (number : string) (m : N) :
  all_digits number = true ->
  numeric_literal number = Some m ->
  safeEval_js (hit_code c (Some "%") number) = Some (remainder_is_zero c m).
Proof.
  intros Hdigits Hm. unfold hit_code. simpl normalise_operator. simpl String.eqb.
  cbn iota.
  change ("(" ++ JS.String_of_N c ++ " % " ++ number ++ " === 0)")
    with (String "(" (JS.String_of_N c ++
            String " " (String "%" (String " " (number ++ String " " "=== 0)"))))).
  unfold safeEval_js. cbn [split_space]. simpl (Ascii.eqb "(" " "). cbn iota.
  rewrite (split_space_digits _ _ (String_of_N_digits c)).
  cbn [split_space]. simpl (Ascii.eqb "%" " "). simpl (Ascii.eqb " " " "). cbn iota.
  rewrite (split_space_digits _ _ Hdigits). simpl (split_space "=== 0)").
  cbn iota. simpl (Ascii.eqb "(" "(" && _ && _ && _). cbn iota.
  rewrite numeric_literal_String_of_N, Hm. reflexivity.
Qed.

(** The code built for a comparison evaluates to that comparison. *)
Lemma safeEval_js_compare (c : N) (operator : option string) (number : string) (m : N) :
  In (normalise_operator operator) ["<="; "<"; ">="; ">"; "=="] ->
  all_digits number = true ->
  numeric_literal number = Some m ->
  safeEval_js (hit_code c operator number)
  = compare_op (normalise_operator operator) c m.
Proof.
  intros Hop Hdigits Hm. unfold hit_code.
  assert (Hsplit : String.eqb (normalise_operator operator) "%" = false /\
            split_space (normalise_operator operator ++ String " " number)
            = [normalise_operator operator; number]).
  { assert (Hns : no_space (normalise_operator operator) = true).
    { simpl in Hop. destruct Hop as [<-|[<-|[<-|[<-|[<-|[]]]]]]; reflexivity. }
    split.
    - simpl in Hop. destruct Hop as [<-|[<-|[<-|[<-|[<-|[]]]]]]; reflexivity.
    - rewrite (split_space_token _ _ Hns).
      rewrite (split_space_last _ (digits_no_space _ Hdigits)). reflexivity. }
  destruct Hsplit as [-> Hsplit].
  change (JS.String_of_N c ++ " " ++ normalise_operator operator ++ " " ++ number)
    with (JS.String_of_N c ++ String " " (normalise_operator operator ++ String " " number)).
  unfold safeEval_js.
  rewrite (split_space_digits _ _ (String_of_N_digits c)), Hsplit.
  rewrite numeric_literal_String_of_N, Hm. reflexivity.
Qed.

Lemma match_number_digits (s number : string) :
  match_number s = Some number -> all_digits number = true /\ number <> "".
Proof.
  unfold match_number. destruct (skip_spaces s) as [|c d]; [discriminate|].
  destruct (all_digits (String c d)) eqn:E; [|discriminate].
  intros [= <-]. split; [exact E|discriminate].
Qed.

Lemma try_operators_groups (ops : list string) (s : string)
    (operator : option string) (number : string) :
  try_operators ops s = Some (operator, number) ->
  (exists op, operator = Some op /\ In op ops) /\
  all_digits number = true /\ number <> "".
Proof.
  induction ops as [|op ops IH]; cbn [try_operators]; [discriminate|].
  assert (Hrest : try_operators ops s = Some (operator, number) ->
            (exists op0, operator = Some op0 /\ In op0 (op :: ops)) /\
            all_digits number = true /\ number <> "").
  { intros H. destruct (IH H) as ((op0 & -> & Hin) & Hd). split; [|exact Hd].
    exists op0. split; [reflexivity|right; exact Hin]. }
  destruct (strip_prefix op s) as [rest|]; [|exact Hrest].
  destruct (match_number rest) as [n|] eqn:E; [|exact Hrest].
  intros [= <- <-]. split; [|apply (match_number_digits _ _ E)].
  exists op. split; [reflexivity|left; reflexivity].
Qed.

Lemma hit_match_groups (h : string) (operator : option string) (number : string) :
  hit_match h = Some (operator, number) ->
  (operator = None \/ exists op, operator = Some op /\ In op operators) /\
  all_digits number = true /\ number <> "".
Proof.
  unfold hit_match. destruct (try_operators operators h) as [[o n]|] eqn:E.
  - intros [= <- <-]. destruct (try_operators_groups _ _ _ _ E) as [Ho Hd].
    split; [right; exact Ho|exact Hd].
  - destruct (match_number h) as [n|] eqn:E'; [|discriminate].
    intros [= <- <-]. split; [left; reflexivity|apply (match_number_digits _ _ E')].
Qed.

Lemma uint_of_string_digits (s : string) :
  all_digits s = true -> exists d, NilEmpty.uint_of_string s = Some d.
Proof.
  induction s as [|c s IH]; [eexists; reflexivity|].
  cbn [all_digits]. intros [Hc Hs]%andb_prop. destruct (IH Hs) as [d Hd].
  cbn [NilEmpty.uint_of_string]. rewrite Hd.
  destruct c as [[] [] [] [] [] [] [] []]; try discriminate Hc; eexists; reflexivity.
Qed.

Lemma numeric_literal_digits (number : string) :
  all_digits number = true -> number <> "" ->
  exists m, numeric_literal number = Some m.
Proof.
  intros Hd Hne. destruct number as [|c s]; [congruence|]. unfold numeric_literal.
  destruct (Ascii.eqb c "0" && negb (String.eqb s "") && all_octal s); [eauto|].
  destruct (uint_of_string_digits _ Hd) as [d ->]. eexists. reflexivity.
Qed.

(** The evaluation of JavaScript never throws on the code built from a
    hit condition that the pattern accepts. *)
Lemma safeEval_js_total (c : N) (h : string) (operator : option string)
    (number : string) :
  hit_match h = Some (operator, number) ->
  exists result, safeEval_js (hit_code c operator number) = Some result.
Proof.
  intros (Hop & Hd & Hne)%hit_match_groups.
  destruct (numeric_literal_digits _ Hd Hne) as [m Hm].
  assert (Hcases : operator = Some "%" \/
                   In (normalise_operator operator) ["<="; "<"; ">="; ">"; "=="]).
  { destruct Hop as [->|(op & -> & Hin)]; [right; simpl; auto|].
    simpl in Hin.
    destruct Hin as [<-|[<-|[<-|[<-|[<-|[<-|[<-|[]]]]]]]]; simpl; auto 10. }
  destruct Hcases as [->|Hin].
  - rewrite (safeEval_js_remainder c number m Hd Hm). eauto.
  - rewrite (safeEval_js_compare c operator number m Hin Hd Hm).
    simpl in Hin. destruct Hin as [<-|[<-|[<-|[<-|[<-|[]]]]]]; eexists; reflexivity.
Qed.

(** C6: with the evaluation of JavaScript, ["%3"] matches exactly when
    the counter is a multiple of three, and on the n-th pass over a fresh
    record exactly when n is; a pass adds one to the counter and halts or
    runs on accordingly; and ["5"] gives the code of [">=5"], hence the
    same result whatever the evaluator and the counter, namely whether
    the counter is at least five. *)
Theorem hit_condition_modulo_and_default :
  (forall c : N,
     hitConditionResult safeEval_js c (Some "%3") = (c mod 3 =? 0)) /\
  (forall (p : Pause) (n : nat),
     matches safeEval_js p
       (Nat.iter n increment
          {| counter := 0; condition := None; hitCondition := Some "%3";
             logMessage := None |})
     = (N.of_nat n mod 3 =? 0)) /\
  (forall (resume : Session -> Outcome) (s : Session) (p : Pause) (k uri : string)
          (l c : N),
     let data := {| counter := c; condition := None; hitCondition := Some "%3";
                    logMessage := None |} in
     let breakpoint := {| fileUri := uri; line := l; advancedData := Some data |} in
     let s' := with_data s k breakpoint (increment data) in
     counter (increment data) = c + 1 /\
     checkAdvancedBreakpoint safeEval_js resume s p k breakpoint
     = if (c + 1) mod 3 =? 0
       then resolved s' [SendEvent (StoppedEvent "conditional breakpoint")]
       else after [SendCommand Run] (resume s')) /\
  (forall (safeEval : string -> option bool) (c : N),
     hitConditionResult safeEval c (Some "5")
     = hitConditionResult safeEval c (Some ">=5")) /\
  (forall c : N,
     hitConditionResult safeEval_js c (Some "5") = (5 <=? c)).
Proof.
  assert (H3 : forall c : N,
             hitConditionResult safeEval_js c (Some "%3") = (c mod 3 =? 0)).
  { intros c. unfold hitConditionResult.
    change (hit_match "%3") with (Some (Some "%", "3")). cbn iota beta.
    rewrite (safeEval_js_remainder c "3" 3); reflexivity. }
  split; [exact H3|]. split; [|split; [|split]].
  - intros p n.
    assert (Hiter : forall d, Nat.iter n increment d
              = {| counter := counter d + N.of_nat n; condition := condition d;
                   hitCondition := hitCondition d; logMessage := logMessage d |}).
    { induction n as [|n IH]; intros d.
      - simpl. rewrite N.add_0_r. destruct d; reflexivity.
      - rewrite Nat.iter_succ, IH. unfold increment. cbn [counter condition hitCondition logMessage].
        f_equal. lia. }
    rewrite Hiter. unfold matches, matchCondition.
    cbn [counter condition hitCondition logMessage JS.truthy conditionResult andb orb].
    rewrite H3. rewrite N.add_0_l. reflexivity.
  - intros resume s p k uri l c data breakpoint s'. split; [reflexivity|].
    unfold checkAdvancedBreakpoint. cbn [advancedData breakpoint].
    unfold matches, matchCondition.
    cbn [increment data counter condition hitCondition logMessage JS.truthy
         conditionResult andb orb].
    rewrite H3. destruct (_ =? 0); reflexivity.
  - intros safeEval c. reflexivity.
  - intros c. unfold hitConditionResult.
    change (hit_match "5") with (Some (@None string, "5")). cbn iota beta.
    rewrite (safeEval_js_compare c None "5" 5); try reflexivity.
    simpl. auto.
Qed.

End HitConditionFacts.

(* ===================================================================== *)
(** ** Properties of the continuation handling *)
(* ===================================================================== *)

Section ContinuationFacts.

Import Dbgp Adapter.

Variable convertDebuggerPathToClient : string -> string.
Variable safeEval : string -> option bool.

(** With the check for a registered breakpoint switched off, a break is
    reported at once and the session is left as it was. *)
Lemma break_without_check (upcoming : list Pause) (s : Session) (p : Pause) :
  status (response p) = "break" ->
  checkContinuationStatus convertDebuggerPathToClient safeEval upcoming s p false = resolved s [SendEvent (StoppedEvent (stopReason p))].
Proof.
  intros Hb. destruct upcoming; simpl; rewrite Hb; reflexivity.
Qed.

(** With the check switched on, a registered breakpoint goes through
    [checkAdvancedBreakpoint] after the [stack_get] command. *)
Lemma break_with_check (upcoming : list Pause) (s : Session) (p : Pause)
    (k : string) (breakpoint : Breakpoint) :
  status (response p) = "break" ->
  getCurrentBreakpoint convertDebuggerPathToClient s p = Registered k breakpoint ->
  checkContinuationStatus convertDebuggerPathToClient safeEval upcoming s p true
  = after [SendCommand StackGet]
      (checkAdvancedBreakpoint safeEval
         (fun s' =>
            match upcoming with
            | [] => {| session := s'; actions := []; settled := Pending |}
            | p' :: upcoming' => checkContinuationStatus convertDebuggerPathToClient safeEval upcoming' s' p' true
            end)
         s p k breakpoint).
Proof.
  intros Hb Hk. destruct upcoming; simpl; rewrite Hb, Hk; reflexivity.
Qed.

(** C3, as the code has it: a break at a registered breakpoint whose
    advanced data holds no condition, no hit condition and no log
    message always halts and never resumes.  With the check switched on
    the only notification is a stop for the reason "conditional
    breakpoint" and the counter goes up by one; with the check switched
    off it is a stop for the reason "step" or "breakpoint", after the
    name of the command. *)
Theorem plain_breakpoint_halts (upcoming : list Pause) (s : Session) (p : Pause)
    (k : string) (breakpoint : Breakpoint) (data : AdvancedData) :
  status (response p) = "break" ->
  getCurrentBreakpoint convertDebuggerPathToClient s p = Registered k breakpoint ->
  advancedData breakpoint = Some data ->
  condition data = None ->
  hitCondition data = None ->
  logMessage data = None ->
  checkContinuationStatus convertDebuggerPathToClient safeEval upcoming s p true
  = {| session := with_data s k breakpoint (increment data);
       actions := [SendCommand StackGet;
                   SendEvent (StoppedEvent "conditional breakpoint")];
       settled := Resolved |} /\
  checkContinuationStatus convertDebuggerPathToClient safeEval upcoming s p false
  = {| session := s;
       actions := [SendEvent (StoppedEvent (stopReason p))];
       settled := Resolved |}.
Proof.
  intros Hb Hk Hdata Hc Hh Hl. split.
  - rewrite (break_with_check _ _ _ _ _ Hb Hk).
    unfold checkAdvancedBreakpoint. rewrite Hdata. cbn zeta.
    unfold matches, matchCondition. cbn [increment condition hitCondition logMessage].
    rewrite Hc, Hh, Hl. reflexivity.
  - apply (break_without_check _ _ _ Hb).
Qed.

(** C1, as the code has it: with [stopOnEntry] and
    [useAdvancedBreakpoint] the request sends [step_into] and reports the
    break at once, for a reason that follows the name of the command; no
    [stack_get] is sent, no record is looked up or evaluated and the
    session stays as it was.  With [useAdvancedBreakpoint] and without
    [stopOnEntry] the request sends [run] and examines the response with
    the check for a registered breakpoint switched on. *)
Theorem configuration_done_entry (upcoming : list Pause) (s : Session) (p : Pause) :
  useAdvancedBreakpoint (config s) = true ->
  status (response p) = "break" ->
  (truthy_flag (stopOnEntry (config s)) = true ->
   configurationDoneRequest convertDebuggerPathToClient safeEval (p :: upcoming) s
   = {| session := s;
        actions := [SendCommand (FeatureSet "max_children" (maxChildren (config s)));
                    SendCommand StepInto;
                    SendEvent (StoppedEvent (stopReason p))];
        settled := Resolved |}) /\
  (truthy_flag (stopOnEntry (config s)) = false ->
   configurationDoneRequest convertDebuggerPathToClient safeEval (p :: upcoming) s
   = after [SendCommand (FeatureSet "max_children" (maxChildren (config s)));
            SendCommand Run]
       (checkContinuationStatus convertDebuggerPathToClient safeEval upcoming s p true)).
Proof.
  intros Hadv Hb. unfold configurationDoneRequest, continuation.
  rewrite Hadv. split; intros ->; cbn [negb].
  - rewrite (break_without_check _ _ _ Hb). reflexivity.
  - reflexivity.
Qed.

End ContinuationFacts.

(* ===================================================================== *)
(** ** Properties of the handle tables *)
(* ===================================================================== *)

Section TableFacts.

Import Adapter.

Context {A : Type}.
Implicit Types (t : gmap N A) (c : N).

Lemma table_grows_refl c t : table_grows c t c t.
Proof.
  split; [lia|split; [auto|]]. intros h Hn [x Hx]. congruence.
Qed.

Lemma table_grows_trans c1 t1 c2 t2 c3 t3 :
  table_grows c1 t1 c2 t2 -> table_grows c2 t2 c3 t3 -> table_grows c1 t1 c3 t3.
Proof.
  intros (Hc & Hold & Hnew) (Hc' & Hold' & Hnew').
  split; [lia|split; [auto|]].
  intros h Hn Hs. destruct (t2 !! h) as [x|] eqn:E.
  - specialize (Hnew h Hn (ex_intro _ x E)). lia.
  - specialize (Hnew' h E Hs). lia.
Qed.

Lemma table_grows_below c t c' t' :
  below c t -> table_grows c t c' t' -> below c' t'.
Proof.
  intros Hb (Hc & Hold & Hnew) h Hs. destruct (t !! h) as [x|] eqn:E.
  - specialize (Hb h (ex_intro _ x E)). lia.
  - specialize (Hnew h E Hs). lia.
Qed.

(** Drawing a handle from the counter and storing under it. *)
Lemma table_grows_insert c t (x : A) :
  below c t -> table_grows c t (c + 1) (<[c := x]> t).
Proof.
  intros Hb. split; [lia|split].
  - intros h y Hy. rewrite lookup_insert_ne; [exact Hy|].
    intros <-. specialize (Hb c (ex_intro _ y Hy)). lia.
  - intros h Hn Hs. destruct (decide (c = h)) as [<-|Hne]; [lia|].
    rewrite lookup_insert_ne in Hs by exact Hne.
    destruct Hs as [y Hy]. congruence.
Qed.

(** Drawing a handle for another table. *)
Lemma table_grows_skip c t : table_grows c t (c + 1) t.
Proof.
  split; [lia|split; [auto|]]. intros h Hn [x Hx]. congruence.
Qed.

End TableFacts.

Section HandleFacts.

Import Dbgp Adapter.

(** No handle has been issued when the session starts. *)
Lemma handles_below_initial (args : LaunchRequestArguments) :
  handles_below_counters (initial args).
Proof.
  unfold handles_below_counters, below, initial.
  cbn [stackFrames contexts objectProperties stackFrameIdCounter variableReferenceCounter].
  split; [|split]; intros h [x Hx]; rewrite lookup_empty in Hx; discriminate Hx.
Qed.

Lemma grows_refl (s : Session) : grows s s.
Proof. split; [|split]; apply table_grows_refl. Qed.

Lemma grows_trans (s1 s2 s3 : Session) : grows s1 s2 -> grows s2 s3 -> grows s1 s3.
Proof.
  intros (H1 & H2 & H3) (H1' & H2' & H3').
  split; [|split]; eapply table_grows_trans; eauto.
Qed.

Lemma grows_below (s s' : Session) :
  handles_below_counters s -> grows s s' -> handles_below_counters s'.
Proof.
  intros (H1 & H2 & H3) (G1 & G2 & G3).
  split; [|split]; eapply table_grows_below; eauto.
Qed.

Lemma same_tables_grows (s s' : Session) : same_tables s s' -> grows s s'.
Proof.
  intros (E1 & E2 & E3 & E4 & E5). unfold grows.
  rewrite E1, E2, E3, E4, E5. apply grows_refl.
Qed.

Lemma same_tables_refl (s : Session) : same_tables s s.
Proof. repeat split. Qed.

Lemma same_tables_trans (s1 s2 s3 : Session) :
  same_tables s1 s2 -> same_tables s2 s3 -> same_tables s1 s3.
Proof.
  intros (E1 & E2 & E3 & E4 & E5) (F1 & F2 & F3 & F4 & F5).
  repeat split; congruence.
Qed.

Lemma same_tables_set_breakpoints (reg : gmap string Breakpoint) (s : Session) :
  same_tables s (set_breakpoints reg s).
Proof. repeat split. Qed.

Lemma add_frame_grows (s : Session) (f : StackFrame) :
  handles_below_counters s -> grows s (fst (add_frame s f)).
Proof.
  intros (H1 & H2 & H3). split; [|split]; simpl.
  - apply (table_grows_insert _ _ _ H1).
  - apply table_grows_refl.
  - apply table_grows_refl.
Qed.

Lemma add_scope_grows (s : Session) (c : Context) :
  handles_below_counters s -> grows s (fst (add_scope s c)).
Proof.
  intros (H1 & H2 & H3). split; [apply table_grows_refl|split]; simpl.
  - apply (table_grows_insert _ _ _ H2).
  - apply table_grows_skip.
Qed.

Lemma add_variable_grows (s : Session) (q : Property) :
  handles_below_counters s -> grows s (fst (add_variable s q)).
Proof.
  intros (H1 & H2 & H3). unfold add_variable.
  destruct (String.eqb (p_type q) "object"); [|apply grows_refl].
  split; [apply table_grows_refl|split]; simpl.
  - apply table_grows_skip.
  - apply (table_grows_insert _ _ _ H3).
Qed.

Lemma stackTraceRequest_grows (frames : list StackFrame) (s : Session) :
  handles_below_counters s -> grows s (fst (stackTraceRequest frames s)).
Proof.
  revert s. induction frames as [|f frames IH]; intros s Hs; [apply grows_refl|].
  cbn [stackTraceRequest].
  pose proof (add_frame_grows s f Hs) as G.
  destruct (add_frame s f) as [s1 d] eqn:E1. cbn [fst] in G.
  specialize (IH s1 (grows_below _ _ Hs G)).
  destruct (stackTraceRequest frames s1) as [s2 ds]. cbn [fst] in *.
  eapply grows_trans; eauto.
Qed.

Lemma add_scopes_grows (cs : list Context) (s : Session) :
  handles_below_counters s -> grows s (fst (add_scopes cs s)).
Proof.
  revert s. induction cs as [|c cs IH]; intros s Hs; [apply grows_refl|].
  cbn [add_scopes].
  pose proof (add_scope_grows s c Hs) as G.
  destruct (add_scope s c) as [s1 d] eqn:E1. cbn [fst] in G.
  specialize (IH s1 (grows_below _ _ Hs G)).
  destruct (add_scopes cs s1) as [s2 ds]. cbn [fst] in *.
  eapply grows_trans; eauto.
Qed.

Lemma add_variables_grows (args : VariablesArguments) (qs : list Property) (s : Session) :
  handles_below_counters s -> grows s (fst (add_variables args qs s)).
Proof.
  revert s. induction qs as [|q qs IH]; intros s Hs; [apply grows_refl|].
  cbn [add_variables]. destruct (filtered_out args q); [apply IH, Hs|].
  pose proof (add_variable_grows s q Hs) as G.
  destruct (add_variable s q) as [s1 d] eqn:E1. cbn [fst] in G.
  specialize (IH s1 (grows_below _ _ Hs G)).
  destruct (add_variables args qs s1) as [s2 ds]. cbn [fst] in *.
  eapply grows_trans; eauto.
Qed.

Variables (convertClientPathToDebugger convertDebuggerPathToClient : string -> string).
Variable safeEval : string -> option bool.

Lemma checkAdvancedBreakpoint_tables (resume : Session -> Outcome) (s : Session)
    (p : Pause) (k : string) (b : Breakpoint) :
  (forall s', same_tables s s' -> same_tables s (session (resume s'))) ->
  same_tables s (session (checkAdvancedBreakpoint safeEval resume s p k b)).
Proof.
  intros Hres. unfold checkAdvancedBreakpoint.
  destruct (advancedData b) as [data|]; [|apply same_tables_refl].
  cbn zeta. destruct (matches _ _ _).
  - destruct (logMessage _); simpl.
    + apply Hres, same_tables_set_breakpoints.
    + apply same_tables_set_breakpoints.
  - simpl. apply Hres, same_tables_set_breakpoints.
Qed.

(** Examining the response of a continuation command, stop events
    included, leaves the handle tables and their counters as they are. *)
Lemma checkContinuationStatus_tables (upcoming : list Pause) (s : Session)
    (p : Pause) (c : bool) :
  same_tables s
    (session (checkContinuationStatus convertDebuggerPathToClient safeEval upcoming s p c)).
Proof.
  revert s p c. induction upcoming as [|p' upcoming IH]; intros s p c;
    cbn [checkContinuationStatus];
    destruct (String.eqb _ "stopped"); try apply same_tables_refl;
    destruct (String.eqb _ "break"); try apply same_tables_refl;
    destruct c; try apply same_tables_refl;
    destruct (getCurrentBreakpoint _ _ _); try apply same_tables_refl;
    cbn [after session]; apply checkAdvancedBreakpoint_tables; intros s' Hs'.
  - exact Hs'.
  - eapply same_tables_trans; [exact Hs'|apply IH].
Qed.

Lemma continuation_tables (cmd : Command) (debuggee : list Pause) (s : Session)
    (k : list Pause -> Pause -> Outcome) :
  (forall upcoming p, same_tables s (session (k upcoming p))) ->
  same_tables s (session (continuation cmd debuggee s k)).
Proof.
  intros Hk. destruct debuggee; simpl; [apply same_tables_refl|apply Hk].
Qed.

(** C4, as the code has it: nothing ever resets the handle tables.
    Whatever the request, every handle issued before it resolves after
    it to the same frame, context or property, and the stop events of a
    continuation leave tables and counters untouched; a handle that is
    new after the request was drawn from a counter that only goes up, so
    it differs from every handle issued before, and all handles stay
    below their counters. *)
Theorem handles_never_expire (r : Request) (s : Session) :
  handles_below_counters s ->
  let s' := handle convertClientPathToDebugger convertDebuggerPathToClient safeEval r s in
  handles_below_counters s' /\
  grows s s' /\
  (forall upcoming p c,
     same_tables s
       (session (checkContinuationStatus convertDebuggerPathToClient safeEval
                   upcoming s p c))).
Proof.
  intros Hs s'.
  assert (G : grows s s').
  { subst s'. destruct r; cbn [handle].
    - apply same_tables_grows. unfold setBreakPointsRequest.
      destruct (requested args); [destruct (set_all _ _ _ _)|];
        apply same_tables_set_breakpoints.
    - apply same_tables_grows. unfold configurationDoneRequest. cbn [after session].
      apply continuation_tables. intros upcoming p.
      destruct (useAdvancedBreakpoint _); apply checkContinuationStatus_tables.
    - apply same_tables_grows, continuation_tables. intros upcoming p.
      apply checkContinuationStatus_tables.
    - apply same_tables_grows, continuation_tables. intros upcoming p.
      apply checkContinuationStatus_tables.
    - apply same_tables_grows, continuation_tables. intros upcoming p.
      apply checkContinuationStatus_tables.
    - apply same_tables_grows, continuation_tables. intros upcoming p.
      apply checkContinuationStatus_tables.
    - apply stackTraceRequest_grows, Hs.
    - unfold scopesRequest. destruct (stackFrames s !! frameId); [|apply grows_refl].
      pose proof (add_scopes_grows (contextNames s0) s Hs) as G.
      destruct (add_scopes _ _). exact G.
    - apply add_variables_grows, Hs. }
  split; [exact (grows_below _ _ Hs G)|split; [exact G|]].
  intros upcoming p c. apply checkContinuationStatus_tables.
Qed.

End HandleFacts.

(* ===================================================================== *)
(** ** Properties of the breakpoint registry *)
(* ===================================================================== *)

Section RegistryFacts.

Import Dbgp Adapter.

Variables (convertClientPathToDebugger convertDebuggerPathToClient : string -> string).

Lemma append_inj_r (a b c : string) : a ++ b = a ++ c -> b = c.
Proof. induction a as [|x a IH]; simpl; [auto|]. intros [= H]. auto. Qed.

Lemma key_inj (filePath : string) (l l' : N) :
  key filePath l = key filePath l' -> l = l'.
Proof. unfold key. intros H%append_inj_r. apply String_of_N_inj, H. Qed.

Lemma clear_file_cons (filePath : string) (b : Breakpoint)
    (listed : list Breakpoint) (reg : gmap string Breakpoint) :
  clear_file convertDebuggerPathToClient filePath (b :: listed) reg
  = clear_file convertDebuggerPathToClient filePath listed
      (clear_one convertDebuggerPathToClient filePath reg b).
Proof. reflexivity. Qed.

Lemma clear_file_deleted (filePath : string) (listed : list Breakpoint)
    (reg : gmap string Breakpoint) (k : string) :
  reg !! k = None ->
  clear_file convertDebuggerPathToClient filePath listed reg !! k = None.
Proof.
  revert reg. induction listed as [|b listed IH]; intros reg Hk; [exact Hk|].
  rewrite clear_file_cons. apply IH. unfold clear_one.
  destruct (same_file _ _ _); [|exact Hk].
  destruct (decide (key (JS.toLowerCase filePath) (line b) = k)) as [<-|Hne].
  - apply lookup_delete_eq.
  - rewrite lookup_delete_ne by exact Hne. exact Hk.
Qed.

(** The clearing pass deletes the record of every line the debuggee lists
    for the file. *)
Lemma clear_file_listed (filePath : string) (listed : list Breakpoint)
    (reg : gmap string Breakpoint) (b : Breakpoint) :
  In b listed ->
  same_file convertDebuggerPathToClient filePath b = true ->
  clear_file convertDebuggerPathToClient filePath listed reg
    !! key (JS.toLowerCase filePath) (line b) = None.
Proof.
  revert reg. induction listed as [|b' listed IH]; intros reg [] Hsame.
  - subst b'. rewrite clear_file_cons. apply clear_file_deleted.
    unfold clear_one. rewrite Hsame. apply lookup_delete_eq.
  - rewrite clear_file_cons. apply IH; assumption.
Qed.

(** It leaves the record of every other line alone. *)
Lemma clear_file_unlisted (filePath : string) (listed : list Breakpoint)
    (reg : gmap string Breakpoint) (l : N) :
  (forall b, In b listed ->
     same_file convertDebuggerPathToClient filePath b = true -> line b <> l) ->
  clear_file convertDebuggerPathToClient filePath listed reg
    !! key (JS.toLowerCase filePath) l
  = reg !! key (JS.toLowerCase filePath) l.
Proof.
  revert reg. induction listed as [|b listed IH]; intros reg Hun; [reflexivity|].
  rewrite clear_file_cons.
  rewrite IH by (intros b' Hin; apply Hun; right; exact Hin).
  unfold clear_one. destruct (same_file _ _ _) eqn:Hsame; [|reflexivity].
  apply lookup_delete_ne. intros Hk%key_inj.
  exact (Hun b (or_introl eq_refl) Hsame Hk).
Qed.

(** What a requested breakpoint leaves: the counter found, the three
    fields of the request. *)
Lemma upsert_data (filePath : string) (l : N) (found : option Breakpoint)
    (v : SourceBreakpoint) :
  advancedData (snd (upsert convertClientPathToDebugger filePath l found v))
  = Some {| counter := counter_found found;
            condition := sb_condition v;
            hitCondition := sb_hitCondition v;
            logMessage := sb_logMessage v |}.
Proof.
  unfold upsert, counter_found.
  destruct found as [b|]; [destruct (advancedData b)|]; reflexivity.
Qed.

Lemma upsert_key (filePath : string) (l : N) (found : option Breakpoint)
    (v : SourceBreakpoint) :
  JS.toLowerCase filePath = filePath ->
  fst (upsert convertClientPathToDebugger filePath l found v) = key filePath l.
Proof.
  intros Hlow. unfold upsert. rewrite Hlow.
  destruct found as [b|]; [destruct (advancedData b)|]; reflexivity.
Qed.

Lemma upsert_fileUri (filePath : string) (l : N) (b : Breakpoint) (d : AdvancedData)
    (v : SourceBreakpoint) :
  advancedData b = Some d ->
  fileUri (snd (upsert convertClientPathToDebugger filePath l (Some b) v)) = fileUri b.
Proof. intros H. unfold upsert. rewrite H. reflexivity. Qed.

Lemma set_one_lookup (filePath : string) (l : N) (reg : gmap string Breakpoint)
    (v : SourceBreakpoint) (reply : SetReply) :
  JS.toLowerCase filePath = filePath ->
  fst (set_one convertClientPathToDebugger filePath reg v reply) !! key filePath l
  = match reply with
    | SetOk _ l' =>
        if l' =? l
        then Some (snd (upsert convertClientPathToDebugger filePath l
                          (reg !! key filePath l) v))
        else reg !! key filePath l
    | SetFailed _ => reg !! key filePath l
    end.
Proof.
  intros Hlow. destruct reply as [m|id l']; [reflexivity|].
  unfold set_one.
  pose proof (upsert_key filePath l' (reg !! key filePath l') v Hlow) as Hk.
  destruct (upsert _ _ _ _ _) as [k record] eqn:E. cbn [fst] in *. subst k.
  destruct (N.eqb_spec l' l) as [->|Hne].
  - rewrite lookup_insert_eq, E. reflexivity.
  - apply lookup_insert_ne. intros H%key_inj. contradiction.
Qed.

(** The record under the key of a line once the setting pass is over,
    for a file path in lower case: untouched when no request resolved to
    the line; otherwise it holds the counter found before the pass and the
    fields of the last request resolved to the line. *)
Lemma set_all_lookup (filePath : string) (l : N)
    (requests : list (SourceBreakpoint * SetReply)) :
  JS.toLowerCase filePath = filePath ->
  forall reg : gmap string Breakpoint,
    match last_resolved l requests with
    | None =>
        fst (set_all convertClientPathToDebugger filePath reg requests)
          !! key filePath l = reg !! key filePath l
    | Some v =>
        exists b',
          fst (set_all convertClientPathToDebugger filePath reg requests)
            !! key filePath l = Some b' /\
          advancedData b'
          = Some {| counter := counter_found (reg !! key filePath l);
                    condition := sb_condition v;
                    hitCondition := sb_hitCondition v;
                    logMessage := sb_logMessage v |} /\
          (forall b d, reg !! key filePath l = Some b -> advancedData b = Some d ->
             fileUri b' = fileUri b)
    end.
Proof.
  intros Hlow. induction requests as [|[v reply] rest IH]; intros reg; [reflexivity|].
  cbn [set_all last_resolved].
  pose proof (set_one_lookup filePath l reg v reply Hlow) as H1.
  destruct (set_one _ _ _ _ _) as [reg1 b1]. cbn [fst] in H1.
  specialize (IH reg1).
  destruct (set_all _ _ reg1 rest) as [reg2 bs]. cbn [fst] in *.
  assert (Hcount : counter_found (reg1 !! key filePath l)
                   = counter_found (reg !! key filePath l) /\
                   forall b d, reg !! key filePath l = Some b -> advancedData b = Some d ->
                     exists b1 d1, reg1 !! key filePath l = Some b1 /\
                       advancedData b1 = Some d1 /\ fileUri b1 = fileUri b).
  { rewrite H1. destruct reply as [m|id l']; [|destruct (l' =? l)].
    - split; [reflexivity|]. intros b d Hb Hd. eauto.
    - split.
      + unfold counter_found at 1. rewrite upsert_data. reflexivity.
      + intros b d Hb Hd. rewrite Hb. eexists _, _. split; [reflexivity|].
        split; [apply upsert_data|apply (upsert_fileUri _ _ _ _ _ Hd)].
    - split; [reflexivity|]. intros b d Hb Hd. eauto. }
  destruct Hcount as [Hcount Huri].
  destruct (last_resolved l rest) as [v'|].
  - destruct IH as (b' & Hb' & Hd' & Hu'). exists b'. split; [exact Hb'|].
    split; [rewrite Hd', Hcount; reflexivity|].
    intros b d Hb Hd. destruct (Huri b d Hb Hd) as (b1' & d1 & E1 & E2 & E3).
    rewrite <- E3. eapply Hu'; eauto.
  - rewrite IH, H1. destruct reply as [m|id l']; [reflexivity|].
    destruct (l' =? l); [|reflexivity].
    eexists. split; [reflexivity|]. split; [apply upsert_data|].
    intros b d Hb Hd. rewrite Hb. apply (upsert_fileUri _ _ _ _ _ Hd).
Qed.

Lemma clear_file_advanced (filePath : string) (listed : list Breakpoint)
    (reg : gmap string Breakpoint) :
  map_Forall (fun _ b => is_Some (advancedData b)) reg ->
  map_Forall (fun _ b => is_Some (advancedData b))
    (clear_file convertDebuggerPathToClient filePath listed reg).
Proof.
  revert reg. induction listed as [|b listed IH]; intros reg H; [exact H|].
  rewrite clear_file_cons. apply IH. unfold clear_one.
  destruct (same_file _ _ _); [apply map_Forall_delete|]; exact H.
Qed.

Lemma set_all_advanced (filePath : string)
    (requests : list (SourceBreakpoint * SetReply)) (reg : gmap string Breakpoint) :
  map_Forall (fun _ b => is_Some (advancedData b)) reg ->
  map_Forall (fun _ b => is_Some (advancedData b))
    (fst (set_all convertClientPathToDebugger filePath reg requests)).
Proof.
  revert reg. induction requests as [|[v reply] rest IH]; intros reg H; [exact H|].
  cbn [set_all].
  assert (H1 : map_Forall (fun _ b => is_Some (advancedData b))
                 (fst (set_one convertClientPathToDebugger filePath reg v reply))).
  { destruct reply as [m|id l]; [exact H|]. unfold set_one.
    pose proof (upsert_data filePath l (reg !! key filePath l) v) as Hd.
    destruct (upsert _ _ _ _ _) as [k record]. cbn [fst snd] in *.
    apply map_Forall_insert_2; [rewrite Hd; eauto|exact H]. }
  destruct (set_one _ _ _ _ _) as [reg1 b1]. cbn [fst] in H1.
  specialize (IH reg1 H1). destruct (set_all _ _ reg1 rest). exact IH.
Qed.

(** Every record that [setBreakPointsRequest] leaves carries advanced
    data, be the breakpoint a plain one or not. *)
Lemma setBreakPointsRequest_advanced (args : SetBreakpointsArguments)
    (listed : list Breakpoint) (s : Session) :
  registry_advanced s ->
  registry_advanced
    (fst (setBreakPointsRequest convertClientPathToDebugger
            convertDebuggerPathToClient args listed s)).
Proof.
  intros H. unfold registry_advanced, setBreakPointsRequest in *.
  pose proof (clear_file_advanced
                (match source_path args with Some p => p | None => "" end)
                listed _ H) as Hc.
  destruct (requested args) as [requests|]; [|exact Hc].
  pose proof (set_all_advanced
                (match source_path args with Some p => p | None => "" end)
                requests _ Hc) as Hs.
  cbv zeta. destruct (set_all _ _ _ _). exact Hs.
Qed.

(** C2, as the code has it, for a file path in lower case.  The
    request first deletes the record of every line the debuggee lists
    for the file.  So a line the debuggee lists and no request resolves
    to loses its record; a request resolved to a line that the debuggee
    lists, or that has no record, leaves a record with the counter 0;
    and a request resolved to a line that the debuggee does not list and
    that has a record with advanced data keeps its counter and file URI
    and overwrites the condition, the hit condition and the log
    message. *)
Theorem counter_after_setBreakPoints (filePath : string) (l : N)
    (listed : list Breakpoint) (requests : list (SourceBreakpoint * SetReply))
    (s : Session) :
  JS.toLowerCase filePath = filePath ->
  let args := {| source_path := Some filePath; requested := Some requests |} in
  let s' := fst (setBreakPointsRequest convertClientPathToDebugger
                   convertDebuggerPathToClient args listed s) in
  let is_listed :=
    exists b, In b listed /\
      same_file convertDebuggerPathToClient filePath b = true /\ line b = l in
  (is_listed -> last_resolved l requests = None ->
   breakpoints s' !! key filePath l = None) /\
  (forall v, last_resolved l requests = Some v ->
     is_listed \/ breakpoints s !! key filePath l = None ->
     exists b', breakpoints s' !! key filePath l = Some b' /\
       advancedData b'
       = Some {| counter := 0; condition := sb_condition v;
                 hitCondition := sb_hitCondition v;
                 logMessage := sb_logMessage v |}) /\
  (forall v b d, last_resolved l requests = Some v ->
     (forall b0, In b0 listed ->
        same_file convertDebuggerPathToClient filePath b0 = true -> line b0 <> l) ->
     breakpoints s !! key filePath l = Some b ->
     advancedData b = Some d ->
     exists b', breakpoints s' !! key filePath l = Some b' /\
       fileUri b' = fileUri b /\
       advancedData b'
       = Some {| counter := counter d; condition := sb_condition v;
                 hitCondition := sb_hitCondition v;
                 logMessage := sb_logMessage v |}).
Proof.
  intros Hlow args s' is_listed.
  assert (Hs' : breakpoints s'
            = fst (set_all convertClientPathToDebugger filePath
                     (clear_file convertDebuggerPathToClient filePath listed
                        (breakpoints s)) requests)).
  { subst s' args. unfold setBreakPointsRequest. cbn [source_path requested].
    destruct (set_all _ _ _ _). reflexivity. }
  assert (Hcleared : is_listed ->
            clear_file convertDebuggerPathToClient filePath listed (breakpoints s)
              !! key filePath l = None).
  { intros (b & Hin & Hsame & <-).
    pose proof (clear_file_listed filePath listed
                  (breakpoints s) b Hin Hsame) as H.
    rewrite Hlow in H. exact H. }
  pose proof (set_all_lookup filePath l requests Hlow
                (clear_file convertDebuggerPathToClient filePath listed (breakpoints s)))
    as Hset.
  rewrite <- Hs' in Hset.
  split; [|split].
  - intros Hl Hnone. rewrite Hnone in Hset. rewrite Hset. apply Hcleared, Hl.
  - intros v Hv Hfresh. rewrite Hv in Hset. destruct Hset as (b' & Hb' & Hd' & _).
    exists b'. split; [exact Hb'|]. rewrite Hd'.
    assert (Hnone : clear_file convertDebuggerPathToClient filePath listed (breakpoints s)
                      !! key filePath l = None).
    { destruct Hfresh as [Hl|Hn]; [apply Hcleared, Hl|apply clear_file_deleted, Hn]. }
    rewrite Hnone. reflexivity.
  - intros v b d Hv Hun Hb Hd. rewrite Hv in Hset.
    assert (Hkept : clear_file convertDebuggerPathToClient filePath listed (breakpoints s)
                      !! key filePath l = Some b).
    { pose proof (clear_file_unlisted filePath listed
                    (breakpoints s) l Hun) as H.
      rewrite Hlow in H. rewrite H. exact Hb. }
    destruct Hset as (b' & Hb' & Hd' & Hu'). exists b'. split; [exact Hb'|].
    split; [apply (Hu' b d Hkept Hd)|].
    rewrite Hd', Hkept. unfold counter_found. rewrite Hd. reflexivity.
Qed.

End RegistryFacts.

Section RegistryInvariant.

Import Dbgp Adapter.

Variables (convertClientPathToDebugger convertDebuggerPathToClient : string -> string).
Variable safeEval : string -> option bool.

Lemma registry_advanced_initial (args : LaunchRequestArguments) :
  registry_advanced (initial args).
Proof. apply map_Forall_empty. Qed.

Lemma stackTraceRequest_breakpoints (frames : list StackFrame) (s : Session) :
  breakpoints (fst (stackTraceRequest frames s)) = breakpoints s.
Proof.
  revert s. induction frames as [|f frames IH]; intros s; [reflexivity|].
  cbn [stackTraceRequest]. specialize (IH (fst (add_frame s f))).
  destruct (add_frame s f) as [s1 d] eqn:E. cbn [fst] in IH.
  destruct (stackTraceRequest frames s1). cbn [fst] in *. rewrite IH.
  injection E as <- _. reflexivity.
Qed.

Lemma add_scopes_breakpoints (cs : list Context) (s : Session) :
  breakpoints (fst (add_scopes cs s)) = breakpoints s.
Proof.
  revert s. induction cs as [|c cs IH]; intros s; [reflexivity|].
  cbn [add_scopes]. specialize (IH (fst (add_scope s c))).
  destruct (add_scope s c) as [s1 d] eqn:E. cbn [fst] in IH.
  destruct (add_scopes cs s1). cbn [fst] in *. rewrite IH.
  injection E as <- _. reflexivity.
Qed.

Lemma add_variables_breakpoints (args : VariablesArguments) (qs : list Property)
    (s : Session) :
  breakpoints (fst (add_variables args qs s)) = breakpoints s.
Proof.
  revert s. induction qs as [|q qs IH]; intros s; [reflexivity|].
  cbn [add_variables]. destruct (filtered_out args q); [apply IH|].
  specialize (IH (fst (add_variable s q))).
  assert (E : breakpoints (fst (add_variable s q)) = breakpoints s).
  { unfold add_variable. destruct (String.eqb _ _); reflexivity. }
  destruct (add_variable s q) as [s1 d]. cbn [fst] in *.
  destruct (add_variables args qs s1). cbn [fst] in *. congruence.
Qed.

Lemma checkAdvancedBreakpoint_advanced (resume : Session -> Outcome) (s : Session)
    (p : Pause) (k : string) (b : Breakpoint) :
  (forall s', registry_advanced s' -> registry_advanced (session (resume s'))) ->
  registry_advanced s ->
  registry_advanced (session (checkAdvancedBreakpoint safeEval resume s p k b)).
Proof.
  intros Hres Hs. unfold checkAdvancedBreakpoint.
  destruct (advancedData b) as [data|]; [|exact Hs]. cbn zeta.
  assert (Hs' : registry_advanced (with_data s k b (increment data))).
  { unfold registry_advanced, with_data, set_breakpoints. cbn [breakpoints].
    apply map_Forall_insert_2; [eauto|exact Hs]. }
  destruct (matches _ _ _); [destruct (logMessage _)|]; cbn [after resolved session];
    auto.
Qed.

Lemma checkContinuationStatus_advanced (upcoming : list Pause) (s : Session)
    (p : Pause) (c : bool) :
  registry_advanced s ->
  registry_advanced
    (session (checkContinuationStatus convertDebuggerPathToClient safeEval upcoming s p c)).
Proof.
  revert s p c. induction upcoming as [|p' upcoming IH]; intros s p c Hs;
    cbn [checkContinuationStatus];
    destruct (String.eqb _ "stopped"); try exact Hs;
    destruct (String.eqb _ "break"); try exact Hs;
    destruct c; try exact Hs;
    destruct (getCurrentBreakpoint _ _ _); try exact Hs;
    cbn [after session]; apply checkAdvancedBreakpoint_advanced; auto.
Qed.

(** Whatever the requests, every record of the registry carries advanced
    data: [checkAdvancedBreakpoint] never meets a record without. *)
Lemma handle_advanced (r : Request) (s : Session) :
  registry_advanced s ->
  registry_advanced
    (handle convertClientPathToDebugger convertDebuggerPathToClient safeEval r s).
Proof.
  intros Hs. destruct r; cbn [handle].
  - apply setBreakPointsRequest_advanced, Hs.
  - unfold configurationDoneRequest, continuation. cbn [after session].
    destruct debuggee; [exact Hs|]. cbn [after session].
    destruct (useAdvancedBreakpoint _); apply checkContinuationStatus_advanced, Hs.
  - unfold continueRequest, continuation. destruct debuggee; [exact Hs|].
    cbn [after session]. apply checkContinuationStatus_advanced, Hs.
  - unfold nextRequest, continuation. destruct debuggee; [exact Hs|].
    cbn [after session]. apply checkContinuationStatus_advanced, Hs.
  - unfold stepInRequest, continuation. destruct debuggee; [exact Hs|].
    cbn [after session]. apply checkContinuationStatus_advanced, Hs.
  - unfold stepOutRequest, continuation. destruct debuggee; [exact Hs|].
    cbn [after session]. apply checkContinuationStatus_advanced, Hs.
  - unfold registry_advanced. rewrite stackTraceRequest_breakpoints. exact Hs.
  - unfold scopesRequest. destruct (stackFrames s !! frameId); [|exact Hs].
    pose proof (add_scopes_breakpoints (contextNames s0) s) as E.
    destruct (add_scopes _ _). cbn [fst] in E. unfold registry_advanced. rewrite E.
    exact Hs.
  - unfold registry_advanced, variablesRequest. rewrite add_variables_breakpoints.
    exact Hs.
Qed.

End RegistryInvariant.

(* ===================================================================== *)
(** ** Properties of the log messages *)
(* ===================================================================== *)

Section LogMessageFacts.

Import LogMessage.

Lemma append_cons (x : ascii) (a b : string) : String x a ++ b = String x (a ++ b).
Proof. reflexivity. Qed.

Lemma append_assoc3 (a b c : string) : (a ++ b) ++ c = a ++ b ++ c.
Proof. induction a as [|x a IH]; [reflexivity|]. now rewrite !append_cons, IH. Qed.

Lemma append_empty_r (a : string) : a ++ "" = a.
Proof. induction a as [|x a IH]; [reflexivity|]. now rewrite append_cons, IH. Qed.

Lemma shift_empty m : shift "" m = m.
Proof. destruct m as [[[b e] a]|]; reflexivity. Qed.

Lemma shift_shift d1 d2 m : shift d1 (shift d2 m) = shift (d1 ++ d2) m.
Proof. destruct m as [[[b e] a]|]; unfold shift; [|reflexivity]. now rewrite append_assoc3. Qed.

Lemma prev_after_app prev a b : prev_after prev (a ++ b) = prev_after (prev_after prev a) b.
Proof. revert prev. induction a as [|x a IH]; intros prev; simpl; [reflexivity|]. apply IH. Qed.

(** The group and the rest rebuild the input. *)
Lemma lazy_body_sound taken prev s e a :
  lazy_body taken prev s = Some (e, a) -> s = e ++ String "}" a.
Proof.
  revert taken prev e a. induction s as [|c s IH]; intros taken prev e a; simpl; [discriminate|].
  destruct (taken && Ascii.eqb c "}" && negb (Ascii.eqb prev "\")) eqn:Hclose.
  - intros [= <- <-]. apply andb_prop in Hclose as [[_ Hc]%andb_prop _].
    apply Ascii.eqb_eq in Hc as ->. reflexivity.
  - destruct (is_line_terminator c); [discriminate|].
    destruct (lazy_body true c s) as [[e' a']|] eqn:E; [|discriminate].
    intros [= <- <-]. rewrite append_cons. f_equal. eapply IH, E.
Qed.

(** Once a code unit is taken, the group closes at least as early. *)
Lemma lazy_body_taken prev prev' s e a :
  lazy_body false prev s = Some (e, a) ->
  exists e' a', lazy_body true prev' s = Some (e', a').
Proof.
  destruct s as [|c s]; simpl; [discriminate|].
  destruct (is_line_terminator c); [discriminate|].
  destruct (lazy_body true c s) as [[e1 a1]|]; [|discriminate]. intros _.
  destruct (Ascii.eqb c "}" && negb (Ascii.eqb prev' "\")); eauto.
Qed.

(** An opening brace that finds no closing brace although one follows
    later has met a line terminator; whatever follows the line
    terminator makes no difference. *)
Lemma lazy_body_dies taken prev x e a :
  lazy_body false "{" (e ++ String "}" a) = Some (e, a) ->
  lazy_body taken prev (x ++ String "{" (e ++ String "}" a)) = None ->
  forall r, lazy_body taken prev (x ++ r) = None.
Proof.
  intros Hm. revert taken prev. induction x as [|c x IH]; intros taken prev.
  - change ("" ++ String "{" (e ++ String "}" a)) with (String "{" (e ++ String "}" a)).
    cbn [lazy_body].
    destruct (lazy_body_taken "{" "{" _ _ _ Hm) as (e' & a' & ->).
    change (Ascii.eqb "{" "}") with false. rewrite andb_false_r. cbn. discriminate.
  - rewrite append_cons. cbn [lazy_body].
    destruct (taken && Ascii.eqb c "}" && negb (Ascii.eqb prev "\")) eqn:Hc.
    + discriminate.
    + destruct (is_line_terminator c) eqn:Ht.
      * intros _ r. rewrite append_cons. cbn [lazy_body]. rewrite Hc, Ht. reflexivity.
      * destruct (lazy_body true c (x ++ _)) as [[e' a']|] eqn:E; [discriminate|].
        intros _ r. rewrite append_cons. cbn [lazy_body]. rewrite Hc, Ht, (IH true c E r).
        reflexivity.
Qed.

Lemma exec_sound prev s b e a :
  exec prev s = Some (b, e, a) ->
  s = b ++ String "{" (e ++ String "}" a) /\
  lazy_body false "{" (e ++ String "}" a) = Some (e, a).
Proof.
  revert prev b. induction s as [|c s IH]; intros prev b; simpl; [discriminate|].
  destruct (Ascii.eqb c "{" && negb (escaped prev)) eqn:Hopen.
  - destruct (lazy_body false c s) as [[e' a']|] eqn:E.
    + intros [= <- <- <-]. apply andb_prop in Hopen as [->%Ascii.eqb_eq _].
      pose proof (lazy_body_sound _ _ _ _ _ E) as ->. split; [reflexivity|exact E].
    + destruct (exec (Some c) s) as [[[b' e'] a']|] eqn:E'; [|discriminate].
      intros [= <- <- <-]. destruct (IH _ _ E') as [-> Hm]. split; [reflexivity|exact Hm].
  - destruct (exec (Some c) s) as [[[b' e'] a']|] eqn:E'; [|discriminate].
    intros [= <- <- <-]. destruct (IH _ _ E') as [-> Hm]. split; [reflexivity|exact Hm].
Qed.

(** Only the look-behind reads the code unit before the input. *)
Lemma exec_prev prev prev' s :
  escaped prev = escaped prev' -> exec prev s = exec prev' s.
Proof. intros H. destruct s as [|c s]; simpl; [reflexivity|]. now rewrite H. Qed.

(** The input before the leftmost match holds no match, whatever comes
    after it. *)
Lemma exec_before prev s b e a :
  exec prev s = Some (b, e, a) ->
  forall r, exec prev (b ++ r) = shift b (exec (prev_after prev b) r).
Proof.
  revert prev b. induction s as [|c s IH]; intros prev b; cbn [exec]; [discriminate|].
  destruct (if Ascii.eqb c "{" && negb (escaped prev) then lazy_body false c s else None)
    as [[e' a']|] eqn:Hhere.
  - intros [= <- <- <-] r. simpl. now rewrite shift_empty.
  - destruct (exec (Some c) s) as [[[b' e'] a']|] eqn:E'; [|discriminate].
    intros [= <- <- <-] r. rewrite append_cons. cbn [exec prev_after].
    assert (Hnone : (if Ascii.eqb c "{" && negb (escaped prev)
                     then lazy_body false c (b' ++ r) else None) = None).
    { destruct (Ascii.eqb c "{" && negb (escaped prev)); [|reflexivity].
      destruct (exec_sound _ _ _ _ _ E') as [-> Hm].
      apply (lazy_body_dies _ _ _ _ _ Hm Hhere). }
    rewrite Hnone, (IH _ _ E' r).
    destruct (exec (prev_after (Some c) b') r) as [[[b2 e2] a2]|]; reflexivity.
Qed.

(** A value without an opening brace holds no match either. *)
Lemma exec_absent prev v :
  absent "{" v = true ->
  forall r, exec prev (v ++ r) = shift v (exec (prev_after prev v) r).
Proof.
  revert prev. induction v as [|c v IH]; intros prev Hv r.
  - simpl. now rewrite shift_empty.
  - simpl in Hv. apply andb_prop in Hv as [Hc Hv]. apply negb_true_iff in Hc.
    rewrite append_cons. cbn [exec prev_after]. rewrite Hc. cbn [andb].
    rewrite (IH (Some c) Hv r).
    destruct (exec (prev_after (Some c) v) r) as [[[b2 e2] a2]|]; reflexivity.
Qed.

(** A value without a dollar sign stands for itself. *)
Lemma getSubstitution_absent matched before after capture v :
  absent "$" v = true ->
  getSubstitution matched before after capture Plain v = v.
Proof.
  induction v as [|c v IH]; simpl; [reflexivity|].
  intros [Hc Hv]%andb_prop. rewrite Hc, (IH Hv). reflexivity.
Qed.

Lemma plain_inv v :
  plain v = true ->
  v <> "" /\ absent "{" v = true /\ absent "$" v = true /\
  escaped (prev_after None v) = false.
Proof.
  unfold plain. intros [[[H1 H2]%andb_prop H3]%andb_prop H4]%andb_prop.
  repeat split; auto.
  - intros ->. discriminate H1.
  - now apply negb_true_iff.
Qed.

Lemma prev_after_nonempty prev v : v <> "" -> prev_after prev v = prev_after None v.
Proof. destruct v; [congruence|reflexivity]. Qed.

Lemma lazy_body_shorter taken prev s e a :
  lazy_body taken prev s = Some (e, a) -> (String.length a < String.length s)%nat.
Proof.
  revert taken prev e a. induction s as [|c s IH]; intros taken prev e a; cbn [lazy_body];
    [discriminate|].
  destruct (taken && Ascii.eqb c "}" && negb (Ascii.eqb prev "\")).
  - intros [= <- <-]. simpl. lia.
  - destruct (is_line_terminator c); [discriminate|].
    destruct (lazy_body true c s) as [[e' a']|] eqn:E; [|discriminate].
    intros [= <- <-]. specialize (IH _ _ _ _ E). simpl. lia.
Qed.

Lemma exec_shorter prev s b e a :
  exec prev s = Some (b, e, a) -> (String.length a < String.length s)%nat.
Proof.
  revert prev b. induction s as [|c s IH]; intros prev b; cbn [exec]; [discriminate|].
  destruct (if Ascii.eqb c "{" && negb (escaped prev) then lazy_body false c s else None)
    as [[e' a']|] eqn:Hhere.
  - intros [= <- <- <-].
    destruct (Ascii.eqb c "{" && negb (escaped prev)); [|discriminate].
    apply lazy_body_shorter in Hhere. simpl. lia.
  - destruct (exec (Some c) s) as [[[b' e'] a']|] eqn:E'; [|discriminate].
    intros [= <- <- <-]. specialize (IH _ _ E'). simpl. lia.
Qed.

(** The length of the input is fuel enough for all the matches. *)
Lemma matchAll_from_enough fuel fuel' prev s :
  (String.length s <= fuel)%nat -> (String.length s <= fuel')%nat ->
  matchAll_from fuel prev s = matchAll_from fuel' prev s.
Proof.
  revert fuel' prev s. induction fuel as [|fuel IH]; intros fuel' prev s H H'.
  - destruct s; [|simpl in H; lia]. destruct fuel'; reflexivity.
  - destruct fuel' as [|fuel'].
    + destruct s; [reflexivity|simpl in H'; lia].
    + cbn [matchAll_from]. destruct (exec prev s) as [[[b e] a]|] eqn:E; [|reflexivity].
      apply exec_shorter in E. f_equal. apply IH; lia.
Qed.

Section RenderingFacts.

Variable fetch : string -> option string.

Lemma render_from_enough fuel fuel' prev s :
  (String.length s <= fuel)%nat -> (String.length s <= fuel')%nat ->
  render_from fetch fuel prev s = render_from fetch fuel' prev s.
Proof.
  revert fuel' prev s. induction fuel as [|fuel IH]; intros fuel' prev s H H'.
  - destruct s; [|simpl in H; lia]. destruct fuel'; reflexivity.
  - destruct fuel' as [|fuel'].
    + destruct s; [reflexivity|simpl in H'; lia].
    + cbn [render_from]. destruct (exec prev s) as [[[b e] a]|] eqn:E; [|reflexivity].
      apply exec_shorter in E. do 2 f_equal. apply IH; lia.
Qed.

(** The replacement of the first match left, when the text [d] already
    rendered holds no match. *)
Lemma replace_first d rest q b e a v :
  (forall r, exec None (d ++ r) = shift d (exec q r)) ->
  exec q rest = Some (b, e, a) ->
  absent "$" v = true ->
  replace (d ++ rest) v = (d ++ b ++ v) ++ a.
Proof.
  intros Hd He Hv. unfold replace. rewrite Hd, He. cbn [shift].
  rewrite (getSubstitution_absent _ _ _ _ _ Hv). now rewrite !append_assoc3.
Qed.

Lemma fold_substitute fuel :
  forall d rest p q,
    escaped p = false -> escaped q = false ->
    (forall r, exec None (d ++ r) = shift d (exec q r)) ->
    (forall e, In e (matchAll_from fuel p rest) ->
       exists v, fetch e = Some v /\ plain v = true) ->
    fold_left (substitute fetch) (matchAll_from fuel p rest) (d ++ rest)
    = d ++ render_from fetch fuel p rest.
Proof.
  induction fuel as [|fuel IH]; intros d rest p q Hp Hq Hd Hplain; [reflexivity|].
  cbn [matchAll_from render_from] in *.
  destruct (exec p rest) as [[[b e] a]|] eqn:E; [|reflexivity].
  destruct (Hplain e (or_introl eq_refl)) as (v & Hv & Hpl).
  destruct (plain_inv v Hpl) as (Hne & Hbrace & Hdollar & Hlast).
  assert (Eq : exec q rest = Some (b, e, a)).
  { rewrite <- E. apply exec_prev. congruence. }
  cbn [fold_left]. unfold substitute at 2. rewrite Hv.
  destruct v as [|c v]; [congruence|].
  rewrite (replace_first d rest q b e a _ Hd Eq Hdollar).
  rewrite (IH (d ++ b ++ String c v) a (Some "}"%char) (prev_after None (String c v)));
    [now rewrite !append_assoc3|reflexivity|exact Hlast|..].
  - intros r. rewrite !append_assoc3, Hd, (exec_before _ _ _ _ _ Eq).
    rewrite (exec_absent _ _ Hbrace), (prev_after_nonempty _ _ Hne).
    rewrite !shift_shift, !append_assoc3. reflexivity.
  - intros e' He'. apply Hplain. right. exact He'.
Qed.

(** Rendering as the code does it agrees with rendering as the
    specification words it when every value fetched is plain. *)
Lemma evalLogMessage_render template :
  (forall e, In e (matchAll template) -> exists v, fetch e = Some v /\ plain v = true) ->
  evalLogMessage fetch template = render fetch template ++ LF.
Proof.
  intros Hplain. unfold evalLogMessage, render, matchAll in *.
  change template with ("" ++ template) at 3.
  rewrite (fold_substitute _ "" template None None); auto.
  intros r. now rewrite shift_empty.
Qed.

(** C5, as the code has it: when every value fetched for a segment is
    plain (not empty, without opening brace and dollar sign, not ending
    in a backslash), the rendering replaces each segment delimited by
    unescaped braces with the value fetched for its expression, leaves
    the rest (escaped braces with their backslashes included) as it is
    and appends one line feed to the result.  So ["x={x}"] with [x] at
    ["42"] gives ["x=42"] and a line feed, the same template ending in a
    line feed gives two of them, and ["\{literal\}"] comes out unchanged
    before the appended line feed. *)
Theorem log_message_rendering (template : string) :
  (forall e, In e (matchAll template) -> exists v, fetch e = Some v /\ plain v = true) ->
  evalLogMessage fetch template = render fetch template ++ LF /\
  (matchAll template = [] -> evalLogMessage fetch template = template ++ LF) /\
  evalLogMessage Sample.fetch_x "x={x}" = "x=42" ++ LF /\
  evalLogMessage Sample.fetch_x ("x={x}" ++ LF) = "x=42" ++ LF ++ LF /\
  evalLogMessage fetch "\{literal\}" = "\{literal\}" ++ LF.
Proof.
  intros Hplain. split; [apply evalLogMessage_render, Hplain|].
  split; [|repeat split].
  intros Hnone. unfold evalLogMessage. rewrite Hnone. reflexivity.
Qed.

(** What the hypothesis on the values keeps out: a segment whose
    expression is not resolved stays, and the value of the next segment
    takes its place. *)
Lemma unresolved_segment_takes_next_value :
  evalLogMessage (fun name => if String.eqb name "b" then Some "1" else None) "{a}{b}"
  = "1{b}" ++ LF.
Proof. reflexivity. Qed.

End RenderingFacts.

End LogMessageFacts.

(* ===================================================================== *)
(** ** Worked cases *)
(* ===================================================================== *)

Section WorkedCases.

Import Dbgp Adapter HitCondition LogMessage Sample.

(** With [stopOnEntry] and [useAdvancedBreakpoint], and a log point
    registered on the landing line: the break after [step_into] is
    reported at once; no [stack_get] is sent, the log point is not
    evaluated (its counter stays 0, no log output, no run command). *)
Lemma configuration_done_skips_check :
  let s := with_breakpoint args_entry_advanced (log_point 5 "x={x}") in
  let p := break_at "step_into" 5 in
  let o := configurationDoneRequest uri2path safeEval_js [p] s in
  getCurrentBreakpoint uri2path s p = Registered (key demo 5) (record data_log) /\
  actions o = [SendCommand (FeatureSet "max_children" 10000); SendCommand StepInto;
               SendEvent (StoppedEvent "step")] /\
  ~ In (SendCommand StackGet) (actions o) /\
  breakpoints (session o) !! key demo 5 = Some (record data_log).
Proof.
  cbv zeta. split; [vm_compute; reflexivity|]. split; [vm_compute; reflexivity|].
  split; [|vm_compute; reflexivity].
  vm_compute. intros [H|[H|[H|[]]]]; discriminate H.
Qed.

Lemma configuration_done_entry_witness :
  useAdvancedBreakpoint (config (with_breakpoint args_entry_advanced (log_point 5 "x={x}"))) = true /\
  status (response (break_at "step_into" 5)) = "break" /\
  configurationDoneRequest uri2path safeEval_js [break_at "step_into" 5]
    (with_breakpoint args_entry_advanced (log_point 5 "x={x}"))
  = {| session := with_breakpoint args_entry_advanced (log_point 5 "x={x}");
       actions := [SendCommand (FeatureSet "max_children" 10000); SendCommand StepInto;
                   SendEvent (StoppedEvent (stopReason (break_at "step_into" 5)))];
       settled := Resolved |}.
Proof.
  split; [reflexivity|]. split; [reflexivity|].
  apply (proj1 (configuration_done_entry uri2path safeEval_js []
                  (with_breakpoint args_entry_advanced (log_point 5 "x={x}"))
                  (break_at "step_into" 5) eq_refl eq_refl)).
  reflexivity.
Defined.

(** The breakpoint of line 5 has been hit three times; the IDE sets it
    again while the debuggee lists it: its counter is back at 0. *)
Lemma reapplying_resets_counter :
  let s' := fst (setBreakPointsRequest path2uri uri2path
                   (set_request [(plain_breakpoint 5, SetOk 2 5)])
                   [listed_at 5] hit_three_times) in
  (exists b d, breakpoints hit_three_times !! key demo 5 = Some b /\
               advancedData b = Some d /\ counter d = 3) /\
  (exists b d, breakpoints s' !! key demo 5 = Some b /\
               advancedData b = Some d /\ counter d = 0).
Proof.
  cbv zeta. split; eexists _, _; (split; [vm_compute; reflexivity|]);
    split; reflexivity.
Qed.

(** The record of line 5 outlives the clearing pass when the debuggee
    lists nothing.  Set again under the path in lower case, the
    breakpoint keeps its counter; under the path with capitals the record
    is not found and a new one replaces it. *)
Lemma capital_path_misses_record :
  counter_after_reset demo = Some 3 /\ counter_after_reset demo_capitals = Some 0.
Proof. split; vm_compute; reflexivity. Qed.

Lemma counter_after_setBreakPoints_witness :
  JS.toLowerCase demo = demo /\
  exists b',
    breakpoints (fst (setBreakPointsRequest path2uri uri2path
                        {| source_path := Some demo;
                           requested := Some [(log_point 5 "x={x}", SetOk 2 5)] |}
                        [listed_at 5] hit_three_times)) !! key demo 5 = Some b' /\
    advancedData b'
    = Some {| counter := 0; condition := None; hitCondition := None;
              logMessage := Some "x={x}" |}.
Proof.
  split; [reflexivity|].
  apply (proj1 (proj2 (counter_after_setBreakPoints path2uri uri2path demo 5
           [listed_at 5] [(log_point 5 "x={x}", SetOk 2 5)] hit_three_times eq_refl))
           (log_point 5 "x={x}") eq_refl).
  left. exists (listed_at 5). split; [left; reflexivity|split; reflexivity].
Defined.

(** A breakpoint set without condition, hit condition and log message,
    reached by a continue request: the stop is reported for the reason
    "conditional breakpoint", not "breakpoint". *)
Lemma plain_breakpoint_reason :
  let s := with_breakpoint args_run_advanced (plain_breakpoint 5) in
  let o := continueRequest uri2path safeEval_js [break_at "run" 5] s in
  actions o = [SendCommand Run; SendResponse; SendCommand StackGet;
               SendEvent (StoppedEvent "conditional breakpoint")] /\
  ~ In (SendEvent (StoppedEvent "breakpoint")) (actions o).
Proof.
  cbv zeta. split; [vm_compute; reflexivity|].
  vm_compute. intros [H|[H|[H|[H|[]]]]]; discriminate H.
Qed.

Lemma plain_breakpoint_halts_witness :
  checkContinuationStatus uri2path safeEval_js []
    (with_breakpoint args_run_advanced (plain_breakpoint 5)) (break_at "run" 5) true
  = {| session :=
         with_data (with_breakpoint args_run_advanced (plain_breakpoint 5))
           (key demo 5)
           (record {| counter := 0; condition := None; hitCondition := None;
                      logMessage := None |})
           {| counter := 1; condition := None; hitCondition := None;
              logMessage := None |};
       actions := [SendCommand StackGet;
                   SendEvent (StoppedEvent "conditional breakpoint")];
       settled := Resolved |}.
Proof.
  apply (proj1 (plain_breakpoint_halts uri2path safeEval_js []
                  (with_breakpoint args_run_advanced (plain_breakpoint 5))
                  (break_at "run" 5) (key demo 5)
                  (record {| counter := 0; condition := None; hitCondition := None;
                             logMessage := None |})
                  {| counter := 0; condition := None; hitCondition := None;
                     logMessage := None |}
                  eq_refl eq_refl eq_refl eq_refl eq_refl eq_refl)).
Defined.

(** The frame handle 1 and the scope handle 1 were issued at a first
    stop; after the stop event of the next break both still resolve. *)
Lemma handle_survives_stop :
  stackFrames at_first_stop !! 1 = Some frame_demo /\
  contexts at_first_stop !! 1 = Some context_local /\
  In (SendEvent (StoppedEvent "breakpoint")) (actions second_stop) /\
  stackFrames (session second_stop) !! 1 = Some frame_demo /\
  contexts (session second_stop) !! 1 = Some context_local /\
  (exists s scopes,
     scopesRequest 1 scopes_of_frame (session second_stop) = Some (s, scopes) /\
     length scopes = 1%nat) /\
  length (snd (variablesRequest (all_variables 1) variables_of_context children_of
                 (session second_stop))) = 1%nat.
Proof.
  split; [vm_compute; reflexivity|]. split; [vm_compute; reflexivity|].
  split; [vm_compute; auto|]. split; [vm_compute; reflexivity|].
  split; [vm_compute; reflexivity|]. split; [|vm_compute; reflexivity].
  eexists _, _. split; [vm_compute; reflexivity|reflexivity].
Qed.

Lemma handles_never_expire_witness :
  handles_below_counters (initial args_run_advanced) /\
  handles_below_counters
    (handle path2uri uri2path safeEval_js (ReqStackTrace [frame_demo])
       (initial args_run_advanced)) /\
  grows (initial args_run_advanced)
    (handle path2uri uri2path safeEval_js (ReqStackTrace [frame_demo])
       (initial args_run_advanced)).
Proof.
  pose proof (handles_below_initial args_run_advanced) as H.
  split; [exact H|].
  pose proof (handles_never_expire path2uri uri2path safeEval_js
                (ReqStackTrace [frame_demo]) (initial args_run_advanced) H) as W.
  cbv zeta in W. split; [exact (proj1 W)|exact (proj1 (proj2 W))].
Defined.

(** A template that ends in a line feed is rendered with two of them,
    and one that ends in a backslash and the letter n keeps both and
    gains a line feed: neither result is the template with [{x}]
    replaced and nothing else. *)
Lemma template_newline_doubled :
  evalLogMessage fetch_x ("x={x}" ++ LF) = "x=42" ++ LF ++ LF /\
  evalLogMessage fetch_x ("x={x}" ++ LF) <> "x=42" ++ LF /\
  evalLogMessage fetch_x "x={x}\n" <> "x=42\n".
Proof.
  split; [reflexivity|]. split; vm_compute; intros H; discriminate H.
Qed.

Lemma log_message_rendering_witness :
  (forall e, In e (matchAll "x={x}") -> exists v, fetch_x e = Some v /\ plain v = true) /\
  evalLogMessage fetch_x "x={x}" = render fetch_x "x={x}" ++ LF.
Proof.
  assert (H : forall e, In e (matchAll "x={x}") ->
                exists v, fetch_x e = Some v /\ plain v = true).
  { intros e [<-|[]]. exists "42". split; reflexivity. }
  split; [exact H|]. exact (proj1 (log_message_rendering fetch_x "x={x}" H)).
Defined.

Lemma combined_condition_witness :
  JS.truthy (condition data_both) = true /\
  JS.truthy (hitCondition data_both) = true /\
  matches safeEval_js (break_at "run" 5) data_both
  = conditionResult (break_at "run" 5) (condition data_both)
    && hitConditionResult safeEval_js (counter data_both) (hitCondition data_both).
Proof.
  split; [reflexivity|]. split; [reflexivity|].
  apply (proj1 (combined_condition safeEval_js (break_at "run" 5) data_both));
    reflexivity.
Defined.

Lemma log_point_resumes_witness :
  exists own : list Action,
    checkAdvancedBreakpoint safeEval_js silence
      (with_breakpoint args_run_advanced (log_point 5 "x={x}"))
      (break_at "run" 5) (key demo 5) (record data_log)
    = after own
        (silence (with_data (with_breakpoint args_run_advanced (log_point 5 "x={x}"))
                    (key demo 5) (record data_log) (increment data_log))) /\
    own = ((if matches safeEval_js (break_at "run" 5) (increment data_log)
            then [SendEvent (OutputEvent (evalLogMessage fetch_x "x={x}") "log")]
            else []) ++ [SendCommand Run])%list /\
    (forall reason, ~ In (SendEvent (StoppedEvent reason)) own).
Proof.
  exact (log_point_resumes safeEval_js silence
           (with_breakpoint args_run_advanced (log_point 5 "x={x}"))
           (break_at "run" 5) (key demo 5) (record data_log) data_log "x={x}"
           eq_refl eq_refl).
Defined.

Lemma malformed_hit_condition_witness :
  hit_match ">> 3" = None /\
  hitConditionResult safeEval_js 1 (Some ">> 3") = false /\
  checkAdvancedBreakpoint safeEval_js silence
    (with_breakpoint args_run_advanced (plain_breakpoint 5))
    (break_at "run" 5) (key demo 5) (record data_malformed)
  = after [SendCommand Run]
      (silence (with_data (with_breakpoint args_run_advanced (plain_breakpoint 5))
                  (key demo 5) (record data_malformed) (increment data_malformed))).
Proof.
  split; [reflexivity|].
  pose proof (malformed_hit_condition safeEval_js silence
                (with_breakpoint args_run_advanced (plain_breakpoint 5))
                (break_at "run" 5) (key demo 5) (record data_malformed)
                data_malformed ">> 3" eq_refl eq_refl (or_introl eq_refl)) as W.
  split; [exact (proj1 W)|].
  apply (proj1 (proj2 W)). discriminate.
Defined.

End WorkedCases.

(* ===================================================================== *)
(** ** Stack frames, scopes and variables: what the handles resolve to *)
(* ===================================================================== *)

Section ProjectionFacts.

Import Dbgp Adapter Lifetime.

Lemma Forall2_pick {A B : Type} (P : A -> B -> Prop) (xs : list A) (ys : list B)
    (y : B) :
  Forall2 P xs ys -> In y ys -> exists x, In x xs /\ P x y.
Proof.
  induction 1 as [|x y' xs ys H Hall IH]; [intros []|].
  intros [->|Hin]; [exists x; split; [left; reflexivity|exact H]|].
  destruct (IH Hin) as (x' & Hin' & H'). exists x'. split; [right; exact Hin'|exact H'].
Qed.

Lemma below_insert_stays {A : Type} (c : N) (t : gmap N A) (h : N) (x y : A) :
  below c t -> t !! h = Some x -> <[c := y]> t !! h = Some x.
Proof.
  intros Hb Hx. rewrite lookup_insert_ne; [exact Hx|].
  intros <-. specialize (Hb c (ex_intro _ x Hx)). lia.
Qed.

(** A frame of the stack trace: the fields of the debuggee's frame, under
    an identifier that resolves to it. *)
Lemma stackTraceRequest_frames (frames : list StackFrame) :
  forall s : Session,
    handles_below_counters s ->
    Forall2
      (fun f d =>
         frame_source_path d = sf_fileUri f /\ frame_name d = sf_name f /\
         frame_line d = sf_line f /\ frame_column d = 1 /\
         stackFrames (fst (stackTraceRequest frames s)) !! frame_id d = Some f)
      frames (snd (stackTraceRequest frames s)) /\
    map frame_id (snd (stackTraceRequest frames s))
    = map (fun i => stackFrameIdCounter s + N.of_nat i) (seq 0 (length frames)) /\
    stackFrameIdCounter (fst (stackTraceRequest frames s))
    = stackFrameIdCounter s + N.of_nat (length frames).
Proof.
  induction frames as [|f frames IH]; intros s Hs.
  - cbn [stackTraceRequest fst snd map seq length]. split; [constructor|].
    split; [reflexivity|]. cbn. lia.
  - cbn [stackTraceRequest].
    pose proof (add_frame_grows s f Hs) as G.
    assert (Hs1 : handles_below_counters (fst (add_frame s f)))
      by exact (grows_below _ _ Hs G).
    destruct (IH (fst (add_frame s f)) Hs1) as (Hall & Hids & Hc).
    pose proof (stackTraceRequest_grows frames (fst (add_frame s f)) Hs1) as G2.
    destruct (add_frame s f) as [s1 d] eqn:E. cbn [fst] in *.
    destruct (stackTraceRequest frames s1) as [s2 ds] eqn:E2. cbn [fst snd] in *.
    injection E as <- <-. cbn [stackFrameIdCounter stackFrames] in *.
    split; [|split].
    + constructor; [|exact Hall].
      cbn [frame_source_path frame_name frame_line frame_column frame_id].
      repeat split. destruct G2 as ((_ & Hold & _) & _). apply Hold.
      cbn [stackFrames]. apply lookup_insert_eq.
    + cbn [map seq length frame_id]. f_equal; [lia|].
      rewrite Hids, <- seq_shift, map_map. apply map_ext. intros i. lia.
    + rewrite Hc. cbn [length]. lia.
Qed.

(** X1: the frames of a stack trace carry the fields of the debuggee's
    frames, in order, under consecutive identifiers that start at the
    counter, and each identifier resolves to its frame afterwards. *)
Theorem stack_trace_round_trip (frames : list StackFrame) (s : Session) :
  handles_below_counters s ->
  let s' := fst (stackTraceRequest frames s) in
  let shown := snd (stackTraceRequest frames s) in
  Forall2
    (fun f d =>
       frame_source_path d = sf_fileUri f /\ frame_name d = sf_name f /\
       frame_line d = sf_line f /\ frame_column d = 1 /\
       stackFrames s' !! frame_id d = Some f)
    frames shown /\
  map frame_id shown
  = map (fun i => stackFrameIdCounter s + N.of_nat i) (seq 0 (length frames)) /\
  stackFrameIdCounter s' = stackFrameIdCounter s + N.of_nat (length frames).
Proof. intros Hs. apply stackTraceRequest_frames, Hs. Qed.



Lemma shown_filtered_out (args : VariablesArguments) (q : Property) :
  shown args q = negb (filtered_out args q).
Proof.
  unfold shown, filtered_out, in_window.
  destruct (filter args) as [[|c f]|]; [reflexivity| |reflexivity].
  destruct (String.eqb_spec (String c f) "named") as [->|Hn].
  - cbn [andb String.eqb]. destruct (p_isIndex q); reflexivity.
  - cbn [andb]. destruct (String.eqb (String c f) "indexed"); [|reflexivity].
    destruct (p_isIndex q); cbn [negb andb]; [|reflexivity].
    now rewrite negb_involutive.
Qed.

Lemma add_variable_contexts (s : Session) (q : Property) :
  contexts (fst (add_variable s q)) = contexts s.
Proof. unfold add_variable. destruct (String.eqb _ _); reflexivity. Qed.

Lemma add_variables_contexts (args : VariablesArguments) (qs : list Property) :
  forall s : Session, contexts (fst (add_variables args qs s)) = contexts s.
Proof.
  induction qs as [|q qs IH]; intros s; [reflexivity|].
  cbn [add_variables]. destruct (filtered_out args q); [apply IH|].
  pose proof (add_variable_contexts s q) as E. specialize (IH (fst (add_variable s q))).
  destruct (add_variable s q) as [s1 v]. cbn [fst] in *.
  destruct (add_variables args qs s1). cbn [fst] in *. congruence.
Qed.

(** What the loop of [variablesRequest] gives for the properties it
    shows: name, type and display value; the reference 0 for a property
    that is not an object, and for an object a reference drawn from the
    counter under which the property is stored. *)
Lemma add_variables_shown (args : VariablesArguments) (qs : list Property) :
  forall s : Session,
    handles_below_counters s ->
    Forall2
      (fun q v =>
         shows q v /\
         if String.eqb (p_type q) "object"
         then variableReferenceCounter s <= v_variablesReference v /\
              objectProperties (fst (add_variables args qs s))
                !! v_variablesReference v = Some q
         else v_variablesReference v = 0)
      (List.filter (shown args) qs) (snd (add_variables args qs s)).
Proof.
  induction qs as [|q qs IH]; intros s Hs; [constructor|].
  cbn [add_variables List.filter]. rewrite shown_filtered_out.
  destruct (filtered_out args q); cbn [negb]; [apply IH, Hs|].
  pose proof (add_variable_grows s q Hs) as G.
  assert (Hs1 : handles_below_counters (fst (add_variable s q)))
    by exact (grows_below _ _ Hs G).
  pose proof (IH (fst (add_variable s q)) Hs1) as Hall.
  pose proof (add_variables_grows args qs (fst (add_variable s q)) Hs1) as G2.
  assert (Hv : shows q (snd (add_variable s q)) /\
               if String.eqb (p_type q) "object"
               then v_variablesReference (snd (add_variable s q))
                    = variableReferenceCounter s /\
                    objectProperties (fst (add_variable s q))
                      !! variableReferenceCounter s = Some q
               else v_variablesReference (snd (add_variable s q)) = 0).
  { unfold add_variable, shows, display_name.
    destruct (String.eqb (p_type q) "object"); cbn [fst snd v_name v_type v_value
      v_variablesReference objectProperties]; repeat split.
    apply lookup_insert_eq. }
  destruct (add_variable s q) as [s1 v]. cbn [fst snd] in *.
  destruct (add_variables args qs s1) as [s2 vs]. cbn [fst snd] in *.
  destruct Hv as [Hshows Href].
  constructor.
  - split; [exact Hshows|].
    destruct (String.eqb (p_type q) "object"); [|exact Href].
    destruct Href as [-> Hstored]. split; [lia|].
    destruct G2 as (_ & _ & (_ & Hold & _)). apply Hold, Hstored.
  - eapply Forall2_impl; [exact Hall|]. cbn beta.
    intros q' v' (H1 & H2). split; [exact H1|].
    destruct (String.eqb (p_type q') "object"); [|exact H2].
    destruct H2 as [H2 H3]. split; [|exact H3].
    destruct G as (_ & (Hc & _) & _). lia.
Qed.

(** X3: the variables of a context or of an object property are the
    properties the debuggee lists for it that the filter shows, in
    order, with their name, type and display value: all of them without
    a filter, the named ones under ["named"], and under ["indexed"] the
    indexed ones whose index lies between [start + 1] and
    [start + count]. *)
Theorem variables_follow_filter (args : VariablesArguments)
    (contextGet : Context -> list Property)
    (propertyGet : Property -> list Property) (s : Session) :
  handles_below_counters s ->
  (forall context,
     contexts s !! variablesReference args = Some context ->
     Forall2 shows (List.filter (shown args) (contextGet context))
       (snd (variablesRequest args contextGet propertyGet s))) /\
  (forall objectProperty,
     contexts s !! variablesReference args = None ->
     objectProperties s !! variablesReference args = Some objectProperty ->
     Forall2 shows (List.filter (shown args) (propertyGet objectProperty))
       (snd (variablesRequest args contextGet propertyGet s))).
Proof.
  intros Hs. split.
  - intros context Hc. unfold variablesRequest. rewrite Hc.
    eapply Forall2_impl; [apply add_variables_shown, Hs|].
    cbn beta. intros q v [H _]. exact H.
  - intros objectProperty Hc Ho. unfold variablesRequest. rewrite Hc, Ho.
    eapply Forall2_impl; [apply add_variables_shown, Hs|].
    cbn beta. intros q v [H _]. exact H.
Qed.

(** X4: a variable that is not an object gets the reference 0; an object
    gets a reference of its own that is not 0, and a later variables
    request under that reference lists the children of that very
    property. *)
Theorem object_variables_expand (args : VariablesArguments)
    (contextGet : Context -> list Property)
    (propertyGet : Property -> list Property) (s : Session) (v : DapVariable) :
  handles_below_counters s ->
  0 < variableReferenceCounter s ->
  In v (snd (variablesRequest args contextGet propertyGet s)) ->
  let s' := fst (variablesRequest args contextGet propertyGet s) in
  (v_type v <> "object" -> v_variablesReference v = 0) /\
  (v_type v = "object" ->
   v_variablesReference v <> 0 /\
   exists q,
     shows q v /\
     objectProperties s' !! v_variablesReference v = Some q /\
     forall args',
       variablesReference args' = v_variablesReference v ->
       variablesRequest args' contextGet propertyGet s'
       = add_variables args' (propertyGet q) s').
Proof.
  intros Hs Hpos Hin s'. unfold variablesRequest in *.
  set (properties :=
         match contexts s !! variablesReference args with
         | Some context => contextGet context
         | None =>
             match objectProperties s !! variablesReference args with
             | Some objectProperty => propertyGet objectProperty
             | None => []
             end
         end) in *.
  pose proof (add_variables_shown args properties s Hs) as Hall.
  pose proof (add_variables_contexts args properties s) as Hctx.
  fold s' in Hall, Hctx.
  destruct (Forall2_pick _ _ _ _ Hall Hin) as (q & _ & (Hn & Ht & Hd) & Href).
  split.
  - intros Hno. destruct (String.eqb_spec (p_type q) "object") as [E|_]; [|exact Href].
    congruence.
  - intros Hobj. rewrite Ht in Hobj. rewrite Hobj in Href. cbn in Href.
    destruct Href as [Hge Hstored]. split; [lia|].
    exists q. split; [repeat split; assumption|]. split; [exact Hstored|].
    intros args' ->.
    assert (Hnone : contexts s' !! v_variablesReference v = None).
    { rewrite Hctx. destruct (contexts s !! v_variablesReference v) as [c|] eqn:E;
        [|reflexivity].
      destruct Hs as (_ & Hb & _). specialize (Hb _ (ex_intro _ c E)). lia. }
    rewrite Hnone, Hstored. reflexivity.
Qed.

(** X5: a reference that was never issued resolves to nothing.  For the
    identifier 0 and for any identifier from the counter upwards, the
    scopes request throws; for the reference 0 and for any reference from
    the counter upwards, the variables request gives the empty list and
    leaves the session as it is. *)
Theorem unknown_handles (s : Session) :
  handles_below_counters s ->
  handles_positive s ->
  (forall frameId contextNames,
     frameId = 0 \/ stackFrameIdCounter s <= frameId ->
     scopesRequest frameId contextNames s = None) /\
  (forall args contextGet propertyGet,
     variablesReference args = 0 \/
     variableReferenceCounter s <= variablesReference args ->
     variablesRequest args contextGet propertyGet s = (s, [])).
Proof.
  intros (Hf & Hc & Ho) (_ & _ & Hf0 & Hc0 & Ho0). split.
  - intros frameId contextNames Hid. unfold scopesRequest.
    destruct (stackFrames s !! frameId) as [f|] eqn:E; [|reflexivity].
    destruct Hid as [->|Hge]; [congruence|].
    specialize (Hf _ (ex_intro _ f E)). lia.
  - intros args contextGet propertyGet Href. unfold variablesRequest.
    destruct (contexts s !! variablesReference args) as [c|] eqn:E.
    { destruct Href as [Hz|Hge]; [rewrite Hz in E; congruence|].
      specialize (Hc _ (ex_intro _ c E)). lia. }
    destruct (objectProperties s !! variablesReference args) as [q|] eqn:E'.
    { destruct Href as [Hz|Hge]; [rewrite Hz in E'; congruence|].
      specialize (Ho _ (ex_intro _ q E')). lia. }
    reflexivity.
Qed.

End ProjectionFacts.

(* ===================================================================== *)
(** ** Setting breakpoints: the response, the keys, the round trip *)
(* ===================================================================== *)

Section LowerCaseFacts.

Lemma lower_char_idem (c : ascii) : JS.lower_char (JS.lower_char c) = JS.lower_char c.
Proof. destruct c as [[] [] [] [] [] [] [] []]; reflexivity. Qed.

Lemma lower_char_digit (c : ascii) :
  HitCondition.is_digit c = true -> JS.lower_char c = c.
Proof. destruct c as [[] [] [] [] [] [] [] []]; intros H; try discriminate H; reflexivity. Qed.

Lemma toLowerCase_idem (s : string) : JS.toLowerCase (JS.toLowerCase s) = JS.toLowerCase s.
Proof.
  induction s as [|c s IH]; [reflexivity|].
  cbn [JS.toLowerCase]. now rewrite lower_char_idem, IH.
Qed.

Lemma toLowerCase_app (a b : string) :
  JS.toLowerCase (a ++ b) = JS.toLowerCase a ++ JS.toLowerCase b.
Proof.
  induction a as [|c a IH]; [reflexivity|].
  rewrite append_cons. cbn [JS.toLowerCase]. now rewrite IH, append_cons.
Qed.

Lemma toLowerCase_digits (s : string) :
  HitCondition.all_digits s = true -> JS.toLowerCase s = s.
Proof.
  induction s as [|c s IH]; [reflexivity|].
  cbn [HitCondition.all_digits JS.toLowerCase]. intros [Hc Hs]%andb_prop.
  now rewrite (lower_char_digit c Hc), (IH Hs).
Qed.

Lemma toLowerCase_length (s : string) :
  String.length (JS.toLowerCase s) = String.length s.
Proof. induction s as [|c s IH]; [reflexivity|]. cbn. now rewrite IH. Qed.

Lemma append_same_length (a b c d : string) :
  String.length a = String.length b -> a ++ c = b ++ d -> a = b.
Proof.
  revert b. induction a as [|x a IH]; intros [|y b] Hl H; try discriminate Hl;
    [reflexivity|].
  rewrite !append_cons in H. injection H as -> H. f_equal. apply IH; [|exact H].
  cbn in Hl. lia.
Qed.

Lemma toLowerCase_key (filePath : string) (l : N) :
  JS.toLowerCase (Adapter.key filePath l) = Adapter.key (JS.toLowerCase filePath) l.
Proof.
  unfold Adapter.key. rewrite toLowerCase_app.
  now rewrite (toLowerCase_digits _ (String_of_N_digits l)).
Qed.

(** A key in lower case comes from a path in lower case. *)
Lemma key_lower_fixed (filePath : string) (l : N) :
  JS.toLowerCase (Adapter.key filePath l) = Adapter.key filePath l ->
  JS.toLowerCase filePath = filePath.
Proof.
  rewrite toLowerCase_key. unfold Adapter.key. intros H.
  apply (append_same_length _ _ _ _ (toLowerCase_length filePath) H).
Qed.

End LowerCaseFacts.

Section SetBreakpointsFacts.

Import Dbgp Adapter Lifetime.

Variables (convertClientPathToDebugger convertDebuggerPathToClient : string -> string).

Lemma registry_lowercase_insert (reg : gmap string Breakpoint) (k : string)
    (b : Breakpoint) :
  JS.toLowerCase k = k -> registry_lowercase reg ->
  registry_lowercase (<[k := b]> reg).
Proof.
  intros Hk H k' b'. destruct (decide (k = k')) as [<-|Hne]; [intros _; exact Hk|].
  rewrite lookup_insert_ne by exact Hne. apply H.
Qed.

Lemma registry_lowercase_delete (reg : gmap string Breakpoint) (k : string) :
  registry_lowercase reg -> registry_lowercase (delete k reg).
Proof.
  intros H k' b'. destruct (decide (k = k')) as [<-|Hne].
  - rewrite lookup_delete_eq. discriminate.
  - rewrite lookup_delete_ne by exact Hne. apply H.
Qed.

Lemma clear_file_lowercase (filePath : string) (listed : list Breakpoint) :
  forall reg, registry_lowercase reg ->
    registry_lowercase (clear_file convertDebuggerPathToClient filePath listed reg).
Proof.
  induction listed as [|b listed IH]; intros reg H; [exact H|].
  rewrite clear_file_cons. apply IH. unfold clear_one.
  destruct (same_file _ _ _); [apply registry_lowercase_delete|]; exact H.
Qed.

Lemma clear_file_other (filePath : string) (listed : list Breakpoint) (k : string) :
  (forall l, k <> key (JS.toLowerCase filePath) l) ->
  forall reg, clear_file convertDebuggerPathToClient filePath listed reg !! k = reg !! k.
Proof.
  intros Hk. induction listed as [|b listed IH]; intros reg; [reflexivity|].
  rewrite clear_file_cons, IH. unfold clear_one.
  destruct (same_file _ _ _); [|reflexivity].
  apply lookup_delete_ne. intros E. exact (Hk _ (eq_sym E)).
Qed.

(** In a registry with keys in lower case, a resolved request always
    stores its record under the lower-cased key, with the fields of the
    request. *)
Lemma set_one_lower (filePath : string) (reg : gmap string Breakpoint)
    (v : SourceBreakpoint) (id l : N) :
  registry_lowercase reg ->
  exists record c,
    fst (set_one convertClientPathToDebugger filePath reg v (SetOk id l))
    = <[key (JS.toLowerCase filePath) l := record]> reg /\
    advancedData record
    = Some {| counter := c; condition := sb_condition v;
              hitCondition := sb_hitCondition v; logMessage := sb_logMessage v |}.
Proof.
  intros Hlow. unfold set_one, upsert.
  destruct (reg !! key filePath l) as [b|] eqn:E;
    [destruct (advancedData b) as [d|] eqn:Ed|]; cbn [fst]; eauto.
  pose proof (key_lower_fixed _ _ (Hlow _ _ E)) as ->. eauto.
Qed.

Lemma set_all_lowercase (filePath : string)
    (requests : list (SourceBreakpoint * SetReply)) :
  forall reg, registry_lowercase reg ->
    registry_lowercase (fst (set_all convertClientPathToDebugger filePath reg requests)).
Proof.
  induction requests as [|[v reply] rest IH]; intros reg H; [exact H|].
  cbn [set_all].
  assert (H1 : registry_lowercase
                 (fst (set_one convertClientPathToDebugger filePath reg v reply))).
  { destruct reply as [m|id l]; [exact H|].
    destruct (set_one_lower filePath reg v id l H) as (record & c & -> & _).
    apply registry_lowercase_insert; [|exact H].
    rewrite toLowerCase_key. now rewrite toLowerCase_idem. }
  destruct (set_one _ _ _ _ _) as [reg1 b1]. cbn [fst] in H1.
  specialize (IH reg1 H1). destruct (set_all _ _ reg1 rest). exact IH.
Qed.

Lemma set_all_other (filePath : string)
    (requests : list (SourceBreakpoint * SetReply)) (k : string) :
  (forall l, k <> key (JS.toLowerCase filePath) l) ->
  forall reg, registry_lowercase reg ->
    fst (set_all convertClientPathToDebugger filePath reg requests) !! k = reg !! k.
Proof.
  intros Hk. induction requests as [|[v reply] rest IH]; intros reg H; [reflexivity|].
  cbn [set_all].
  assert (H1 : registry_lowercase
                 (fst (set_one convertClientPathToDebugger filePath reg v reply)) /\
               fst (set_one convertClientPathToDebugger filePath reg v reply) !! k
               = reg !! k).
  { destruct reply as [m|id l]; [split; [exact H|reflexivity]|].
    destruct (set_one_lower filePath reg v id l H) as (record & c & -> & _).
    split.
    - apply registry_lowercase_insert; [|exact H].
      rewrite toLowerCase_key. now rewrite toLowerCase_idem.
    - apply lookup_insert_ne. intros E. exact (Hk _ (eq_sym E)). }
  destruct (set_one _ _ _ _ _) as [reg1 b1]. cbn [fst] in H1. destruct H1 as [H1 H2].
  specialize (IH reg1 H1). destruct (set_all _ _ reg1 rest). cbn [fst] in *. congruence.
Qed.

Lemma set_all_last (filePath : string) (l : N)
    (requests : list (SourceBreakpoint * SetReply)) :
  forall reg, registry_lowercase reg ->
    match last_resolved l requests with
    | None =>
        fst (set_all convertClientPathToDebugger filePath reg requests)
          !! key (JS.toLowerCase filePath) l
        = reg !! key (JS.toLowerCase filePath) l
    | Some v =>
        exists b c,
          fst (set_all convertClientPathToDebugger filePath reg requests)
            !! key (JS.toLowerCase filePath) l = Some b /\
          advancedData b
          = Some {| counter := c; condition := sb_condition v;
                    hitCondition := sb_hitCondition v;
                    logMessage := sb_logMessage v |}
    end.
Proof.
  induction requests as [|[v reply] rest IH]; intros reg H; [reflexivity|].
  cbn [set_all last_resolved].
  assert (H1 : registry_lowercase
                 (fst (set_one convertClientPathToDebugger filePath reg v reply)) /\
               match reply with
               | SetOk _ l' =>
                   if l' =? l
                   then exists b c,
                          fst (set_one convertClientPathToDebugger filePath reg v reply)
                            !! key (JS.toLowerCase filePath) l = Some b /\
                          advancedData b
                          = Some {| counter := c; condition := sb_condition v;
                                    hitCondition := sb_hitCondition v;
                                    logMessage := sb_logMessage v |}
                   else fst (set_one convertClientPathToDebugger filePath reg v reply)
                          !! key (JS.toLowerCase filePath) l
                        = reg !! key (JS.toLowerCase filePath) l
               | SetFailed _ =>
                   fst (set_one convertClientPathToDebugger filePath reg v reply)
                     !! key (JS.toLowerCase filePath) l
                   = reg !! key (JS.toLowerCase filePath) l
               end).
  { destruct reply as [m|id l']; [split; [exact H|reflexivity]|].
    destruct (set_one_lower filePath reg v id l' H) as (record & c & -> & Hd).
    split.
    - apply registry_lowercase_insert; [|exact H].
      rewrite toLowerCase_key. now rewrite toLowerCase_idem.
    - destruct (N.eqb_spec l' l) as [->|Hne].
      + exists record, c. split; [apply lookup_insert_eq|exact Hd].
      + apply lookup_insert_ne. intros E%key_inj. contradiction. }
  destruct (set_one _ _ _ _ _) as [reg1 b1]. cbn [fst] in H1. destruct H1 as [H1 H2].
  specialize (IH reg1 H1). destruct (set_all _ _ reg1 rest) as [reg2 bs]. cbn [fst] in *.
  destruct (last_resolved l rest) as [v'|]; [exact IH|].
  rewrite IH. destruct reply as [m|id l']; [exact H2|].
  destruct (l' =? l); exact H2.
Qed.

Lemma setBreakPointsRequest_registry (filePath : string)
    (requests : list (SourceBreakpoint * SetReply)) (listed : list Breakpoint)
    (s : Session) :
  breakpoints (fst (setBreakPointsRequest convertClientPathToDebugger
                      convertDebuggerPathToClient
                      {| source_path := Some filePath; requested := Some requests |}
                      listed s))
  = fst (set_all convertClientPathToDebugger filePath
           (clear_file convertDebuggerPathToClient filePath listed (breakpoints s))
           requests).
Proof.
  unfold setBreakPointsRequest. cbn [source_path requested].
  destruct (set_all _ _ _ _). reflexivity.
Qed.

Lemma setBreakPointsRequest_lowercase (args : SetBreakpointsArguments)
    (listed : list Breakpoint) (s : Session) :
  registry_lowercase (breakpoints s) ->
  registry_lowercase
    (breakpoints (fst (setBreakPointsRequest convertClientPathToDebugger
                         convertDebuggerPathToClient args listed s))).
Proof.
  intros H. unfold setBreakPointsRequest.
  pose proof (clear_file_lowercase
                (match source_path args with Some p => p | None => "" end)
                listed _ H) as Hc.
  destruct (requested args) as [requests|]; [|exact Hc].
  pose proof (set_all_lowercase
                (match source_path args with Some p => p | None => "" end)
                requests _ Hc) as Hs.
  cbv zeta. destruct (set_all _ _ _ _). exact Hs.
Qed.

(** X6: a breakpoint that the IDE sets is found again at a break,
    whatever the case of the letters in the two paths.  When the last
    request that the debuggee resolved to a line carries certain
    advanced fields, a break whose top frame lies on that line, in a file
    whose client path equals the path of the request up to case, finds a
    record with those fields. *)
Theorem set_then_hit (filePath : string) (l : N)
    (requests : list (SourceBreakpoint * SetReply)) (listed : list Breakpoint)
    (s : Session) (v : SourceBreakpoint) (p : Pause) (frame : StackFrame)
    (frames : list StackFrame) :
  registry_lowercase (breakpoints s) ->
  last_resolved l requests = Some v ->
  stack p = Some (frame :: frames) ->
  sf_line frame = l ->
  JS.toLowerCase (convertDebuggerPathToClient (sf_fileUri frame))
  = JS.toLowerCase filePath ->
  let s' := fst (setBreakPointsRequest convertClientPathToDebugger
                   convertDebuggerPathToClient
                   {| source_path := Some filePath; requested := Some requests |}
                   listed s) in
  exists b c,
    getCurrentBreakpoint convertDebuggerPathToClient s' p
    = Registered (key (JS.toLowerCase filePath) l) b /\
    advancedData b
    = Some {| counter := c; condition := sb_condition v;
              hitCondition := sb_hitCondition v; logMessage := sb_logMessage v |}.
Proof.
  intros Hlow Hv Hstack Hline Hpath s'.
  pose proof (set_all_last filePath l requests _
                (clear_file_lowercase filePath listed _ Hlow)) as Hset.
  rewrite Hv in Hset. destruct Hset as (b & c & Hb & Hd).
  exists b, c. split; [|exact Hd].
  unfold getCurrentBreakpoint. rewrite Hstack, Hpath, Hline.
  subst s'. rewrite setBreakPointsRequest_registry, Hb. reflexivity.
Qed.

(** X7: setting the breakpoints of one file leaves alone every record
    whose key is not the lower-cased path of that file followed by a
    line number. *)
Theorem other_files_untouched (args : SetBreakpointsArguments)
    (listed : list Breakpoint) (s : Session) (k : string) :
  registry_lowercase (breakpoints s) ->
  (forall l,
     k <> key (JS.toLowerCase
                 (match source_path args with Some p => p | None => "" end)) l) ->
  breakpoints (fst (setBreakPointsRequest convertClientPathToDebugger
                      convertDebuggerPathToClient args listed s)) !! k
  = breakpoints s !! k.
Proof.
  intros Hlow Hk. unfold setBreakPointsRequest.
  set (filePath := match source_path args with Some p => p | None => "" end) in *.
  pose proof (clear_file_other filePath listed k Hk (breakpoints s)) as Hc.
  destruct (requested args) as [requests|]; [|exact Hc].
  pose proof (set_all_other filePath requests k Hk _
                (clear_file_lowercase filePath listed _ Hlow)) as Hs.
  cbv zeta. destruct (set_all _ _ _ _). cbn [fst breakpoints set_breakpoints] in *.
  congruence.
Qed.



End SetBreakpointsFacts.

(* ===================================================================== *)
(** ** Continuation: what a run of the loop does and never does *)
(* ===================================================================== *)

Section LoopFacts.

Import Dbgp Adapter Lifetime.

Variable convertDebuggerPathToClient : string -> string.
Variable safeEval : string -> option bool.

Lemma getCurrentBreakpoint_registered (s : Session) (p : Pause) (k : string)
    (b : Breakpoint) :
  getCurrentBreakpoint convertDebuggerPathToClient s p = Registered k b ->
  breakpoints s !! k = Some b.
Proof.
  unfold getCurrentBreakpoint. destruct (stack p) as [[|f fs]|]; try discriminate.
  destruct (breakpoints s !! _) as [b'|] eqn:E; [|discriminate].
  intros [= <- <-]. exact E.
Qed.

Lemma counters_only_refl (reg : gmap string Breakpoint) : counters_only reg reg.
Proof.
  intros k. destruct (reg !! k) as [b|]; [|exact I].
  split; [reflexivity|]. split; [reflexivity|].
  destruct (advancedData b); [|exact I]. repeat split; lia.
Qed.

Lemma counters_only_trans (r1 r2 r3 : gmap string Breakpoint) :
  counters_only r1 r2 -> counters_only r2 r3 -> counters_only r1 r3.
Proof.
  intros H12 H23 k. specialize (H12 k). specialize (H23 k).
  destruct (r1 !! k) as [b1|], (r2 !! k) as [b2|], (r3 !! k) as [b3|]; try tauto.
  destruct H12 as (E1 & E2 & H12), H23 as (F1 & F2 & H23).
  split; [congruence|]. split; [congruence|].
  destruct (advancedData b1) as [d1|], (advancedData b2) as [d2|],
    (advancedData b3) as [d3|]; try tauto.
  destruct H12 as (A1 & A2 & A3 & A4), H23 as (B1 & B2 & B3 & B4).
  repeat split; try congruence. lia.
Qed.

Lemma counters_only_with_data (s : Session) (k : string) (b : Breakpoint)
    (d : AdvancedData) :
  breakpoints s !! k = Some b -> advancedData b = Some d ->
  counters_only (breakpoints s) (breakpoints (with_data s k b (increment d))).
Proof.
  intros Hb Hd k'. unfold with_data, set_breakpoints. cbn [breakpoints].
  destruct (decide (k = k')) as [<-|Hne].
  - rewrite Hb, lookup_insert_eq. cbn [fileUri line advancedData]. rewrite Hd.
    repeat split. cbn. lia.
  - rewrite lookup_insert_ne by exact Hne. apply counters_only_refl.
Qed.

Lemma checkAdvancedBreakpoint_counters (resume : Session -> Outcome) (s : Session)
    (p : Pause) (k : string) (b : Breakpoint) :
  breakpoints s !! k = Some b ->
  (forall s', counters_only (breakpoints s') (breakpoints (session (resume s')))) ->
  counters_only (breakpoints s)
    (breakpoints (session (checkAdvancedBreakpoint safeEval resume s p k b))).
Proof.
  intros Hb Hres. unfold checkAdvancedBreakpoint.
  destruct (advancedData b) as [d|] eqn:Hd; [|apply counters_only_refl]. cbn zeta.
  pose proof (counters_only_with_data s k b d Hb Hd) as Hc.
  destruct (matches _ _ _); [destruct (logMessage _)|]; cbn [after resolved session];
    try exact Hc; eapply counters_only_trans; eauto.
Qed.

Lemma checkContinuationStatus_counters (upcoming : list Pause) :
  forall (s : Session) (p : Pause) (c : bool),
    counters_only (breakpoints s)
      (breakpoints
         (session (checkContinuationStatus convertDebuggerPathToClient safeEval
                     upcoming s p c))).
Proof.
  induction upcoming as [|p' upcoming IH]; intros s p c;
    cbn [checkContinuationStatus];
    destruct (String.eqb _ "stopped"); try apply counters_only_refl;
    destruct (String.eqb _ "break"); try apply counters_only_refl;
    destruct c; try apply counters_only_refl;
    destruct (getCurrentBreakpoint _ _ _) as [| |k b] eqn:E;
    try apply counters_only_refl;
    cbn [after session];
    apply checkAdvancedBreakpoint_counters;
    try apply (getCurrentBreakpoint_registered _ _ _ _ E); intros s'.
  - apply counters_only_refl.
  - apply IH.
Qed.

(** X9: examining the response of a continuation command, with all the
    runs that follow, only ever adds to hit counters: the registry keeps
    its keys, and every record its file URI, its line, its condition, its
    hit condition and its log message. *)
Theorem continuation_only_counts (upcoming : list Pause) (s : Session) (p : Pause)
    (c : bool) :
  counters_only (breakpoints s)
    (breakpoints
       (session (checkContinuationStatus convertDebuggerPathToClient safeEval
                   upcoming s p c))).
Proof. apply checkContinuationStatus_counters. Qed.

Lemma final_only_spec (acts : list Action) :
  final_only acts = true ->
  forall pre a post, acts = (pre ++ a :: post)%list -> terminal a = true -> post = [].
Proof.
  induction acts as [|x acts IH]; intros H pre a post E Ha.
  - destruct pre; discriminate E.
  - cbn [final_only] in H. destruct pre as [|y pre]; cbn in E; injection E as -> E.
    + rewrite Ha in H. destruct acts; [|discriminate H]. now destruct post.
    + destruct (terminal y).
      * destruct acts; [destruct pre; discriminate E|discriminate H].
      * eapply IH; eauto.
Qed.

Lemma final_only_after (acts : list Action) (o : Outcome) :
  forallb (fun a => negb (terminal a)) acts = true ->
  final_only (actions (after acts o)) = final_only (actions o).
Proof.
  cbn [after actions]. induction acts as [|a acts IH]; [reflexivity|].
  cbn [forallb]. intros [Ha Hs]%andb_prop. apply negb_true_iff in Ha.
  cbn [app final_only]. rewrite Ha. apply IH, Hs.
Qed.

Lemma checkAdvancedBreakpoint_final (resume : Session -> Outcome) (s : Session)
    (p : Pause) (k : string) (b : Breakpoint) :
  (forall s', final_only (actions (resume s')) = true) ->
  final_only (actions (checkAdvancedBreakpoint safeEval resume s p k b)) = true.
Proof.
  intros Hres. unfold checkAdvancedBreakpoint.
  destruct (advancedData b) as [d|]; [|reflexivity]. cbn zeta.
  destruct (matches _ _ _); [destruct (logMessage _)|];
    try reflexivity; rewrite final_only_after; auto.
Qed.

Lemma checkContinuationStatus_final (upcoming : list Pause) :
  forall (s : Session) (p : Pause) (c : bool),
    final_only
      (actions (checkContinuationStatus convertDebuggerPathToClient safeEval
                  upcoming s p c)) = true.
Proof.
  induction upcoming as [|p' upcoming IH]; intros s p c;
    cbn [checkContinuationStatus];
    destruct (String.eqb _ "stopped"); try reflexivity;
    destruct (String.eqb _ "break"); try reflexivity;
    destruct c; try reflexivity;
    destruct (getCurrentBreakpoint _ _ _) as [| |k b]; try reflexivity;
    (rewrite final_only_after; [|reflexivity]);
    apply checkAdvancedBreakpoint_final; intros s'; [reflexivity|apply IH].
Qed.

(** X10: a stopped or terminated notification is the last thing a
    continue request does: whatever the debuggee answers, nothing is
    sent to the IDE or to the debuggee after it, so at most one such
    notification is sent. *)
Theorem stop_is_final (debuggee : list Pause) (s : Session)
    (pre post : list Action) (a : Action) :
  actions (continueRequest convertDebuggerPathToClient safeEval debuggee s)
  = (pre ++ a :: post)%list ->
  terminal a = true ->
  post = [].
Proof.
  apply final_only_spec. unfold continueRequest, continuation.
  destruct debuggee as [|p upcoming]; [reflexivity|].
  rewrite final_only_after by reflexivity. rewrite final_only_after by reflexivity.
  apply checkContinuationStatus_final.
Qed.



(** X12: at a break the IDE is not left without news.  When every record
    of the registry carries advanced data and the stack of the pause is
    not empty, examining a break either notifies a stop or sends a run
    command. *)
Theorem break_is_answered (upcoming : list Pause) (s : Session) (p : Pause)
    (c : bool) :
  registry_advanced s ->
  status (response p) = "break" ->
  stack p <> Some [] ->
  exists a,
    In a (actions (checkContinuationStatus convertDebuggerPathToClient safeEval
                     upcoming s p c)) /\
    (a = SendCommand Run \/ exists reason, a = SendEvent (StoppedEvent reason)).
Proof.
  intros Hadv Hb Hstack.
  destruct c; [|rewrite (break_without_check _ _ _ _ _ Hb);
                eexists; split; [left; reflexivity|right; eauto]].
  destruct (getCurrentBreakpoint convertDebuggerPathToClient s p) as [| |k b] eqn:E.
  - exfalso. unfold getCurrentBreakpoint in E.
    destruct (stack p) as [[|f fs]|]; try congruence.
    destruct (breakpoints s !! _); discriminate E.
  - exists (SendEvent (StoppedEvent (stopReason p))). split; [|right; eauto].
    destruct upcoming; cbn [checkContinuationStatus]; rewrite Hb, E; cbn; auto.
  - rewrite (break_with_check _ _ _ _ _ _ _ Hb E).
    pose proof (getCurrentBreakpoint_registered _ _ _ _ E) as Hk.
    destruct (Hadv _ _ Hk) as [d Hd]. unfold checkAdvancedBreakpoint. rewrite Hd.
    cbn zeta. destruct (matches _ _ _); [destruct (logMessage _)|].
    + exists (SendCommand Run). split; [cbn; auto|left; reflexivity].
    + eexists. split; [cbn; right; left; reflexivity|right; eauto].
    + exists (SendCommand Run). split; [cbn; auto|left; reflexivity].
Qed.

Lemma checkAdvancedBreakpoint_registry_only (resume1 resume2 : Session -> Outcome)
    (s1 s2 : Session) (p : Pause) (k : string) (b : Breakpoint) :
  breakpoints s1 = breakpoints s2 ->
  (forall s1' s2', breakpoints s1' = breakpoints s2' ->
     actions (resume1 s1') = actions (resume2 s2') /\
     settled (resume1 s1') = settled (resume2 s2') /\
     breakpoints (session (resume1 s1')) = breakpoints (session (resume2 s2'))) ->
  actions (checkAdvancedBreakpoint safeEval resume1 s1 p k b)
  = actions (checkAdvancedBreakpoint safeEval resume2 s2 p k b) /\
  settled (checkAdvancedBreakpoint safeEval resume1 s1 p k b)
  = settled (checkAdvancedBreakpoint safeEval resume2 s2 p k b) /\
  breakpoints (session (checkAdvancedBreakpoint safeEval resume1 s1 p k b))
  = breakpoints (session (checkAdvancedBreakpoint safeEval resume2 s2 p k b)).
Proof.
  intros Hreg Hres. unfold checkAdvancedBreakpoint.
  destruct (advancedData b) as [d|]; [|repeat split; exact Hreg]. cbn zeta.
  assert (Hw : breakpoints (with_data s1 k b (increment d))
               = breakpoints (with_data s2 k b (increment d))).
  { unfold with_data, set_breakpoints. cbn [breakpoints]. now rewrite Hreg. }
  destruct (Hres _ _ Hw) as (H1 & H2 & H3).
  destruct (matches _ _ _); [destruct (logMessage _)|];
    cbn [after resolved actions settled session]; repeat split; congruence.
Qed.

Lemma checkContinuationStatus_registry_only (upcoming : list Pause) :
  forall (s1 s2 : Session) (p : Pause) (c : bool),
    breakpoints s1 = breakpoints s2 ->
    let o1 := checkContinuationStatus convertDebuggerPathToClient safeEval
                upcoming s1 p c in
    let o2 := checkContinuationStatus convertDebuggerPathToClient safeEval
                upcoming s2 p c in
    actions o1 = actions o2 /\ settled o1 = settled o2 /\
    breakpoints (session o1) = breakpoints (session o2).
Proof.
  induction upcoming as [|p' upcoming IH]; intros s1 s2 p c Hreg; cbv zeta;
    cbn [checkContinuationStatus]; unfold getCurrentBreakpoint; rewrite Hreg;
    destruct (String.eqb _ "stopped"); try (repeat split; exact Hreg);
    destruct (String.eqb _ "break"); try (repeat split; exact Hreg);
    destruct c; try (repeat split; exact Hreg);
    destruct (stack p) as [[|f fs]|]; try (repeat split; exact Hreg);
    destruct (breakpoints s2 !! _) as [b|]; try (repeat split; exact Hreg).
  - destruct (checkAdvancedBreakpoint_registry_only
                (fun s' => {| session := s'; actions := []; settled := Pending |})
                (fun s' => {| session := s'; actions := []; settled := Pending |})
                s1 s2 p (key (JS.toLowerCase (convertDebuggerPathToClient (sf_fileUri f)))
                           (sf_line f)) b Hreg) as (H1 & H2 & H3).
    { intros s1' s2' H. repeat split; exact H. }
    cbn [after actions settled session]. repeat split; congruence.
  - destruct (checkAdvancedBreakpoint_registry_only
                (fun s' => checkContinuationStatus convertDebuggerPathToClient safeEval
                             upcoming s' p' true)
                (fun s' => checkContinuationStatus convertDebuggerPathToClient safeEval
                             upcoming s' p' true)
                s1 s2 p (key (JS.toLowerCase (convertDebuggerPathToClient (sf_fileUri f)))
                           (sf_line f)) b Hreg) as (H1 & H2 & H3).
    { intros s1' s2' H. apply IH, H. }
    cbn [after actions settled session]. repeat split; congruence.
Qed.

(** X13: what a continue request does depends on the session through the
    registry alone: neither the launch configuration (the flag
    [useAdvancedBreakpoint] included) nor the handle tables change what
    is sent, how the request settles or what the registry becomes. *)
Theorem continue_reads_registry_only (debuggee : list Pause) (s1 s2 : Session) :
  breakpoints s1 = breakpoints s2 ->
  let o1 := continueRequest convertDebuggerPathToClient safeEval debuggee s1 in
  let o2 := continueRequest convertDebuggerPathToClient safeEval debuggee s2 in
  actions o1 = actions o2 /\ settled o1 = settled o2 /\
  breakpoints (session o1) = breakpoints (session o2).
Proof.
  intros Hreg. cbv zeta. unfold continueRequest, continuation.
  destruct debuggee as [|p upcoming]; [repeat split; exact Hreg|].
  destruct (checkContinuationStatus_registry_only upcoming s1 s2 p true Hreg)
    as (H1 & H2 & H3).
  cbn [after actions settled session]. repeat split; congruence.
Qed.

Lemma checkAdvancedBreakpoint_responses (resume : Session -> Outcome) (s : Session)
    (p : Pause) (k : string) (b : Breakpoint) :
  (forall s', responses (actions (resume s')) = 0%nat) ->
  responses (actions (checkAdvancedBreakpoint safeEval resume s p k b)) = 0%nat.
Proof.
  intros Hres. unfold checkAdvancedBreakpoint.
  destruct (advancedData b) as [d|]; [|reflexivity]. cbn zeta.
  destruct (matches _ _ _); [destruct (logMessage _)|];
    cbn [after resolved actions app]; try reflexivity; apply Hres.
Qed.

Lemma checkContinuationStatus_responses (upcoming : list Pause) :
  forall (s : Session) (p : Pause) (c : bool),
    responses
      (actions (checkContinuationStatus convertDebuggerPathToClient safeEval
                  upcoming s p c)) = 0%nat.
Proof.
  induction upcoming as [|p' upcoming IH]; intros s p c;
    cbn [checkContinuationStatus];
    destruct (String.eqb _ "stopped"); try reflexivity;
    destruct (String.eqb _ "break"); try reflexivity;
    destruct c; try reflexivity;
    destruct (getCurrentBreakpoint _ _ _) as [| |k b]; try reflexivity;
    cbn [after actions app];
    change (responses (SendCommand StackGet :: ?l)) with (responses l);
    apply checkAdvancedBreakpoint_responses; intros s'; [reflexivity|apply IH].
Qed.

(** X21: a continue request and the step requests answer the IDE exactly
    once, as soon as the debuggee has answered the command and before
    its status is examined; a configuration-done request is never
    answered, whatever the debuggee does. *)
Theorem responses_sent (p : Pause) (upcoming : list Pause) (s : Session) :
  let answered (handler : list Pause -> Session -> Outcome) (cmd : Command) :=
    exists rest,
      actions (handler (p :: upcoming) s) = SendCommand cmd :: SendResponse :: rest /\
      responses rest = 0%nat in
  answered (continueRequest convertDebuggerPathToClient safeEval) Run /\
  answered (nextRequest convertDebuggerPathToClient safeEval) StepOver /\
  answered (stepInRequest convertDebuggerPathToClient safeEval) StepInto /\
  answered (stepOutRequest convertDebuggerPathToClient safeEval) StepOut /\
  forall debuggee,
    responses (actions (configurationDoneRequest convertDebuggerPathToClient safeEval
                          debuggee s)) = 0%nat.
Proof.
  cbv zeta. unfold continueRequest, nextRequest, stepInRequest, stepOutRequest,
    configurationDoneRequest, continuation.
  repeat split;
    try (eexists; split; [reflexivity|apply checkContinuationStatus_responses]).
  intros [|q rest]; cbn [after actions app]; [destruct (truthy_flag _); reflexivity|].
  change (responses (SendCommand ?a :: SendCommand ?b :: ?l)) with (responses l).
  destruct (useAdvancedBreakpoint _); apply checkContinuationStatus_responses.
Qed.

End LoopFacts.

(* ===================================================================== *)
(** ** What holds of every session the requests can lead to *)
(* ===================================================================== *)

Section ReachableFacts.

Import Dbgp Adapter Lifetime.

Variables (convertClientPathToDebugger convertDebuggerPathToClient : string -> string).
Variable safeEval : string -> option bool.

Lemma handle_tables (r : Request) (s : Session) :
  handles_below_counters s ->
  grows s (handle convertClientPathToDebugger convertDebuggerPathToClient safeEval r s).
Proof.
  intros Hs. destruct r; cbn [handle].
  - apply same_tables_grows. unfold setBreakPointsRequest.
    destruct (requested args); [destruct (set_all _ _ _ _)|];
      apply same_tables_set_breakpoints.
  - apply same_tables_grows. unfold configurationDoneRequest. cbn [after session].
    apply continuation_tables. intros upcoming p.
    destruct (useAdvancedBreakpoint _); apply checkContinuationStatus_tables.
  - apply same_tables_grows, continuation_tables. intros upcoming p.
    apply checkContinuationStatus_tables.
  - apply same_tables_grows, continuation_tables. intros upcoming p.
    apply checkContinuationStatus_tables.
  - apply same_tables_grows, continuation_tables. intros upcoming p.
    apply checkContinuationStatus_tables.
  - apply same_tables_grows, continuation_tables. intros upcoming p.
    apply checkContinuationStatus_tables.
  - apply stackTraceRequest_grows, Hs.
  - unfold scopesRequest. destruct (stackFrames s !! frameId); [|apply grows_refl].
    pose proof (add_scopes_grows (contextNames s0) s Hs) as G.
    destruct (add_scopes _ _). exact G.
  - apply add_variables_grows, Hs.
Qed.

Lemma grows_positive (s s' : Session) :
  handles_positive s -> grows s s' -> handles_positive s'.
Proof.
  intros (P1 & P2 & P3 & P4 & P5) ((A1 & A2 & A3) & (B1 & B2 & B3) & (C1 & C2 & C3)).
  split; [lia|]. split; [lia|].
  split; [|split].
  - destruct (stackFrames s' !! 0) eqn:E; [|reflexivity].
    assert (is_Some (stackFrames s' !! 0)) as H by (rewrite E; eauto).
    specialize (A3 _ P3 H). lia.
  - destruct (contexts s' !! 0) eqn:E; [|reflexivity].
    assert (is_Some (contexts s' !! 0)) as H by (rewrite E; eauto).
    specialize (B3 _ P4 H). lia.
  - destruct (objectProperties s' !! 0) eqn:E; [|reflexivity].
    assert (is_Some (objectProperties s' !! 0)) as H by (rewrite E; eauto).
    specialize (C3 _ P5 H). lia.
Qed.

Lemma below_none {A : Type} (c : N) (t : gmap N A) : below c t -> t !! c = None.
Proof.
  intros H. destruct (t !! c) eqn:E; [|reflexivity].
  assert (is_Some (t !! c)) as Hc by (rewrite E; eauto).
  specialize (H _ Hc). lia.
Qed.

Lemma same_tables_disjoint (s s' : Session) :
  same_tables s s' -> tables_disjoint s -> tables_disjoint s'.
Proof.
  intros (_ & _ & _ & E4 & E5) H h. rewrite E4, E5. apply H.
Qed.

Lemma add_frame_disjoint (s : Session) (f : StackFrame) :
  tables_disjoint s -> tables_disjoint (fst (add_frame s f)).
Proof. intros H. exact H. Qed.

Lemma add_scope_disjoint (s : Session) (c : Context) :
  handles_below_counters s -> tables_disjoint s ->
  tables_disjoint (fst (add_scope s c)).
Proof.
  intros (_ & _ & H3) H h. cbn [add_scope fst contexts objectProperties].
  destruct (decide (variableReferenceCounter s = h)) as [<-|Hne].
  - intros _. apply below_none, H3.
  - rewrite lookup_insert_ne by exact Hne. apply H.
Qed.

Lemma add_variable_disjoint (s : Session) (q : Property) :
  handles_below_counters s -> tables_disjoint s ->
  tables_disjoint (fst (add_variable s q)).
Proof.
  intros (_ & H2 & _) H. unfold add_variable.
  destruct (String.eqb (p_type q) "object"); [|exact H].
  intros h. cbn [fst contexts objectProperties].
  destruct (decide (variableReferenceCounter s = h)) as [<-|Hne].
  - rewrite (below_none _ _ H2). intros [x Hx]. discriminate Hx.
  - rewrite lookup_insert_ne by exact Hne. apply H.
Qed.

Lemma stackTraceRequest_disjoint (frames : list StackFrame) (s : Session) :
  tables_disjoint s -> tables_disjoint (fst (stackTraceRequest frames s)).
Proof.
  revert s. induction frames as [|f frames IH]; intros s H; [exact H|].
  cbn [stackTraceRequest].
  pose proof (add_frame_disjoint s f H) as H1.
  destruct (add_frame s f) as [s1 d]. cbn [fst] in H1.
  specialize (IH s1 H1). destruct (stackTraceRequest frames s1). exact IH.
Qed.

Lemma add_scopes_disjoint (cs : list Context) (s : Session) :
  handles_below_counters s -> tables_disjoint s ->
  tables_disjoint (fst (add_scopes cs s)).
Proof.
  revert s. induction cs as [|c cs IH]; intros s Hb H; [exact H|].
  cbn [add_scopes].
  pose proof (add_scope_disjoint s c Hb H) as H1.
  pose proof (grows_below _ _ Hb (add_scope_grows s c Hb)) as Hb1.
  destruct (add_scope s c) as [s1 d]. cbn [fst] in H1, Hb1.
  specialize (IH s1 Hb1 H1). destruct (add_scopes cs s1). exact IH.
Qed.

Lemma add_variables_disjoint (args : VariablesArguments) (qs : list Property)
    (s : Session) :
  handles_below_counters s -> tables_disjoint s ->
  tables_disjoint (fst (add_variables args qs s)).
Proof.
  revert s. induction qs as [|q qs IH]; intros s Hb H; [exact H|].
  cbn [add_variables]. destruct (filtered_out args q); [apply IH; assumption|].
  pose proof (add_variable_disjoint s q Hb H) as H1.
  pose proof (grows_below _ _ Hb (add_variable_grows s q Hb)) as Hb1.
  destruct (add_variable s q) as [s1 d]. cbn [fst] in H1, Hb1.
  specialize (IH s1 Hb1 H1). destruct (add_variables args qs s1). exact IH.
Qed.

Lemma handle_disjoint (r : Request) (s : Session) :
  handles_below_counters s -> tables_disjoint s ->
  tables_disjoint
    (handle convertClientPathToDebugger convertDebuggerPathToClient safeEval r s).
Proof.
  intros Hb H. destruct r; cbn [handle].
  - apply (same_tables_disjoint s); [|exact H]. unfold setBreakPointsRequest.
    destruct (requested args); [destruct (set_all _ _ _ _)|];
      apply same_tables_set_breakpoints.
  - apply (same_tables_disjoint s); [|exact H].
    unfold configurationDoneRequest. cbn [after session].
    apply continuation_tables. intros upcoming p.
    destruct (useAdvancedBreakpoint _); apply checkContinuationStatus_tables.
  - apply (same_tables_disjoint s); [|exact H]. apply continuation_tables.
    intros upcoming p. apply checkContinuationStatus_tables.
  - apply (same_tables_disjoint s); [|exact H]. apply continuation_tables.
    intros upcoming p. apply checkContinuationStatus_tables.
  - apply (same_tables_disjoint s); [|exact H]. apply continuation_tables.
    intros upcoming p. apply checkContinuationStatus_tables.
  - apply (same_tables_disjoint s); [|exact H]. apply continuation_tables.
    intros upcoming p. apply checkContinuationStatus_tables.
  - apply stackTraceRequest_disjoint, H.
  - unfold scopesRequest. destruct (stackFrames s !! frameId); [|exact H].
    pose proof (add_scopes_disjoint (contextNames s0) s Hb H) as G.
    destruct (add_scopes _ _). exact G.
  - apply add_variables_disjoint; assumption.
Qed.

(** X14: in every session that requests can lead to from the start, the
    stored handles lie below their counters, the handle 0 (which tells
    the IDE that a variable has no children) is never issued, and no
    variables reference names both a scope and an object, so the order
    in which [variablesRequest] consults its two tables is immaterial. *)
Theorem reachable_handles (s : Session) :
  reachable convertClientPathToDebugger convertDebuggerPathToClient safeEval s ->
  handles_below_counters s /\ handles_positive s /\ tables_disjoint s.
Proof.
  induction 1 as [args|r s Hr (Hb & Hp & Hd)].
  - split; [apply handles_below_initial|]. split.
    + unfold handles_positive, initial.
      cbn [stackFrameIdCounter variableReferenceCounter stackFrames contexts
           objectProperties].
      repeat split; try lia; apply lookup_empty.
    + intros h [x Hx]. cbn in Hx. rewrite lookup_empty in Hx. discriminate Hx.
  - pose proof (handle_tables r s Hb) as G.
    split; [exact (grows_below _ _ Hb G)|].
    split; [exact (grows_positive _ _ Hp G)|].
    apply handle_disjoint; assumption.
Qed.

Lemma counters_only_lowercase (reg reg' : gmap string Breakpoint) :
  counters_only reg reg' -> registry_lowercase reg -> registry_lowercase reg'.
Proof.
  intros Hc H k b' Hk. specialize (Hc k). rewrite Hk in Hc.
  destruct (reg !! k) as [b|] eqn:E; [|contradiction]. exact (H _ _ E).
Qed.

Lemma continuation_lowercase (cmd : Command) (debuggee : list Pause) (s : Session)
    (c : bool) (pre : list Action) :
  registry_lowercase (breakpoints s) ->
  registry_lowercase
    (breakpoints
       (session
          (continuation cmd debuggee s
             (fun upcoming p =>
                after pre
                  (checkContinuationStatus convertDebuggerPathToClient safeEval
                     upcoming s p c))))).
Proof.
  intros H. unfold continuation. destruct debuggee as [|p upcoming]; [exact H|].
  cbn [after session].
  exact (counters_only_lowercase _ _
           (checkContinuationStatus_counters convertDebuggerPathToClient safeEval
              upcoming s p c) H).
Qed.

Lemma handle_lowercase (r : Request) (s : Session) :
  registry_lowercase (breakpoints s) ->
  registry_lowercase
    (breakpoints
       (handle convertClientPathToDebugger convertDebuggerPathToClient safeEval r s)).
Proof.
  intros H. destruct r; cbn [handle].
  - apply setBreakPointsRequest_lowercase, H.
  - unfold configurationDoneRequest. cbn [after session].
    destruct (useAdvancedBreakpoint _); apply continuation_lowercase, H.
  - apply continuation_lowercase, H.
  - apply continuation_lowercase, H.
  - apply continuation_lowercase, H.
  - apply continuation_lowercase, H.
  - rewrite stackTraceRequest_breakpoints. exact H.
  - unfold scopesRequest. destruct (stackFrames s !! frameId); [|exact H].
    pose proof (add_scopes_breakpoints (contextNames s0) s) as E.
    destruct (add_scopes _ _). cbn [fst] in E. rewrite E. exact H.
  - unfold variablesRequest. rewrite add_variables_breakpoints. exact H.
Qed.

(** X15: in every session that requests can lead to from the start, each
    record of the registry carries advanced data, and each key of the
    registry is in lower case: the lookup at a break, which lowers the
    path of the top frame, can reach every record. *)
Theorem reachable_registry (s : Session) :
  reachable convertClientPathToDebugger convertDebuggerPathToClient safeEval s ->
  registry_advanced s /\ registry_lowercase (breakpoints s).
Proof.
  induction 1 as [args|r s Hr [Ha Hl]].
  - split; [apply registry_advanced_initial|]. intros k b Hk. cbn in Hk.
    rewrite lookup_empty in Hk. discriminate Hk.
  - split; [apply handle_advanced, Ha|apply handle_lowercase, Hl].
Qed.

End ReachableFacts.

(* ===================================================================== *)
(** ** Hit conditions: what the pattern accepts and what it asks *)
(* ===================================================================== *)

Section HitGrammarFacts.

Import HitCondition HitGrammar.

Lemma strip_prefix_sound (p s rest : string) :
  strip_prefix p s = Some rest -> s = p ++ rest.
Proof.
  revert s. induction p as [|a p IH]; intros s; cbn [strip_prefix].
  - intros [= ->]. reflexivity.
  - destruct s as [|b s]; [discriminate|].
    destruct (Ascii.eqb_spec a b) as [->|]; [|discriminate].
    intros H. rewrite append_cons. f_equal. apply IH, H.
Qed.

Lemma strip_prefix_complete (p rest : string) : strip_prefix p (p ++ rest) = Some rest.
Proof.
  induction p as [|a p IH]; [reflexivity|].
  rewrite append_cons. cbn [strip_prefix]. now rewrite Ascii.eqb_refl.
Qed.

Lemma skip_spaces_split (s : string) :
  exists ws, all_space ws = true /\ s = ws ++ skip_spaces s.
Proof.
  induction s as [|c s (ws & Hws & E)]; [exists ""; split; reflexivity|].
  cbn [skip_spaces]. destruct (is_space c) eqn:Hc.
  - exists (String c ws). cbn [all_space]. rewrite Hc, Hws. split; [reflexivity|].
    rewrite append_cons. now f_equal.
  - exists "". split; reflexivity.
Qed.

Lemma match_number_sound (s number : string) :
  match_number s = Some number ->
  exists ws, all_space ws = true /\ s = ws ++ number.
Proof.
  unfold match_number. destruct (skip_spaces_split s) as (ws & Hws & E).
  destruct (skip_spaces s) as [|c d]; [discriminate|].
  destruct (all_digits (String c d)); [|discriminate].
  intros [= <-]. eauto.
Qed.

Lemma digit_is_no_space (c : ascii) : is_digit c = true -> is_space c = false.
Proof.
  destruct c as [[] [] [] [] [] [] [] []]; try discriminate; reflexivity.
Qed.

Lemma match_number_complete (ws number : string) :
  all_space ws = true -> all_digits number = true -> number <> "" ->
  match_number (ws ++ number) = Some number.
Proof.
  intros Hws Hd Hne. unfold match_number.
  assert (E : skip_spaces (ws ++ number) = number).
  { induction ws as [|c ws IH].
    - destruct number as [|c d]; [congruence|]. cbn [all_digits] in Hd.
      apply andb_prop in Hd as [Hc _]. change ("" ++ String c d) with (String c d).
      cbn [skip_spaces]. now rewrite (digit_is_no_space c Hc).
    - cbn [all_space] in Hws. apply andb_prop in Hws as [Hc Hws].
      rewrite append_cons. cbn [skip_spaces]. rewrite Hc. apply IH, Hws. }
  rewrite E. destruct number as [|c d]; [congruence|]. now rewrite Hd.
Qed.

(** What follows the operator starts with white space or with a digit. *)
Lemma tail_head (ws number : string) :
  all_space ws = true -> all_digits number = true -> number <> "" ->
  exists c r, ws ++ number = String c r /\ (is_space c || is_digit c) = true.
Proof.
  intros Hws Hd Hne. destruct ws as [|c ws].
  - destruct number as [|c d]; [congruence|]. cbn [all_digits] in Hd.
    apply andb_prop in Hd as [Hc _]. exists c, d. split; [reflexivity|].
    rewrite Hc. apply orb_true_r.
  - cbn [all_space] in Hws. apply andb_prop in Hws as [Hc _].
    exists c, (ws ++ number). split; [apply append_cons|]. now rewrite Hc.
Qed.

Lemma no_operator_char (c : ascii) :
  (is_space c || is_digit c) = true ->
  Ascii.eqb "<" c = false /\ Ascii.eqb ">" c = false /\
  Ascii.eqb "=" c = false /\ Ascii.eqb "%" c = false.
Proof.
  destruct c as [[] [] [] [] [] [] [] []]; try discriminate; repeat split.
Qed.

Lemma hit_match_accepts (operator : option string) (ws number : string) :
  is_operator operator -> all_space ws = true -> all_digits number = true ->
  number <> "" ->
  hit_match (operator_text operator ++ ws ++ number) = Some (operator, number).
Proof.
  intros Hop Hws Hd Hne.
  pose proof (match_number_complete ws number Hws Hd Hne) as Hm.
  destruct (tail_head ws number Hws Hd Hne) as (c & r & E & Hc).
  destruct (no_operator_char c Hc) as (C1 & C2 & C3 & C4).
  rewrite E in *. unfold hit_match.
  destruct operator as [op|]; cbn [operator_text is_operator] in *.
  - unfold operators in Hop. cbn [In] in Hop.
    destruct Hop as [<-|[<-|[<-|[<-|[<-|[<-|[<-|[]]]]]]]];
      rewrite ?append_cons; change ("" ++ String c r) with (String c r);
      cbn [operators try_operators strip_prefix];
      repeat (first [ rewrite C1 | rewrite C2 | rewrite C3 | rewrite C4
                    | match goal with
                      | |- context [Ascii.eqb ?x (Ascii ?b0 ?b1 ?b2 ?b3 ?b4 ?b5 ?b6 ?b7)] =>
                          let y := constr:(Ascii b0 b1 b2 b3 b4 b5 b6 b7) in
                          let v := eval cbv in (Ascii.eqb x y) in
                          change (Ascii.eqb x y) with v
                      end ]; cbn iota; cbn [strip_prefix]);
      rewrite ?Hm; reflexivity.
  - change ("" ++ String c r) with (String c r).
    cbn [operators try_operators strip_prefix]. rewrite C1, C2, C3, C4, Hm.
    reflexivity.
Qed.

Lemma try_operators_texts (ops : list string) (s : string)
    (operator : option string) (number : string) :
  try_operators ops s = Some (operator, number) ->
  exists ws, all_space ws = true /\ s = operator_text operator ++ ws ++ number.
Proof.
  induction ops as [|op ops IH]; cbn [try_operators]; [discriminate|].
  destruct (strip_prefix op s) as [rest|] eqn:Es; [|exact IH].
  destruct (match_number rest) as [n|] eqn:E; [|exact IH].
  intros [= <- <-]. destruct (match_number_sound _ _ E) as (ws & Hws & ->).
  exists ws. split; [exact Hws|]. apply strip_prefix_sound, Es.
Qed.

(** X16: the pattern of hit conditions accepts exactly the texts made of
    an optional operator among [<=], [<], [>=], [>], [==], [=] and [%],
    any run of white space and one or more decimal digits; the groups it
    yields are that operator and those digits. *)
Theorem hit_match_grammar (h : string) (operator : option string) (number : string) :
  hit_match h = Some (operator, number) <->
  is_operator operator /\ all_digits number = true /\ number <> "" /\
  exists ws, all_space ws = true /\ h = operator_text operator ++ ws ++ number.
Proof.
  split.
  - intros H. destruct (hit_match_groups _ _ _ H) as (Hop & Hd & Hne).
    split; [|split; [exact Hd|split; [exact Hne|]]].
    + destruct Hop as [->|(op & -> & Hin)]; [exact I|exact Hin].
    + unfold hit_match in H.
      destruct (try_operators operators h) as [[o n]|] eqn:E.
      * injection H as <- <-. apply (try_operators_texts _ _ _ _ E).
      * destruct (match_number h) as [n|] eqn:E'; [|discriminate].
        injection H as <- <-. apply (match_number_sound _ _ E').
  - intros (Hop & Hd & Hne & ws & Hws & ->). now apply hit_match_accepts.
Qed.

Lemma compare_op_asks (operator : option string) (c m : N) :
  In (normalise_operator operator) ["<="; "<"; ">="; ">"; "=="] ->
  is_operator operator ->
  compare_op (normalise_operator operator) c m = Some (asks operator c m).
Proof.
  intros Hin Hop. destruct operator as [op|]; [|reflexivity].
  unfold is_operator, operators in Hop. cbn [In] in Hop.
  destruct Hop as [<-|[<-|[<-|[<-|[<-|[<-|[<-|[]]]]]]]]; try reflexivity.
  exfalso. simpl in Hin. intuition discriminate.
Qed.

(** X17: with the evaluation of JavaScript, a hit condition that the
    pattern accepts asks of the counter what its operator says about its
    number: at most, below, at least, above, equal to ([==] and [=]
    alike), a multiple of (never so for the number zero), and at least
    when there is no operator.  The number is read as JavaScript reads
    the literal, so a leading zero before octal digits makes it octal. *)
Theorem hit_condition_asks (c : N) (h : string) (operator : option string)
    (number : string) (m : N) :
  hit_match h = Some (operator, number) ->
  numeric_literal number = Some m ->
  hitConditionResult safeEval_js c (Some h) = asks operator c m.
Proof.
  intros Hh Hm. pose proof Hh as (Hop & Hd & Hne)%hit_match_groups.
  assert (Hop' : is_operator operator).
  { destruct Hop as [->|(op & -> & Hin)]; [exact I|exact Hin]. }
  unfold hitConditionResult. destruct h as [|x h]; [discriminate Hh|]. rewrite Hh.
  assert (Hcases : operator = Some "%" \/
                   In (normalise_operator operator) ["<="; "<"; ">="; ">"; "=="]).
  { destruct Hop as [->|(op & -> & Hin)]; [right; simpl; auto|].
    simpl in Hin.
    destruct Hin as [<-|[<-|[<-|[<-|[<-|[<-|[<-|[]]]]]]]]; simpl; auto 10. }
  destruct Hcases as [->|Hin].
  - rewrite (safeEval_js_remainder c number m Hd Hm).
    unfold remainder_is_zero, asks. cbn. destruct (m =? 0); reflexivity.
  - rewrite (safeEval_js_compare c operator number m Hin Hd Hm).
    now rewrite (compare_op_asks operator c m Hin Hop').
Qed.

End HitGrammarFacts.

(* ===================================================================== *)
(** ** Log messages: the expressions and the unresolved ones *)
(* ===================================================================== *)

Section ExpressionFacts.

Import LogMessage Expressions.

Lemma lazy_body_taken_facts (s : string) :
  forall prev e a,
    lazy_body true prev s = Some (e, a) ->
    single_line e = true /\ escaped (prev_after (Some prev) e) = false.
Proof.
  induction s as [|c s IH]; intros prev e a; cbn [lazy_body]; [discriminate|].
  cbn [andb]. destruct (Ascii.eqb c "}" && negb (Ascii.eqb prev "\")) eqn:Hclose.
  - intros [= <- <-]. split; [reflexivity|]. cbn [prev_after escaped].
    apply andb_prop in Hclose as [_ H]. now apply negb_true_iff in H.
  - destruct (is_line_terminator c) eqn:Hc; [discriminate|].
    destruct (lazy_body true c s) as [[e' a']|] eqn:E; [|discriminate].
    intros [= <- <-]. destruct (IH _ _ _ E) as [H1 H2].
    cbn [single_line prev_after]. rewrite Hc, H1. split; [reflexivity|exact H2].
Qed.

Lemma lazy_body_first_facts (prev : ascii) (s e a : string) :
  lazy_body false prev s = Some (e, a) -> well_formed e.
Proof.
  destruct s as [|c s]; cbn [lazy_body]; [discriminate|]. cbn [andb].
  destruct (is_line_terminator c) eqn:Hc; [discriminate|].
  destruct (lazy_body true c s) as [[e' a']|] eqn:E; [|discriminate].
  intros [= <- <-]. destruct (lazy_body_taken_facts _ _ _ _ E) as [H1 H2].
  split; [discriminate|]. cbn [single_line prev_after]. rewrite Hc, H1.
  split; [reflexivity|exact H2].
Qed.

Lemma exec_well_formed (s : string) :
  forall prev b e a, exec prev s = Some (b, e, a) -> well_formed e.
Proof.
  induction s as [|c s IH]; intros prev b e a; cbn [exec]; [discriminate|].
  destruct (Ascii.eqb c "{" && negb (escaped prev)).
  - destruct (lazy_body false c s) as [[e' a']|] eqn:E.
    + intros [= _ <- _]. apply (lazy_body_first_facts _ _ _ _ E).
    + destruct (exec (Some c) s) as [[[b' e'] a']|] eqn:E'; [|discriminate].
      intros [= _ <- _]. apply (IH _ _ _ _ E').
  - destruct (exec (Some c) s) as [[[b' e'] a']|] eqn:E'; [|discriminate].
    intros [= _ <- _]. apply (IH _ _ _ _ E').
Qed.

Lemma matchAll_from_well_formed (fuel : nat) :
  forall prev s e, In e (matchAll_from fuel prev s) -> well_formed e.
Proof.
  induction fuel as [|fuel IH]; intros prev s e; cbn [matchAll_from]; [intros []|].
  destruct (exec prev s) as [[[b e'] a]|] eqn:E; [|intros []].
  intros [<-|Hin]; [apply (exec_well_formed _ _ _ _ _ E)|apply (IH _ _ _ Hin)].
Qed.

(** X18: every expression that a log message hands to
    [fetchPrimitiveProperty] is not empty, holds no line terminator and
    does not end in a backslash. *)
Theorem expressions_well_formed (logMessage e : string) :
  In e (matchAll logMessage) -> well_formed e.
Proof. apply matchAll_from_well_formed. Qed.

(** X19: a log message none of whose expressions resolves (the value is
    [null] or the empty string) is logged as it stands, braces included,
    followed by a newline. *)
Theorem unresolved_log_is_verbatim (fetchPrimitiveProperty : string -> option string)
    (logMessage : string) :
  (forall e, In e (matchAll logMessage) -> JS.truthy (fetchPrimitiveProperty e) = false) ->
  evalLogMessage fetchPrimitiveProperty logMessage = logMessage ++ LF.
Proof.
  unfold evalLogMessage. generalize (matchAll logMessage) as es.
  intros es H. f_equal. induction es as [|e es IH]; [reflexivity|].
  cbn [fold_left]. unfold substitute at 2.
  pose proof (H e (or_introl eq_refl)) as He.
  destruct (fetchPrimitiveProperty e) as [[|c v]|]; try discriminate He;
    apply IH; intros e' Hin; apply H; right; exact Hin.
Qed.

End ExpressionFacts.

(* ===================================================================== *)
(** ** [InstanceOf] *)
(* ===================================================================== *)

Section InstanceOfFacts.

Import Library InstanceOf.

Variables (number objectProperty address_type : Type).
Variable fullName : objectProperty -> string.
Variable address : objectProperty -> address_type.
Variable fetchProperty : string -> EvaluatedValue number objectProperty.

(** X20: [InstanceOf] answers [true] exactly when both operands are
    objects and the [base] of the first is an object; the addresses take
    no part in the answer, since the call up the chain of bases is
    turned into a boolean without being awaited. *)
Theorem instanceOf_ignores_addresses (same_address : address_type -> address_type -> bool)
    (object superClass : EvaluatedValue number objectProperty) :
  instanceOf number objectProperty fullName address_type address same_address
    fetchProperty object superClass = true
  <-> exists o sc baseClass,
        object = VObject o /\ superClass = VObject sc /\
        fetchProperty (fullName o ++ ".base") = VObject baseClass.
Proof.
  unfold instanceOf, Boolean_of_object. split.
  - destruct object as [| | |o]; try discriminate.
    destruct superClass as [| | |sc]; try discriminate.
    destruct (fetchProperty (fullName o ++ ".base")) as [| | |baseClass] eqn:E;
      try discriminate.
    intros _. exists o, sc, baseClass. repeat split. exact E.
  - intros (o & sc & baseClass & -> & -> & ->).
    destruct (same_address _ _); reflexivity.
Qed.

End InstanceOfFacts.

(* ===================================================================== *)
(** ** Further worked cases *)
(* ===================================================================== *)

Section FurtherCases.

Import Dbgp Adapter HitCondition LogMessage Lifetime HitGrammar Expressions Sample Cases.

Lemma initial_below : handles_below_counters (initial args_run_advanced).
Proof. apply handles_below_initial. Qed.

Lemma at_first_stop_below : handles_below_counters at_first_stop.
Proof.
  unfold at_first_stop.
  pose proof (handle_tables path2uri uri2path safeEval_js (ReqStackTrace [frame_demo])
                _ initial_below) as G1.
  pose proof (grows_below _ _ initial_below G1) as H1.
  exact (grows_below _ _ H1
           (handle_tables path2uri uri2path safeEval_js (ReqScopes 1 scopes_of_frame)
              _ H1)).
Qed.

Lemma at_first_stop_positive : handles_positive at_first_stop.
Proof. repeat split; vm_compute; reflexivity. Qed.

Lemma initial_lowercase (args : LaunchRequestArguments) :
  registry_lowercase (breakpoints (initial args)).
Proof. intros k b Hk. cbn in Hk. rewrite lookup_empty in Hk. discriminate Hk. Qed.

Lemma stack_trace_round_trip_witness :
  handles_below_counters (initial args_run_advanced) /\
  map frame_id (snd (stackTraceRequest [frame_demo] (initial args_run_advanced))) = [1] /\
  stackFrameIdCounter (fst (stackTraceRequest [frame_demo] (initial args_run_advanced)))
  = 2.
Proof.
  split; [exact initial_below|].
  exact (proj2 (stack_trace_round_trip [frame_demo] (initial args_run_advanced)
                  initial_below)).
Defined.


Lemma variables_follow_filter_witness :
  handles_below_counters at_first_stop /\
  contexts at_first_stop !! 1 = Some context_local /\
  Forall2 shows [property_obj]
    (snd (variablesRequest (all_variables 1) variables_of_context children_of
            at_first_stop)).
Proof.
  split; [exact at_first_stop_below|].
  assert (H : contexts at_first_stop !! 1 = Some context_local)
    by (vm_compute; reflexivity).
  split; [exact H|].
  exact (proj1 (variables_follow_filter (all_variables 1) variables_of_context
                  children_of at_first_stop at_first_stop_below)
           context_local H).
Defined.

Lemma object_variables_expand_witness :
  handles_below_counters at_first_stop /\
  0 < variableReferenceCounter at_first_stop /\
  In shown_obj
    (snd (variablesRequest (all_variables 1) variables_of_context children_of
            at_first_stop)) /\
  v_variablesReference shown_obj <> 0 /\
  exists q,
    shows q shown_obj /\
    objectProperties
      (fst (variablesRequest (all_variables 1) variables_of_context children_of
              at_first_stop)) !! 2 = Some q.
Proof.
  split; [exact at_first_stop_below|].
  assert (Hpos : 0 < variableReferenceCounter at_first_stop) by (vm_compute; reflexivity).
  split; [exact Hpos|].
  assert (Hin : In shown_obj
                  (snd (variablesRequest (all_variables 1) variables_of_context
                          children_of at_first_stop)))
    by (vm_compute; left; reflexivity).
  split; [exact Hin|].
  destruct (proj2 (object_variables_expand (all_variables 1) variables_of_context
                     children_of at_first_stop shown_obj at_first_stop_below Hpos Hin)
              eq_refl) as (Hne & q & Hq & Hlook & _).
  split; [exact Hne|]. exists q. split; [exact Hq|exact Hlook].
Defined.

Lemma unknown_handles_witness :
  handles_below_counters at_first_stop /\
  handles_positive at_first_stop /\
  scopesRequest 0 scopes_of_frame at_first_stop = None /\
  scopesRequest 2 scopes_of_frame at_first_stop = None /\
  variablesRequest (all_variables 0) variables_of_context children_of at_first_stop
  = (at_first_stop, []).
Proof.
  split; [exact at_first_stop_below|]. split; [exact at_first_stop_positive|].
  pose proof (unknown_handles at_first_stop at_first_stop_below at_first_stop_positive)
    as [Hs Hv].
  split; [apply Hs; left; reflexivity|].
  split; [apply Hs; right; vm_compute; discriminate|].
  apply Hv. left. reflexivity.
Defined.

Lemma set_then_hit_witness :
  registry_lowercase (breakpoints (initial args_run_advanced)) /\
  last_resolved 5 [(log_point 5 "x={x}", SetOk 1 5)] = Some (log_point 5 "x={x}") /\
  JS.toLowerCase (uri2path (sf_fileUri frame_demo)) = JS.toLowerCase demo /\
  exists b c,
    getCurrentBreakpoint uri2path
      (with_breakpoint args_run_advanced (log_point 5 "x={x}")) (break_at "run" 5)
    = Registered (key (JS.toLowerCase demo) 5) b /\
    advancedData b
    = Some {| counter := c; condition := None; hitCondition := None;
              logMessage := Some "x={x}" |}.
Proof.
  split; [apply initial_lowercase|]. split; [reflexivity|]. split; [reflexivity|].
  exact (set_then_hit path2uri uri2path demo 5 [(log_point 5 "x={x}", SetOk 1 5)] []
           (initial args_run_advanced) (log_point 5 "x={x}") (break_at "run" 5)
           frame_demo [] (initial_lowercase args_run_advanced)
           eq_refl eq_refl eq_refl eq_refl).
Defined.

Lemma with_other_lowercase : registry_lowercase (breakpoints with_other).
Proof. apply setBreakPointsRequest_lowercase, initial_lowercase. Qed.

Lemma other_key_apart (l : N) : key other 7 <> key (JS.toLowerCase demo) l.
Proof.
  change (JS.toLowerCase demo) with demo. unfold key, other, demo.
  rewrite !append_cons. discriminate.
Qed.

Lemma other_files_untouched_witness :
  registry_lowercase (breakpoints with_other) /\
  (forall l, key other 7 <> key (JS.toLowerCase demo) l) /\
  breakpoints
    (fst (setBreakPointsRequest path2uri uri2path
            (set_request [(plain_breakpoint 5, SetOk 1 5)]) [listed_at 5] with_other))
    !! key other 7
  = breakpoints with_other !! key other 7.
Proof.
  split; [exact with_other_lowercase|]. split; [exact other_key_apart|].
  exact (other_files_untouched path2uri uri2path
           (set_request [(plain_breakpoint 5, SetOk 1 5)]) [listed_at 5] with_other
           (key other 7) with_other_lowercase other_key_apart).
Defined.

Lemma stop_is_final_witness :
  actions (continueRequest uri2path safeEval_js [break_at "run" 5]
             (with_breakpoint args_run_advanced (plain_breakpoint 5)))
  = ([SendCommand Run; SendResponse; SendCommand StackGet]
     ++ SendEvent (StoppedEvent "conditional breakpoint") :: [])%list /\
  terminal (SendEvent (StoppedEvent "conditional breakpoint")) = true /\
  @nil Action = [].
Proof.
  assert (H : actions (continueRequest uri2path safeEval_js [break_at "run" 5]
                         (with_breakpoint args_run_advanced (plain_breakpoint 5)))
              = ([SendCommand Run; SendResponse; SendCommand StackGet]
                 ++ SendEvent (StoppedEvent "conditional breakpoint") :: [])%list)
    by (vm_compute; reflexivity).
  split; [exact H|]. split; [reflexivity|].
  exact (stop_is_final uri2path safeEval_js [break_at "run" 5]
           (with_breakpoint args_run_advanced (plain_breakpoint 5))
           [SendCommand Run; SendResponse; SendCommand StackGet] []
           (SendEvent (StoppedEvent "conditional breakpoint")) H eq_refl).
Defined.

Lemma with_breakpoint_advanced (args : LaunchRequestArguments) (b : SourceBreakpoint) :
  registry_advanced (with_breakpoint args b).
Proof. apply setBreakPointsRequest_advanced, registry_advanced_initial. Qed.

Lemma break_is_answered_witness :
  registry_advanced (with_breakpoint args_run_advanced (log_point 5 "x={x}")) /\
  status (response (break_at "run" 5)) = "break" /\
  stack (break_at "run" 5) <> Some [] /\
  exists a,
    In a (actions (checkContinuationStatus uri2path safeEval_js []
                     (with_breakpoint args_run_advanced (log_point 5 "x={x}"))
                     (break_at "run" 5) true)) /\
    (a = SendCommand Run \/ exists reason, a = SendEvent (StoppedEvent reason)).
Proof.
  split; [apply with_breakpoint_advanced|]. split; [reflexivity|].
  assert (H : stack (break_at "run" 5) <> Some []) by discriminate.
  split; [exact H|].
  exact (break_is_answered uri2path safeEval_js []
           (with_breakpoint args_run_advanced (log_point 5 "x={x}"))
           (break_at "run" 5) true (with_breakpoint_advanced _ _) eq_refl H).
Defined.

Lemma continue_reads_registry_only_witness :
  breakpoints (with_breakpoint args_run_advanced (log_point 5 "x={x}"))
  = breakpoints (with_breakpoint args_plain (log_point 5 "x={x}")) /\
  actions (continueRequest uri2path safeEval_js [break_at "run" 5]
             (with_breakpoint args_run_advanced (log_point 5 "x={x}")))
  = actions (continueRequest uri2path safeEval_js [break_at "run" 5]
               (with_breakpoint args_plain (log_point 5 "x={x}"))).
Proof.
  split; [reflexivity|].
  exact (proj1 (continue_reads_registry_only uri2path safeEval_js [break_at "run" 5]
                  (with_breakpoint args_run_advanced (log_point 5 "x={x}"))
                  (with_breakpoint args_plain (log_point 5 "x={x}")) eq_refl)).
Defined.

Lemma at_first_stop_reachable : reachable path2uri uri2path safeEval_js at_first_stop.
Proof. unfold at_first_stop. apply reachable_handle, reachable_handle, reachable_initial. Qed.

Lemma reachable_handles_witness :
  reachable path2uri uri2path safeEval_js at_first_stop /\
  handles_below_counters at_first_stop /\ handles_positive at_first_stop /\
  tables_disjoint at_first_stop.
Proof.
  split; [exact at_first_stop_reachable|].
  exact (reachable_handles path2uri uri2path safeEval_js at_first_stop
           at_first_stop_reachable).
Defined.

Lemma hit_three_times_reachable :
  reachable path2uri uri2path safeEval_js hit_three_times.
Proof.
  unfold hit_three_times, hit.
  apply (reachable_handle _ _ _ (ReqContinue [break_at "run" 5])).
  apply (reachable_handle _ _ _ (ReqContinue [break_at "run" 5])).
  apply (reachable_handle _ _ _ (ReqContinue [break_at "run" 5])).
  apply (reachable_handle _ _ _
           (ReqSetBreakpoints (set_request [(plain_breakpoint 5, SetOk 1 5)]) [])).
  apply reachable_initial.
Qed.

Lemma reachable_registry_witness :
  reachable path2uri uri2path safeEval_js hit_three_times /\
  registry_advanced hit_three_times /\
  registry_lowercase (breakpoints hit_three_times).
Proof.
  split; [exact hit_three_times_reachable|].
  exact (reachable_registry path2uri uri2path safeEval_js hit_three_times
           hit_three_times_reachable).
Defined.

Lemma hit_condition_asks_witness :
  hit_match "<= 7" = Some (Some "<=", "7") /\
  numeric_literal "7" = Some 7 /\
  hitConditionResult safeEval_js 3 (Some "<= 7") = asks (Some "<=") 3 7.
Proof.
  split; [reflexivity|]. split; [reflexivity|].
  exact (hit_condition_asks 3 "<= 7" (Some "<=") "7" 7 eq_refl eq_refl).
Defined.

Lemma expressions_well_formed_witness :
  In "x" (matchAll "x={x}") /\ well_formed "x".
Proof.
  assert (H : In "x" (matchAll "x={x}")) by (left; reflexivity).
  split; [exact H|]. exact (expressions_well_formed "x={x}" "x" H).
Defined.

Lemma unresolved_log_is_verbatim_witness :
  (forall e, In e (matchAll "x={x}") -> JS.truthy (fetch_nothing e) = false) /\
  evalLogMessage fetch_nothing "x={x}" = "x={x}" ++ LF.
Proof.
  assert (H : forall e, In e (matchAll "x={x}") -> JS.truthy (fetch_nothing e) = false)
    by (intros e _; reflexivity).
  split; [exact H|]. exact (unresolved_log_is_verbatim fetch_nothing "x={x}" H).
Defined.

End FurtherCases.
